(** * PTR trade extraction (pdf_parser.py): a shallow embedding

    The text-to-record engine of [PelosiPTRParser] is embedded here:
    [_is_trade_line], [_parse_trade_line], [_parse_ptr_trade_line],
    [_extract_description_for_trade], the trade-type resolver and the
    heuristic extractors, together with the part of Python they rely on
    ([str] methods, list indexing with its [IndexError], and the
    backtracking semantics of [re.search]).  Around the engine come
    [extract_trades], which feeds it the text of the pages, and the
    readers of its records: [format_trade_for_display] and, from
    discord_notifier.py, [_format_amount_range] and
    [_format_trade_message].

    Text is modelled as [list ascii], and the model is that of ASCII
    text: the classes [\s], [\d], [\w] and [str.upper] are what Python
    makes of the characters with codes below 128; a character with a
    higher code belongs to no class and is its own upper case.  Logging
    calls have no effect on the returned values and are left out. *)

From Stdlib Require Import Ascii String.
From Stdlib Require Import List ZArith NArith Bool Arith Lia.
From Stdlib Require DecimalString.
Import ListNotations.

(** ** Python strings *)

Module PyStr.

Definition pystr := list ascii.

Definition lit (s : string) : pystr := list_ascii_of_string s.

Definition code (a : ascii) : N := N_of_ascii a.

Definition in_range (lo hi a : ascii) : bool :=
  (code lo <=? code a)%N && (code a <=? code hi)%N.

(** Whitespace as [str.strip] and the regex class [\s] see it on ASCII
    text: TAB, LF, VT, FF, CR, the separators 0x1C to 0x1F, and space. *)
Definition is_space (a : ascii) : bool :=
  ((9 <=? code a)%N && (code a <=? 13)%N)
  || ((28 <=? code a)%N && (code a <=? 32)%N).

Definition is_digit (a : ascii) : bool := in_range "0" "9" a.
Definition is_AZ (a : ascii) : bool := in_range "A" "Z" a.
Definition is_az (a : ascii) : bool := in_range "a" "z" a.

(** The class [\w] on ASCII text, which decides where [\b] holds. *)
Definition is_word (a : ascii) : bool :=
  is_digit a || is_AZ a || is_az a || Ascii.eqb a "_".

Definition upper_char (a : ascii) : ascii :=
  if is_az a then ascii_of_N (code a - 32) else a.

(** [s.upper()] *)
Definition upper (s : pystr) : pystr := map upper_char s.

Fixpoint lstrip (s : pystr) : pystr :=
  match s with
  | a :: s' => if is_space a then lstrip s' else s
  | [] => []
  end.

Definition rstrip (s : pystr) : pystr := rev (lstrip (rev s)).

(** [s.strip()] *)
Definition strip (s : pystr) : pystr := rstrip (lstrip s).

Fixpoint str_eqb (s t : pystr) : bool :=
  match s, t with
  | [], [] => true
  | a :: s', b :: t' => Ascii.eqb a b && str_eqb s' t'
  | _, _ => false
  end.

(** [s.startswith(p)] *)
Fixpoint startswith (p s : pystr) : bool :=
  match p, s with
  | [], _ => true
  | a :: p', b :: s' => Ascii.eqb a b && startswith p' s'
  | _ :: _, [] => false
  end.

(** [s.endswith(p)] *)
Definition endswith (p s : pystr) : bool := startswith (rev p) (rev s).

(** [needle in hay] *)
Fixpoint contains (needle hay : pystr) : bool :=
  startswith needle hay ||
  match hay with
  | [] => false
  | _ :: hay' => contains needle hay'
  end.

(** [any(k in s for k in keywords)] *)
Definition any_in (keywords : list pystr) (s : pystr) : bool :=
  existsb (fun k => contains k s) keywords.

(** [sep.join(parts)] *)
Fixpoint join (sep : pystr) (parts : list pystr) : pystr :=
  match parts with
  | [] => []
  | [p] => p
  | p :: rest => p ++ sep ++ join sep rest
  end.

(** [s.replace('\x00', '')] *)
Definition remove_nul (s : pystr) : pystr :=
  filter (fun a => negb (Ascii.eqb a zero)) s.

(** [s.split('\n')]: the pieces between line feeds, at least one piece. *)
Fixpoint split_lines_acc (cur : pystr) (s : pystr) : list pystr :=
  match s with
  | [] => [rev cur]
  | a :: s' =>
      if Ascii.eqb a "010" then rev cur :: split_lines_acc [] s'
      else split_lines_acc (a :: cur) s'
  end.

Definition split_lines (s : pystr) : list pystr := split_lines_acc [] s.

End PyStr.

Export PyStr.
Coercion lit : string >-> pystr.

Open Scope string_scope.
Open Scope nat_scope.
Open Scope list_scope.

(** ** Regular expressions, as [re.search] runs them

    The matcher is a backtracking one in continuation-passing style: a
    pattern is tried at a cursor and hands the cursor it stops at, and the
    groups captured so far, to its continuation; when the continuation
    fails the pattern falls back to its next possibility.  Greedy
    repetitions prefer one more iteration, lazy ones prefer to stop, and
    [re.search] returns the first success at the leftmost start, which is
    what fixes the text of every group. *)

Module Regex.

Inductive regex : Type :=
| Eps                                   (* the empty pattern *)
| Chr (p : ascii -> bool)               (* one character of a class *)
| Seq (r1 r2 : regex)
| Rep (lo : nat) (hi : option nat) (greedy : bool) (r : regex)
| Grp (i : nat) (r : regex)             (* capturing group number i *)
| WordB.                                (* \b *)

(** A cursor into the subject: the characters before it, nearest first,
    and the characters after it. *)
Record cursor : Type := Cursor { before : list ascii; after : list ascii }.

Definition caps := list (nat * pystr).

Fixpoint lookup (i : nat) (g : caps) : option pystr :=
  match g with
  | [] => None
  | (j, w) :: g' => if Nat.eqb i j then Some w else lookup i g'
  end.

(** The text between two cursors of one subject. *)
Definition slice (c c' : cursor) : pystr :=
  rev (firstn (length (before c') - length (before c)) (before c')).

Definition word_before (c : cursor) : bool :=
  match before c with a :: _ => is_word a | [] => false end.

Definition word_after (c : cursor) : bool :=
  match after c with a :: _ => is_word a | [] => false end.

Definition at_word_boundary (c : cursor) : bool :=
  xorb (word_before c) (word_after c).

Definition below (hi : option nat) (n : nat) : bool :=
  match hi with Some h => n <? h | None => true end.

Definition cont := cursor -> caps -> option (cursor * caps).

Notation "x 'orelse' y" :=
  (match x with Some res => Some res | None => y end)
  (at level 70, no associativity, only parsing).

(** [rep_loop step k lo hi greedy fuel n c g]: [n] iterations are done;
    [step] runs the body once.  Every repeated body of the patterns below
    consumes a character (see [consuming]), so the iterations after a
    cursor are at most the characters after it, which is the fuel given. *)
Fixpoint rep_loop (step : cursor -> caps -> cont -> option (cursor * caps))
    (k : cont) (lo : nat) (hi : option nat) (greedy : bool)
    (fuel n : nat) (c : cursor) (g : caps) {struct fuel}
    : option (cursor * caps) :=
  match fuel with
  | 0 => if lo <=? n then k c g else None
  | S fuel' =>
      if n <? lo then step c g (rep_loop step k lo hi greedy fuel' (S n))
      else if negb (below hi n) then k c g
      else if greedy then
        step c g (rep_loop step k lo hi greedy fuel' (S n)) orelse k c g
      else
        k c g orelse step c g (rep_loop step k lo hi greedy fuel' (S n))
  end.

Fixpoint run (r : regex) (c : cursor) (g : caps) (k : cont) {struct r}
    : option (cursor * caps) :=
  match r with
  | Eps => k c g
  | Chr p =>
      match after c with
      | a :: s => if p a then k (Cursor (a :: before c) s) g else None
      | [] => None
      end
  | Seq r1 r2 => run r1 c g (fun c' g' => run r2 c' g' k)
  | Rep lo hi greedy r1 =>
      rep_loop (run r1) k lo hi greedy (length (after c)) 0 c g
  | Grp i r1 => run r1 c g (fun c' g' => k c' ((i, slice c c') :: g'))
  | WordB => if at_word_boundary c then k c g else None
  end.

(** The match object: [start()], [end()] and the groups. *)
Record match_obj : Type :=
  Match { m_start : nat; m_end : nat; m_caps : caps }.

Definition accept : cont := fun c g => Some (c, g).

Definition match_at (r : regex) (c : cursor) : option match_obj :=
  match run r c [] accept with
  | Some (c', g) => Some (Match (length (before c)) (length (before c')) g)
  | None => None
  end.

Fixpoint search_from (r : regex) (b s : list ascii) {struct s}
    : option match_obj :=
  match_at r (Cursor b s) orelse
  match s with
  | [] => None
  | a :: s' => search_from r (a :: b) s'
  end.

(** [re.search(r, s)] *)
Definition re_search (r : regex) (s : pystr) : option match_obj :=
  search_from r [] s.

(** [m.group(i)]: [None] for a group that took no part in the match. *)
Definition group (i : nat) (m : match_obj) : option pystr :=
  lookup i (m_caps m).

(** Whether a pattern matched at all ([if re.search(...)]). *)
Definition matched (o : option match_obj) : bool :=
  match o with Some _ => true | None => false end.

(** *** Pattern syntax *)

Definition chr (a : ascii) : regex := Chr (Ascii.eqb a).
Definition any_of (l : pystr) : regex :=
  Chr (fun a => existsb (Ascii.eqb a) l).

Fixpoint text (s : pystr) : regex :=
  match s with
  | [] => Eps
  | [a] => chr a
  | a :: s' => Seq (chr a) (text s')
  end.

Fixpoint seq (rs : list regex) : regex :=
  match rs with
  | [] => Eps
  | [r] => r
  | r :: rs' => Seq r (seq rs')
  end.

Definition star r := Rep 0 None true r.          (* r*  *)
Definition lazy_star r := Rep 0 None false r.    (* r*? *)
Definition plus r := Rep 1 None true r.          (* r+  *)
Definition opt r := Rep 0 (Some 1) true r.       (* r?  *)
Definition between lo hi r := Rep lo (Some hi) true r.   (* r{lo,hi} *)
Definition exactly n r := Rep n (Some n) true r.         (* r{n} *)
Definition at_least n r := Rep n None true r.            (* r{n,} *)

Definition dot : regex := Chr (fun a => negb (Ascii.eqb a "010")).  (* . *)
Definition sp : regex := Chr is_space.                              (* \s *)
Definition digit : regex := Chr is_digit.                           (* \d *)
Definition AZ : regex := Chr is_AZ.                                 (* [A-Z] *)
Definition is_digit_or_comma (a : ascii) : bool :=
  is_digit a || Ascii.eqb a ",".
Definition digit_or_comma : regex := Chr is_digit_or_comma. (* [\d,] [0-9,] *)
Definition not_P : regex := Chr (fun a => negb (Ascii.eqb a "P")).  (* [^P] *)
Definition P_or_S : regex := any_of "PS".                           (* [PS] *)

(** Whether a pattern can only match by consuming a character, and
    whether the body of every repetition in a pattern is such. *)
Fixpoint consuming (r : regex) : bool :=
  match r with
  | Eps | WordB => false
  | Chr _ => true
  | Seq r1 r2 => consuming r1 || consuming r2
  | Rep lo _ _ r1 => (0 <? lo) && consuming r1
  | Grp _ r1 => consuming r1
  end.

Fixpoint reps_consume (r : regex) : bool :=
  match r with
  | Eps | WordB | Chr _ => true
  | Seq r1 r2 => reps_consume r1 && reps_consume r2
  | Rep _ _ _ r1 => reps_consume r1 && consuming r1
  | Grp _ r1 => reps_consume r1
  end.

End Regex.

Export Regex.

(** ** Exceptions and list indexing *)

Module Py.

Inductive exn : Type := IndexError | AttributeError | TypeError.

Inductive result (A : Type) : Type :=
| Ok (a : A)
| Raise (e : exn).

Arguments Ok {A} a.
Arguments Raise {A} e.

Definition bind {A B} (m : result A) (f : A -> result B) : result B :=
  match m with
  | Ok a => f a
  | Raise e => Raise e
  end.

(** [try: body  except Exception: handler] *)
Definition try_except {A} (body : result A) (handler : exn -> result A)
    : result A :=
  match body with
  | Ok a => Ok a
  | Raise e => handler e
  end.

Notation "x <- m ;; k" := (bind m (fun x => k))
  (at level 61, m at next level, right associativity).

Fixpoint mapM {A B} (f : A -> result B) (l : list A) : result (list B) :=
  match l with
  | [] => Ok []
  | a :: l' => b <- f a ;; bs <- mapM f l' ;; Ok (b :: bs)
  end.

Definition len {A} (l : list A) : Z := Z.of_nat (length l).

(** [l[i]]: a negative index counts from the end, and an index outside
    [-len(l), len(l)) raises [IndexError]. *)
Definition getitem {A} (l : list A) (i : Z) : result A :=
  let j := (if i <? 0 then len l + i else i)%Z in
  if (j <? 0)%Z then Raise IndexError
  else match nth_error l (Z.to_nat j) with
       | Some a => Ok a
       | None => Raise IndexError
       end.

(** [range(a, b)] *)
Definition range (a b : Z) : list Z :=
  map (fun k => (a + Z.of_nat k)%Z) (List.seq 0 (Z.to_nat (b - a))).

(** Truth of a list or string: non-empty. *)
Definition truthy {A} (l : list A) : bool :=
  match l with [] => false | _ :: _ => true end.

(** A value that may be [None] is used as a string: a method call on
    [None] raises [AttributeError]. *)
Definition as_str (o : option pystr) : result pystr :=
  match o with
  | Some w => Ok w
  | None => Raise AttributeError
  end.

(** [s + None] raises [TypeError]. *)
Definition as_operand (o : option pystr) : result pystr :=
  match o with
  | Some w => Ok w
  | None => Raise TypeError
  end.

(** An optional string inside an f-string. *)
Definition fmt (o : option pystr) : pystr :=
  match o with
  | Some w => w
  | None => lit "None"
  end.

Definition truthy_opt (o : option pystr) : bool :=
  match o with
  | Some w => truthy w
  | None => false
  end.

End Py.

Export Py.

(** ** The parser *)

Inductive TradeType : Type := STOCK | OPTION_CALL | OPTION_PUT.

(** [trade_type.value] *)
Definition value (t : TradeType) : pystr :=
  match t with
  | STOCK => "stock"
  | OPTION_CALL => "option_call"
  | OPTION_PUT => "option_put"
  end.

Definition is_option (t : TradeType) : bool :=
  match t with STOCK => false | _ => true end.

(** A field of a trade dict: a string, or [None]. *)
Inductive pyval : Type :=
| VStr (s : pystr)
| VNone.

(** A trade dict, keys in the order of the dict display. *)
Definition trade := list (string * pyval).

Fixpoint field (k : string) (t : trade) : option pyval :=
  match t with
  | [] => None
  | (k', v) :: t' => if String.eqb k k' then Some v else field k t'
  end.

Definition lits (l : list string) : list pystr := map lit l.

(** *** Patterns *)

(** [\d{1,2}/\d{1,2}/\d{4}] *)
Definition date_re : regex :=
  seq [between 1 2 digit; chr "/"; between 1 2 digit; chr "/";
       exactly 4 digit].

(** [\$[\d,]+(?:\s*-)?] *)
Definition amount_re : regex :=
  seq [chr "$"; plus digit_or_comma; opt (Seq (star sp) (chr "-"))].

(** [\(([A-Z]{1,5})\)] *)
Definition ticker_re : regex :=
  seq [chr "("; Grp 1 (between 1 5 AZ); chr ")"].

(** [(\$[\d,]+)] *)
Definition dollar_re : regex := Grp 1 (Seq (chr "$") (plus digit_or_comma)).

(** [\s+\(partial\)] *)
Definition partial_re : regex := Seq (plus sp) (text "(partial)").

(** The three shapes as [_is_trade_line] writes them (no groups). *)
Definition ptr_pattern1 : regex :=
  seq [AZ; lazy_star dot; star sp; chr "("; between 1 5 AZ; chr ")";
       star sp; P_or_S; plus sp; date_re; plus sp; date_re; plus sp;
       amount_re].

Definition ptr_pattern2 : regex :=
  seq [text "SP"; plus sp; AZ; lazy_star not_P; plus sp; P_or_S;
       opt partial_re; plus sp; date_re; plus sp; date_re; plus sp;
       amount_re].

Definition ptr_pattern3 : regex :=
  seq [text "SP"; plus sp; AZ; lazy_star not_P; plus sp; P_or_S;
       plus sp; date_re; plus sp; date_re; plus sp; amount_re].

(** The same shapes as [_parse_ptr_trade_line] writes them (groups). *)
Definition pattern : regex :=
  seq [Grp 1 (Seq AZ (lazy_star dot)); star sp; chr "(";
       Grp 2 (between 1 5 AZ); chr ")"; star sp; Grp 3 P_or_S; plus sp;
       Grp 4 date_re; plus sp; Grp 5 date_re; plus sp; Grp 6 amount_re].

Definition pattern2 : regex :=
  seq [text "SP"; plus sp; Grp 1 (Seq AZ (lazy_star not_P)); plus sp;
       Grp 2 P_or_S; opt partial_re; plus sp; Grp 3 date_re; plus sp;
       Grp 4 date_re; plus sp; Grp 5 amount_re].

Definition pattern3 : regex :=
  seq [text "SP"; plus sp; Grp 1 (Seq AZ (lazy_star not_P)); plus sp;
       Grp 2 P_or_S; plus sp; Grp 3 date_re; plus sp; Grp 4 date_re;
       plus sp; Grp 5 amount_re].

(** [\b(G)\b] where the group G is [[A-Z]{2,}] followed by any number of
    [\s+[A-Z]{2,}] *)
Definition asset_re : regex :=
  seq [WordB;
       Grp 1 (Seq (at_least 2 AZ) (star (Seq (plus sp) (at_least 2 AZ))));
       WordB].

(** [\b(\d{1,2}/\d{1,2}/\d{4})\b] *)
Definition date_search_re : regex := seq [WordB; Grp 1 date_re; WordB].

(** [\$([0-9,]+)-?\$?([0-9,]+)?] *)
Definition amount_pat1 : regex :=
  seq [chr "$"; Grp 1 (plus digit_or_comma); opt (chr "-"); opt (chr "$");
       opt (Grp 2 (plus digit_or_comma))].

(** [Over\s+\$([0-9,]+)] *)
Definition over_re : regex :=
  seq [text "Over"; plus sp; chr "$"; Grp 1 (plus digit_or_comma)].

(** [Under\s+\$([0-9,]+)] *)
Definition under_re : regex :=
  seq [text "Under"; plus sp; chr "$"; Grp 1 (plus digit_or_comma)].

(** [\$([0-9,]+)\s+to\s+\$([0-9,]+)] *)
Definition to_re : regex :=
  seq [chr "$"; Grp 1 (plus digit_or_comma); plus sp; text "to"; plus sp;
       chr "$"; Grp 2 (plus digit_or_comma)].

(** *** Line classifier *)

Definition action_keywords : list pystr :=
  lits ["BUY"; "SELL"; "PURCHASE"; "SALE"; "ACQUIRED"; "DISPOSED"].

Definition asset_indicators : list pystr :=
  lits ["INC"; "CORP"; "LLC"; "ETF"; "STOCK"; "SHARES"].

Definition skip_keywords : list pystr :=
  lits ["DATE"; "ASSET"; "ACTION"; "AMOUNT"; "---"; "TOTAL"; "SUMMARY"].

Definition _is_trade_line (line : pystr) : bool :=
  let line_upper := upper line in
  if matched (re_search ptr_pattern1 line) then true
  else if matched (re_search ptr_pattern2 line) then true
  else if matched (re_search ptr_pattern3 line) then true
  else
    let has_action := any_in action_keywords line_upper in
    let has_asset := any_in asset_indicators line_upper in
    let is_header := any_in skip_keywords line_upper in
    has_action && has_asset && negb is_header.

(** *** Context resolver *)

Definition option_keywords : list pystr :=
  lits ["CALL"; "PUT"; "OPTION"; "STRIKE"; "EXPIRATION"].

Definition _determine_trade_type_from_ptr_context
    (all_lines : list pystr) (line_index : Z) : result TradeType :=
  if negb (truthy all_lines) then Ok STOCK
  else
    context_lines <-
      mapM (getitem all_lines)
           (range line_index (Z.min (line_index + 5) (len all_lines))) ;;
    let context_text := upper (join " " context_lines) in
    if any_in option_keywords context_text then
      if contains "CALL" context_text then Ok OPTION_CALL
      else if contains "PUT" context_text then Ok OPTION_PUT
      else Ok OPTION_CALL
    else Ok STOCK.

(** The loop of [_extract_description_for_trade] over the indices still
    to visit, with its two variables; [break] ends it with the parts
    collected so far. *)
Fixpoint description_loop (all_lines : list pystr) (indices : list Z)
    (description_parts : list pystr) (found_d_line : bool)
    : result (list pystr) :=
  match indices with
  | [] => Ok description_parts
  | i :: rest =>
      raw <- getitem all_lines i ;;
      let line := strip raw in
      let cleaned_line := strip (remove_nul line) in
      if startswith "D:" cleaned_line then
        let desc_text := strip (skipn 2 cleaned_line) in
        description_loop all_lines rest (description_parts ++ [desc_text]) true
      else if found_d_line then
        if startswith "SP " cleaned_line || startswith "L:" cleaned_line
        then Ok description_parts
        else description_loop all_lines rest
               (description_parts ++ [cleaned_line]) found_d_line
      else if startswith "SP " cleaned_line then Ok description_parts
      else description_loop all_lines rest description_parts found_d_line
  end.

Definition _extract_description_for_trade
    (all_lines : list pystr) (line_index : Z) : result pystr :=
  if negb (truthy all_lines) then Ok []
  else
    description_parts <-
      description_loop all_lines
        (range (line_index + 1) (Z.min (line_index + 10) (len all_lines)))
        [] false ;;
    Ok (join " " description_parts).

(** *** Structural shapes *)

(** ['BUY' if action_code.upper() == 'P' else 'SELL'] *)
Definition action_of_code (action_code : pystr) : pystr :=
  if str_eqb (upper action_code) "P" then "BUY" else "SELL".

(** The end every shape of [_parse_ptr_trade_line] shares: the trade
    type from the context, the description for an option, the dict. *)
Definition ptr_trade (line : pystr) (all_lines : list pystr)
    (line_index : Z) (asset_name ticker action_code trans_date notif_date
    complete_amount : pystr) : result (option trade) :=
  let action := action_of_code action_code in
  trade_type <- _determine_trade_type_from_ptr_context all_lines line_index ;;
  description <-
    (if is_option trade_type
     then _extract_description_for_trade all_lines line_index
     else Ok []) ;;
  Ok (Some [("asset_name", VStr (strip asset_name));
            ("ticker", VStr ticker);
            ("trade_type", VStr (value trade_type));
            ("action", VStr action);
            ("amount_range", VStr complete_amount);
            ("transaction_date", VStr (strip trans_date));
            ("notification_date", VStr (strip notif_date));
            ("description", VStr description);
            ("raw_line", VStr (strip line))]).

(** [line_index + 1 < len(all_lines)], asked after [all_lines] itself. *)
Definition has_next (all_lines : list pystr) (line_index : Z) : bool :=
  truthy all_lines && (line_index + 1 <? len all_lines)%Z.

(** [amount.strip() + " " + amount_match.group(1)] when the next line
    has a dollar token, [amount.strip()] otherwise. *)
Definition completed (amount next_line : pystr) : result pystr :=
  match re_search dollar_re next_line with
  | Some amount_match =>
      tail <- as_operand (group 1 amount_match) ;;
      Ok (strip amount ++ lit " " ++ tail)
  | None => Ok (strip amount)
  end.

(** Shape 1: ticker on the line itself. *)
Definition shape1 (m : match_obj) (line : pystr) (all_lines : list pystr)
    (line_index : Z) : result (option trade) :=
  asset_name <- as_str (group 1 m) ;;
  ticker <- as_str (group 2 m) ;;
  action_code <- as_str (group 3 m) ;;
  trans_date <- as_str (group 4 m) ;;
  notif_date <- as_str (group 5 m) ;;
  amount <- as_str (group 6 m) ;;
  complete_amount <-
    (if endswith "-" (strip amount) && has_next all_lines line_index then
       next_line <- getitem all_lines (line_index + 1) ;;
       completed amount next_line
     else Ok (strip amount)) ;;
  ptr_trade line all_lines line_index asset_name (strip ticker) action_code
            trans_date notif_date complete_amount.

(** Shape 2: ticker on the next line; [None] inside when the next line
    has no ticker, and the third shape is tried. *)
Definition shape2 (m : match_obj) (line : pystr) (all_lines : list pystr)
    (line_index : Z) : result (option (option trade)) :=
  asset_name <- as_str (group 1 m) ;;
  action_code <- as_str (group 2 m) ;;
  trans_date <- as_str (group 3 m) ;;
  notif_date <- as_str (group 4 m) ;;
  amount <- as_str (group 5 m) ;;
  next_line <- getitem all_lines (line_index + 1) ;;
  match re_search ticker_re next_line with
  | Some ticker_match =>
      ticker <- as_str (group 1 ticker_match) ;;
      complete_amount <- completed amount next_line ;;
      t <- ptr_trade line all_lines line_index asset_name (strip ticker)
                     action_code trans_date notif_date complete_amount ;;
      Ok (Some t)
  | None => Ok None
  end.

(** Shape 3: no ticker. *)
Definition shape3 (m : match_obj) (line : pystr) (all_lines : list pystr)
    (line_index : Z) : result (option trade) :=
  asset_name <- as_str (group 1 m) ;;
  action_code <- as_str (group 2 m) ;;
  trans_date <- as_str (group 3 m) ;;
  notif_date <- as_str (group 4 m) ;;
  amount <- as_str (group 5 m) ;;
  complete_amount <-
    (if contains " - " amount || contains " -$" amount then Ok (strip amount)
     else
       next_line <- getitem all_lines (line_index + 1) ;;
       completed amount next_line) ;;
  ptr_trade line all_lines line_index asset_name "N/A" action_code
            trans_date notif_date complete_amount.

Definition try_shape3 (line : pystr) (all_lines : list pystr)
    (line_index : Z) : result (option trade) :=
  match re_search pattern3 line with
  | Some match3 =>
      if has_next all_lines line_index
      then shape3 match3 line all_lines line_index
      else Ok None
  | None => Ok None
  end.

Definition try_shape2 (line : pystr) (all_lines : list pystr)
    (line_index : Z) : result (option trade) :=
  match re_search pattern2 line with
  | Some match2 =>
      if has_next all_lines line_index then
        r <- shape2 match2 line all_lines line_index ;;
        match r with
        | Some t => Ok t
        | None => try_shape3 line all_lines line_index
        end
      else try_shape3 line all_lines line_index
  | None => try_shape3 line all_lines line_index
  end.

Definition _parse_ptr_trade_line (line : pystr) (all_lines : list pystr)
    (line_index : Z) : result (option trade) :=
  try_except
    (match re_search pattern line with
     | Some m => shape1 m line all_lines line_index
     | None => try_shape2 line all_lines line_index
     end)
    (fun _ => Ok None).

(** *** Heuristic fallback *)

Definition buy_keywords : list pystr :=
  lits ["BUY"; "PURCHASE"; "ACQUIRED"; "ACQUISITION"].

Definition sell_keywords : list pystr :=
  lits ["SELL"; "SALE"; "DISPOSED"; "DISPOSAL"].

Definition _extract_action (line : pystr) : option pystr :=
  let line_upper := upper line in
  if any_in buy_keywords line_upper then Some (lit "BUY")
  else if any_in sell_keywords line_upper then Some (lit "SELL")
  else None.

Definition val_of (o : option pystr) : pyval :=
  match o with
  | Some w => VStr w
  | None => VNone
  end.

(** [ticker_match.group(1) if ticker_match else None] *)
Definition optional_ticker (line : pystr) : pyval :=
  match re_search ticker_re line with
  | Some ticker_match => val_of (group 1 ticker_match)
  | None => VNone
  end.

(** The stock branch of [_extract_asset_and_type], which the option
    branch falls into when the line has no parenthesised ticker. *)
Definition stock_asset (line : pystr)
    : result (option (pystr * pyval * TradeType)) :=
  match re_search asset_re line with
  | Some asset_match =>
      g <- as_str (group 1 asset_match) ;;
      let asset_name := strip g in
      let ticker := optional_ticker line in
      Ok (Some (asset_name, ticker, STOCK))
  | None => Ok None
  end.

Definition _extract_asset_and_type (line : pystr)
    : result (option (pystr * pyval * TradeType)) :=
  let line_upper := upper line in
  if contains "CALL" line_upper || contains "PUT" line_upper then
    let option_type :=
      if contains "CALL" line_upper then OPTION_CALL else OPTION_PUT in
    match re_search ticker_re line with
    | Some ticker_match =>
        let ticker := val_of (group 1 ticker_match) in
        let asset_name := strip (firstn (m_start ticker_match) line) in
        Ok (Some (asset_name, ticker, option_type))
    | None => stock_asset line
    end
  else stock_asset line.

Definition _extract_amount_range (line : pystr) : pystr :=
  match re_search amount_pat1 line with
  | Some amount_match =>
      if truthy_opt (group 2 amount_match)
      then lit "$" ++ fmt (group 1 amount_match) ++
           lit "-$" ++ fmt (group 2 amount_match)
      else lit "$" ++ fmt (group 1 amount_match)
  | None =>
  match re_search over_re line with
  | Some over_match => lit "Over $" ++ fmt (group 1 over_match)
  | None =>
  match re_search under_re line with
  | Some under_match => lit "Under $" ++ fmt (group 1 under_match)
  | None =>
  match re_search to_re line with
  | Some to_match =>
      lit "$" ++ fmt (group 1 to_match) ++ lit "-$" ++ fmt (group 2 to_match)
  | None => lit "Unknown"
  end end end end.

(** [re.search(r'\b(\d{1,2}/\d{1,2}/\d{4})\b', s)] and its group 1. *)
Definition find_date (s : pystr) : option pystr :=
  match re_search date_search_re s with
  | Some date_match => group 1 date_match
  | None => None
  end.

Fixpoint nearby_date (all_lines : list pystr) (indices : list Z)
    : result pystr :=
  match indices with
  | [] => Ok (lit "Unknown")
  | i :: rest =>
      nearby_line <- getitem all_lines i ;;
      match find_date nearby_line with
      | Some d => Ok d
      | None => nearby_date all_lines rest
      end
  end.

Definition _extract_transaction_date (line : pystr)
    (all_lines : list pystr) (line_index : Z) : result pystr :=
  match find_date line with
  | Some d => Ok d
  | None =>
      nearby_date all_lines
        (range (Z.max 0 (line_index - 2))
               (Z.min (len all_lines) (line_index + 3)))
  end.

Definition filing_keywords : list pystr :=
  lits ["FILING DATE"; "DATE FILED"; "REPORT DATE"].

Fixpoint first_filing_date (lines : list pystr) : pystr :=
  match lines with
  | [] => lit "Unknown"
  | line :: rest =>
      if any_in filing_keywords (upper line) then
        match find_date line with
        | Some d => d
        | None => first_filing_date rest
        end
      else first_filing_date rest
  end.

Definition _extract_filing_date (all_lines : list pystr) : pystr :=
  first_filing_date (firstn 10 all_lines).

(** *** The extractor and the engine *)

Definition heuristic_trade (line : pystr) (all_lines : list pystr)
    (line_index : Z) : result (option trade) :=
  match _extract_action line with
  | None => Ok None
  | Some action =>
      if negb (truthy action) then Ok None else
      trade_info <- _extract_asset_and_type line ;;
      match trade_info with
      | None => Ok None
      | Some (asset_name, ticker, trade_type) =>
          let amount_range := _extract_amount_range line in
          transaction_date <-
            _extract_transaction_date line all_lines line_index ;;
          let filing_date := _extract_filing_date all_lines in
          if truthy asset_name && (2 <? length asset_name) && truthy action
          then
            Ok (Some [("asset_name", VStr asset_name);
                      ("ticker", ticker);
                      ("trade_type", VStr (value trade_type));
                      ("action", VStr action);
                      ("amount_range", VStr amount_range);
                      ("transaction_date", VStr transaction_date);
                      ("filing_date", VStr filing_date);
                      ("raw_line", VStr (strip line))])
          else Ok None
      end
  end.

Definition _parse_trade_line (line : pystr) (all_lines : list pystr)
    (line_index : Z) : result (option trade) :=
  try_except
    (ptr_trade <- _parse_ptr_trade_line line all_lines line_index ;;
     match ptr_trade with
     | Some t => Ok (Some t)
     | None => heuristic_trade line all_lines line_index
     end)
    (fun _ => Ok None).

(** The loop of [_parse_text_for_trades] from line number [i] on. *)
Fixpoint scan (lines : list pystr) (i : Z) (rest : list pystr)
    : result (list trade) :=
  match rest with
  | [] => Ok []
  | line :: rest' =>
      if _is_trade_line line then
        t <- _parse_trade_line line lines i ;;
        more <- scan lines (i + 1) rest' ;;
        Ok (match t with Some tr => tr :: more | None => more end)
      else scan lines (i + 1) rest'
  end.

Definition parse_lines (lines : list pystr) : result (list trade) :=
  scan lines 0 lines.

Definition _parse_text_for_trades (text : pystr) : result (list trade) :=
  parse_lines (split_lines text).

(** ** What a pattern denotes

    [Den r b w s g g']: with [b] before the cursor (nearest first) and
    [w ++ s] after it, the pattern [r] can consume exactly [w], turning
    the captures [g] into [g'].  The matcher only ever succeeds along
    such a derivation ([run_sound]). *)

Definition den := list ascii -> pystr -> pystr -> caps -> caps -> Prop.

Fixpoint Iter (D : den) (n : nat) : den :=
  fun b w s g g' =>
    match n with
    | 0 => w = [] /\ g' = g
    | S n' =>
        exists w1 w2 g1,
          w = w1 ++ w2 /\ D b w1 (w2 ++ s) g g1 /\
          Iter D n' (rev w1 ++ b) w2 s g1 g'
    end.

(** The iteration counts [{lo,hi}] allows. *)
Definition capped (lo : nat) (hi : option nat) (n : nat) : Prop :=
  match hi with Some h => n <= Nat.max lo h | None => True end.

Definition within (lo : nat) (hi : option nat) (n : nat) : Prop :=
  lo <= n /\ capped lo hi n.

Fixpoint Den (r : regex) : den :=
  fun b w s g g' =>
    match r with
    | Eps => w = [] /\ g' = g
    | Chr p => exists a, w = [a] /\ p a = true /\ g' = g
    | Seq r1 r2 =>
        exists w1 w2 g1,
          w = w1 ++ w2 /\ Den r1 b w1 (w2 ++ s) g g1 /\
          Den r2 (rev w1 ++ b) w2 s g1 g'
    | Rep lo hi _ r1 => exists n, within lo hi n /\ Iter (Den r1) n b w s g g'
    | Grp i r1 => exists g1, Den r1 b w s g g1 /\ g' = (i, w) :: g1
    | WordB => w = [] /\ g' = g /\ at_word_boundary (Cursor b s) = true
    end.

Fixpoint has_groups (r : regex) : bool :=
  match r with
  | Eps | Chr _ | WordB => false
  | Seq r1 r2 => has_groups r1 || has_groups r2
  | Rep _ _ _ r1 => has_groups r1
  | Grp _ _ => true
  end.

(** ** Well-formed records *)

(** One to five capital letters. *)
Definition is_ticker (w : pystr) : bool :=
  (1 <=? length w) && (length w <=? 5) && forallb is_AZ w.

(** The ticker of a record: a symbol, or no ticker at all, which the
    lead-token shape without ticker writes ['N/A'] and the heuristic
    path writes [None]. *)
Definition ticker_ok (v : pyval) : bool :=
  match v with
  | VNone => true
  | VStr w => str_eqb w "N/A" || is_ticker w
  end.



(** [w] is [i] digits, a slash, [j] digits, a slash and four digits. *)
Definition date_layout (i j : nat) (w : pystr) : bool :=
  (length w =? i + j + 6) &&
  forallb is_digit (firstn i w) &&
  startswith "/" (skipn i w) &&
  forallb is_digit (firstn j (skipn (i + 1) w)) &&
  startswith "/" (skipn (i + 1 + j) w) &&
  forallb is_digit (skipn (i + j + 2) w).

(** A date as the parser reads one: month and day of one or two digits,
    year of four. *)
Definition is_date_string (w : pystr) : bool :=
  date_layout 1 1 w || date_layout 1 2 w ||
  date_layout 2 1 w || date_layout 2 2 w.

Definition date_or_unknown (w : pystr) : bool :=
  is_date_string w || str_eqb w "Unknown".

Definition head_is (p : ascii -> bool) (w : pystr) : bool :=
  match w with a :: _ => p a | [] => false end.

Definition is_action (w : pystr) : bool :=
  str_eqb w "BUY" || str_eqb w "SELL".

(** A field holding a string with a property. *)
Definition str_field (k : string) (P : pystr -> bool) (t : trade) : bool :=
  match field k t with
  | Some (VStr w) => P w
  | _ => false
  end.





(** The dict of a structural shape, and what its fields hold. *)
Definition structural_form (t : trade) : Prop :=
  exists asset_name ticker trade_type action amount tdate ndate
         description raw,
    t = [("asset_name", VStr asset_name);
         ("ticker", VStr ticker);
         ("trade_type", VStr trade_type);
         ("action", VStr action);
         ("amount_range", VStr amount);
         ("transaction_date", VStr tdate);
         ("notification_date", VStr ndate);
         ("description", VStr description);
         ("raw_line", VStr raw)] /\
    truthy asset_name = true /\ ticker_ok (VStr ticker) = true /\
    is_action action = true /\ head_is (Ascii.eqb "$") amount = true /\
    is_date_string tdate = true /\ is_date_string ndate = true.

(** The dict of the heuristic fallback, and what its fields hold. *)
Definition heuristic_form (line : pystr) (all_lines : list pystr)
    (t : trade) : Prop :=
  exists asset_name ticker trade_type action tdate,
    t = [("asset_name", VStr asset_name);
         ("ticker", ticker);
         ("trade_type", VStr trade_type);
         ("action", VStr action);
         ("amount_range", VStr (_extract_amount_range line));
         ("transaction_date", VStr tdate);
         ("filing_date", VStr (_extract_filing_date all_lines));
         ("raw_line", VStr (strip line))] /\
    2 < length asset_name /\ ticker_ok ticker = true /\
    is_action action = true /\ date_or_unknown tdate = true /\
    _extract_action line = Some action.

(** ** The documents of the examples *)

(** Lines joined by line feeds, as the text provider hands them over. *)
Definition document (lines : list pystr) : pystr := join ["010"%char] lines.

Definition acme_corp_line : pystr :=
  "SP ACME CORP P 01/02/2024 01/10/2024 $15,001 -".
Definition acme_inc_line : pystr :=
  "SP ACME INC P 01/02/2024 01/10/2024 $15,001 -".
Definition ot_line : pystr := "[OT] $50,000".

Definition amazon_line : pystr :=
  "AMAZON.COM INC (AMZN) S 02/01/2024 02/03/2024 $50,001-$100,000".

Definition widget_line : pystr :=
  "SP WIDGET CO P 03/01/2024 03/05/2024 $1,001 -".
Definition widget_whole_line : pystr :=
  "SP WIDGET CO P 03/01/2024 03/05/2024 $1,001".
Definition wdg_line : pystr := "(WDG) $15,000".

(** The field [k] of [t] is the string [w]. *)
Definition field_is (k : string) (w : pystr) (t : trade) : Prop :=
  field k t = Some (VStr w).

Definition asset_sale_line : pystr :=
  "ASSET SALE (AB) P 01/02/2024 01/10/2024 $1".
Definition total_line : pystr := "TOTAL PURCHASES OF STOCK".
Definition apple_line : pystr := "Purchase of APPLE INC shares".
Definition apple_over_line : pystr :=
  "Purchase of APPLE INC shares Over $1,000,000".
Definition sp_foo_line : pystr := "SP FOO (AB) S 01/02/2024 01/10/2024 $1".
Definition sp_fund_line : pystr :=
  "SP GOVERNMENT MONEY FUND S 01/01/2024 01/02/2024 $1,001 -".

(** The line matches one of the three shapes of the classifier. *)
Definition structural_line (line : pystr) : bool :=
  matched (re_search ptr_pattern1 line) ||
  matched (re_search ptr_pattern2 line) ||
  matched (re_search ptr_pattern3 line).

(** The line reads TOTAL or ASSET, in any case. *)
Definition total_or_asset (line : pystr) : bool :=
  contains "TOTAL" (upper line) || contains "ASSET" (upper line).

Definition widget_record : trade :=
  [("asset_name", VStr "WIDGET CO");
   ("ticker", VStr "WDG");
   ("trade_type", VStr "stock");
   ("action", VStr "BUY");
   ("amount_range", VStr "$1,001 - $15,000");
   ("transaction_date", VStr "03/01/2024");
   ("notification_date", VStr "03/05/2024");
   ("description", VStr "");
   ("raw_line", VStr widget_line)].

Definition apple_record : trade :=
  [("asset_name", VStr "APPLE INC");
   ("ticker", VNone);
   ("trade_type", VStr "stock");
   ("action", VStr "BUY");
   ("amount_range", VStr "Unknown");
   ("transaction_date", VStr "Unknown");
   ("filing_date", VStr "Unknown");
   ("raw_line", VStr apple_line)].

(** ** The description of an option trade, in words *)

(** At most nine lines, from the one after [line_index]. *)
Definition window (all_lines : list pystr) (line_index : Z) : list pystr :=
  firstn 9 (skipn (Z.to_nat (line_index + 1)) all_lines).

Fixpoint from_first_D (ls : list pystr) : list pystr :=
  match ls with
  | [] => []
  | l :: rest => if startswith "D:" l then l :: rest else from_first_D rest
  end.

Fixpoint until_marker (ls : list pystr) : list pystr :=
  match ls with
  | [] => []
  | l :: rest =>
      if startswith "SP " l || startswith "L:" l then []
      else l :: until_marker rest
  end.

(** The description as the specification words it: the remainder of the first
    [D:] line, then every following line as it is but for its null bytes,
    up to a line that starts with [SP ] or [L:]; joined by single
    spaces; empty without a [D:] line in the window. *)
Definition claimed_description (all_lines : list pystr) (line_index : Z)
    : pystr :=
  match from_first_D (window all_lines line_index) with
  | [] => []
  | d :: rest =>
      join " " (skipn 2 d :: map remove_nul (until_marker rest))
  end.

(** The description as the code builds it.  Every line of the window is
    first trimmed ([clean]); the lines before the first [D:] line are
    passed over, unless one of them starts with [SP ], which ends the
    scan with nothing; from the first [D:] line on, a line that starts
    with [D:] gives its trimmed remainder, a line that starts with [SP ]
    or [L:] ends the block, and any other line is taken as it is. *)
Definition clean (l : pystr) : pystr := strip (remove_nul (strip l)).

Definition fragment (l : pystr) : pystr :=
  if startswith "D:" l then strip (skipn 2 l) else l.

Fixpoint reach_block (ls : list pystr) : list pystr :=
  match ls with
  | [] => []
  | l :: rest =>
      if startswith "D:" l then l :: rest
      else if startswith "SP " l then []
      else reach_block rest
  end.

Fixpoint block (ls : list pystr) : list pystr :=
  match ls with
  | [] => []
  | l :: rest =>
      if startswith "D:" l then l :: block rest
      else if startswith "SP " l || startswith "L:" l then []
      else l :: block rest
  end.

Definition description_spec (all_lines : list pystr) (line_index : Z)
    : pystr :=
  let lines := map clean (window all_lines line_index) in
  join " " (map fragment (block (reach_block lines))).

(** The loop of [description_loop] once the lines it reads are at hand. *)
Fixpoint loop_over (lines : list pystr) (description_parts : list pystr)
    (found_d_line : bool) : list pystr :=
  match lines with
  | [] => description_parts
  | raw :: rest =>
      let cleaned_line := clean raw in
      if startswith "D:" cleaned_line then
        loop_over rest (description_parts ++ [strip (skipn 2 cleaned_line)])
                  true
      else if found_d_line then
        if startswith "SP " cleaned_line || startswith "L:" cleaned_line
        then description_parts
        else loop_over rest (description_parts ++ [cleaned_line]) found_d_line
      else if startswith "SP " cleaned_line then description_parts
      else loop_over rest description_parts found_d_line
  end.

Definition option_lines : list pystr :=
  lits ["SP NVIDIA CORP (NVDA) [OP] S 01/02/2024 01/10/2024 $1,001 -";
        "F S: New";
        "D:Sold 50 call options";
        "D:with a strike of 100";
        "L: Speaker"].

(** Every pattern of the parser. *)
Definition source_patterns : list regex :=
  [ptr_pattern1; ptr_pattern2; ptr_pattern3; pattern; pattern2; pattern3;
   ticker_re; dollar_re; asset_re; date_search_re; amount_pat1; over_re;
   under_re; to_re].

Definition agree_below (n : nat) (k1 k2 : cont) : Prop :=
  forall c g, length (after c) <= n -> k1 c g = k2 c g.

Definition agree_under (n : nat) (k1 k2 : cont) : Prop :=
  forall c g, length (after c) < n -> k1 c g = k2 c g.

(** A line of the lead-token shape whose range is whole, and a next line
    with the ticker and another dollar token. *)
Definition widget_range_line : pystr :=
  "SP WIDGET CO P 03/01/2024 03/05/2024 $1,001 - $15,000".
Definition wdg_nine_line : pystr := "(WDG) $9".

(** The single-line form of the same trade, and a next line with a
    dollar token. *)
Definition widget_single_line : pystr :=
  "WIDGET CO (WDG) P 03/01/2024 03/05/2024 $1,001".
Definition dollar_line : pystr := "$15,000".

(** ** Patterns without their groups *)

(** The pattern with its groups opened: it matches where the pattern
    does and captures nothing. *)
Fixpoint erase (r : regex) : regex :=
  match r with
  | Eps => Eps
  | Chr p => Chr p
  | Seq r1 r2 => Seq (erase r1) (erase r2)
  | Rep lo hi greedy r1 => Rep lo hi greedy (erase r1)
  | Grp _ r1 => erase r1
  | WordB => WordB
  end.

Definition succeeds {A} (o : option A) : bool :=
  match o with Some _ => true | None => false end.

(** ** The rest of [pdf_parser.py] *)

Definition _determine_trade_type_from_context (asset_name context : pystr)
    : TradeType :=
  let context_upper := upper context in
  if any_in option_keywords context_upper then
    if contains "CALL" context_upper then OPTION_CALL
    else if contains "PUT" context_upper then OPTION_PUT
    else OPTION_CALL
  else STOCK.

(** The line of a trade and the four after it. *)
Definition context_window (all_lines : list pystr) (line_index : Z)
    : list pystr :=
  firstn 5 (skipn (Z.to_nat line_index) all_lines).

(** Some line reads [keyword], in any case. *)
Definition some_line_has (keyword : pystr) (lines : list pystr) : bool :=
  existsb (fun l => contains keyword (upper l)) lines.

(** [l1] is [l2] with some elements left out. *)
Inductive subseq {A : Type} : list A -> list A -> Prop :=
| subseq_nil : subseq [] []
| subseq_skip a l1 l2 : subseq l1 l2 -> subseq l1 (a :: l2)
| subseq_take a l1 l2 : subseq l1 l2 -> subseq (a :: l1) (a :: l2).

(** The first date token of the first line that has one. *)
Fixpoint first_date (lines : list pystr) : pystr :=
  match lines with
  | [] => lit "Unknown"
  | l :: rest =>
      match find_date l with
      | Some d => d
      | None => first_date rest
      end
  end.

(** The lines from two before [line_index] to two after it that exist. *)
Definition date_window (all_lines : list pystr) (line_index : Z)
    : list pystr :=
  let lo := Z.max 0 (line_index - 2) in
  firstn (Z.to_nat (line_index + 3 - lo)) (skipn (Z.to_nat lo) all_lines).

Definition has_filing_keyword (l : pystr) : bool :=
  any_in filing_keywords (upper l).

Definition capital_or_space (a : ascii) : bool := is_AZ a || is_space a.

(** Every class of the pattern is within [P]. *)
Fixpoint classes_within (P : ascii -> bool) (r : regex) : Prop :=
  match r with
  | Eps | WordB => True
  | Chr p => forall a, p a = true -> P a = true
  | Seq r1 r2 => classes_within P r1 /\ classes_within P r2
  | Rep _ _ _ r1 => classes_within P r1
  | Grp _ r1 => classes_within P r1
  end.

(** *** The text of the document

    [extract_trades] asks the file system whether the path exists and
    the PDF library for the text of each page; both are inputs here:
    [path_exists], and [pages], the value of [page.extract_text()] for
    each page ([None] for a page without text), or the exception the
    library raised. *)

(** [if page_text: text += page_text + "\n"] *)
Definition add_page (text : pystr) (page_text : option pystr) : pystr :=
  match page_text with
  | Some (a :: w) => text ++ (a :: w) ++ lit (String "010" EmptyString)
  | _ => text
  end.

Definition page_texts (pages : list (option pystr)) : pystr :=
  fold_left add_page pages [].

Definition extract_trades (path_exists : bool)
    (pages : result (list (option pystr))) : list trade :=
  match
    (if negb path_exists then Ok []
     else
       pdf_pages <- pages ;;
       let text := page_texts pdf_pages in
       if negb (truthy (strip text)) then Ok []
       else _parse_text_for_trades text)
  with
  | Ok trades => trades
  | Raise _ => []
  end.

(** The texts of the pages that have some. *)
Fixpoint printed (pages : list (option pystr)) : list pystr :=
  match pages with
  | [] => []
  | Some (a :: w) :: rest => (a :: w) :: printed rest
  | _ :: rest => printed rest
  end.

(** ** The readers of a record

    The code that reads a record looks keys up ([trade[k]] raises
    [KeyError] on a key that is absent, [trade.get(k)] gives [None]),
    calls string methods on the values (on [None] that raises
    [AttributeError]) and converts text to numbers ([ValueError]). *)

Module Reader.

Inductive error :=
| KeyError (key : string)
| ValueError
| NoAttribute (name : string).

Inductive outcome (A : Type) :=
| Returns (a : A)
| Fails (e : error).
Arguments Returns {A} a.
Arguments Fails {A} e.

Definition and_then {A B} (m : outcome A) (k : A -> outcome B) : outcome B :=
  match m with
  | Returns a => k a
  | Fails e => Fails e
  end.

(** [trade[k]] *)
Definition item (t : trade) (k : string) : outcome pyval :=
  match field k t with
  | Some v => Returns v
  | None => Fails (KeyError k)
  end.

(** [trade.get(k)] *)
Definition get (t : trade) (k : string) : pyval :=
  match field k t with
  | Some v => v
  | None => VNone
  end.

(** [trade.get(k, default)] *)
Definition get_or (t : trade) (k : string) (default : pyval) : pyval :=
  match field k t with
  | Some v => v
  | None => default
  end.

(** The truth of a value: [None] and the empty string are false. *)
Definition truth (v : pyval) : bool :=
  match v with
  | VStr w => truthy w
  | VNone => false
  end.

(** A value inside an f-string. *)
Definition show (v : pyval) : pystr :=
  match v with
  | VStr w => w
  | VNone => lit "None"
  end.

(** [v.name()] for a method of strings. *)
Definition method (name : string) (f : pystr -> pystr) (v : pyval)
    : outcome pystr :=
  match v with
  | VStr w => Returns (f w)
  | VNone => Fails (NoAttribute name)
  end.

End Reader.

Export Reader.

Notation "'let*' x ':=' m 'in' k" := (and_then m (fun x => k))
  (at level 10, x name, m at level 100, k at level 200).

(** [f" ({trade['ticker']})" if trade.get('ticker') else ""] *)
Definition ticker_info (t : trade) : outcome pystr :=
  if truth (get t "ticker") then
    let* ticker := item t "ticker" in
    Returns (lit " (" ++ show ticker ++ lit ")")
  else Returns [].

Definition format_trade_for_display (t : trade) : outcome pystr :=
  let* ticker_info := ticker_info t in
  let* action := item t "action" in
  let* trade_type := item t "trade_type" in
  let* trade_type_upper := method "upper" upper trade_type in
  let* asset_name := item t "asset_name" in
  let* amount_range := item t "amount_range" in
  let* transaction_date := item t "transaction_date" in
  Returns (show action ++ lit " " ++ trade_type_upper ++ lit " - " ++
           show asset_name ++ ticker_info ++ lit " - " ++
           show amount_range ++ lit " - " ++ show transaction_date).

(** The ticker of a record between brackets, if it has one. *)
Definition bracketed_ticker (t : trade) : pystr :=
  match field "ticker" t with
  | Some (VStr (a :: w)) => lit " (" ++ (a :: w) ++ lit ")"
  | _ => []
  end.

(** ** The notifier (discord_notifier.py)

    [_format_amount_range] and [_format_trade_message] read the
    records of the engine.  The built-ins they use are embedded for
    ASCII text as before: [str.replace] of a character by nothing,
    [str.split] on a separator, the unpacking of a list into two
    names, [int] of a string, [str] of an integer, and [str.title]. *)

(** [s.replace(c, '')] for a character [c] *)
Definition remove_char (c : ascii) (s : pystr) : pystr :=
  filter (fun a => negb (Ascii.eqb a c)) s.

(** [s.split(sep)] for a separator that is not empty: the pieces
    between the occurrences of [sep], found from left to right, no
    two of them overlapping.  [skip] counts the characters of the
    occurrence just found that are still to be passed. *)
Fixpoint split_acc (sep cur : pystr) (skip : nat) (s : pystr)
    : list pystr :=
  match s with
  | [] => [rev cur]
  | a :: s' =>
      match skip with
      | S k => split_acc sep cur k s'
      | 0 =>
          if startswith sep s
          then rev cur :: split_acc sep [] (length sep - 1) s'
          else split_acc sep (a :: cur) 0 s'
      end
  end.

Definition split (sep s : pystr) : list pystr := split_acc sep [] 0 s.

(** [a, b = pieces]: any number of pieces but two is a [ValueError]. *)
Definition unpack2 {A} (pieces : list A) : outcome (A * A) :=
  match pieces with
  | [a; b] => Returns (a, b)
  | _ => Fails ValueError
  end.

(** The whitespace [int] passes over at both ends of its argument:
    TAB, LF, VT, FF, CR and space. *)
Definition is_int_space (a : ascii) : bool :=
  ((9 <=? code a)%N && (code a <=? 13)%N) || (code a =? 32)%N.

Fixpoint skip_int_space (s : pystr) : pystr :=
  match s with
  | a :: s' => if is_int_space a then skip_int_space s' else s
  | [] => []
  end.

Definition int_trim (s : pystr) : pystr :=
  rev (skip_int_space (rev (skip_int_space s))).

Definition digit_value (a : ascii) : Z := Z.of_N (code a) - 48.

(** Decimal digits, with single underscores allowed between two of
    them. *)
Fixpoint int_digits (acc : Z) (after_digit : bool) (s : pystr)
    : option Z :=
  match s with
  | [] => if after_digit then Some acc else None
  | a :: s' =>
      if is_digit a then int_digits (acc * 10 + digit_value a) true s'
      else if Ascii.eqb a "_" then
        if after_digit then int_digits acc false s' else None
      else None
  end.

Definition count_digits (s : pystr) : nat := length (filter is_digit s).

(** The longest decimal numeral [int] converts. *)
Definition max_str_digits : nat := 4300.

(** [int(s)]: whitespace at the ends, a sign, and digits. *)
Definition int_of_str (s : pystr) : outcome Z :=
  let convert (negative : bool) (digits : pystr) :=
    if max_str_digits <? count_digits digits then Fails ValueError
    else
      match int_digits 0 false digits with
      | Some n => Returns (if negative then - n else n)%Z
      | None => Fails ValueError
      end in
  match int_trim s with
  | sign :: digits =>
      if Ascii.eqb sign "-" then convert true digits
      else if Ascii.eqb sign "+" then convert false digits
      else convert false (sign :: digits)
  | [] => convert false []
  end.

(** [str(n)] *)
Definition str_of_int (n : Z) : pystr :=
  lit (DecimalString.NilZero.string_of_int (Z.to_int n)).

(** The local function [format_amount]. *)
Definition format_amount (val : Z) : pystr :=
  if (1000000 <=? val)%Z then str_of_int (val / 1000000) ++ lit "M"
  else if (1000 <=? val)%Z then str_of_int (val / 1000) ++ lit "K"
  else str_of_int val.

(** [try: body except (ValueError, IndexError): handler]; nothing in
    the bodies below indexes a list. *)
Definition except_value_error {A} (body handler : outcome A) : outcome A :=
  match body with
  | Fails ValueError => handler
  | r => r
  end.

Definition abbreviated (min_val max_val : Z) : pystr :=
  lit "$" ++ format_amount min_val ++ lit "-$" ++ format_amount max_val.

(** [clean_amount] *)
Definition clean_amount (amount_range : pystr) : pystr :=
  strip (remove_char "," (remove_char "$" amount_range)).

Definition _format_amount_range (amount_range : pyval) : outcome pystr :=
  let convert (pieces : list pystr) :=
    let* pair := unpack2 pieces in
    let min_str := fst pair in
    let max_str := snd pair in
    let* min_val := int_of_str (strip min_str) in
    let* max_val := int_of_str (strip max_str) in
    Returns (abbreviated min_val max_val) in
  except_value_error
    (let* clean_amount := method "replace" clean_amount amount_range in
     if contains " - " clean_amount
     then convert (split " - " clean_amount)
     else if contains "-" clean_amount
     then convert (split "-" clean_amount)
     else Returns (show amount_range))
    (Returns (show amount_range)).

(** The number a run of digits and commas stands for. *)
Definition number (digits : pystr) : Z :=
  fold_left (fun acc a => acc * 10 + digit_value a)%Z digits 0%Z.

Definition amount_value (d : pystr) : Z := number (remove_char "," d).

Definition lower_char (a : ascii) : ascii :=
  if is_AZ a then ascii_of_N (code a + 32) else a.

(** [s.title()]: a letter is a capital after a character that is no
    letter and at the start, and small after a letter. *)
Fixpoint title_from (previous_is_cased : bool) (s : pystr) : pystr :=
  match s with
  | [] => []
  | a :: s' =>
      (if previous_is_cased then lower_char a else upper_char a)
      :: title_from (is_AZ a || is_az a) s'
  end.

Definition str_title (s : pystr) : pystr := title_from false s.

(** [v == w] for a string [w] *)
Definition is_str (v : pyval) (w : pystr) : bool :=
  match v with
  | VStr s => str_eqb s w
  | VNone => false
  end.

(** An entry of the [fields] list of an embed. *)
Record embed_field := {
  f_name : pystr;
  f_value : pyval;
  f_inline : bool
}.

(** The message of [_format_trade_message]: the embed without its
    constant entries ([username], [avatar_url], [footer]). *)
Record message := {
  msg_title : pystr;
  msg_color : Z;
  msg_fields : list embed_field;
  msg_timestamp : pystr
}.

(** [emoji] is the megaphone of the title and [now] the value of
    [datetime.utcnow().isoformat()]. *)
Definition _format_trade_message (emoji now : pystr) (t : trade)
    (filing_url : pystr) : outcome message :=
  let* action_value := item t "action" in
  let* action := method "upper" upper action_value in
  let* trade_type := item t "trade_type" in
  let shown :=
    if is_str trade_type "option_call"
    then (lit "Option Trade (**CALL**)", 0x800080%Z)
    else if is_str trade_type "option_put"
    then (lit "Option Trade (**PUT**)", 0x800080%Z)
    else (lit "Stock Trade",
          if str_eqb action "BUY" then 0x00ff00%Z
          else if str_eqb action "SELL" then 0xff8000%Z
          else 0x0099ff%Z) in
  let trade_type_display := fst shown in
  let color := snd shown in
  let* ticker_info := ticker_info t in
  let* asset_name := item t "asset_name" in
  let* type_title := method "title" str_title trade_type in
  let* amount_range := item t "amount_range" in
  let* amount := _format_amount_range amount_range in
  let* transaction_date := item t "transaction_date" in
  let fields :=
    [ {| f_name := "Stock";
         f_value := VStr (show asset_name ++ ticker_info);
         f_inline := true |};
      {| f_name := "Type"; f_value := VStr type_title; f_inline := true |};
      {| f_name := "Action";
         f_value := VStr (lit "**" ++ show action_value ++ lit "**");
         f_inline := true |};
      {| f_name := "Amount"; f_value := VStr amount; f_inline := true |};
      {| f_name := "Date"; f_value := transaction_date; f_inline := true |};
      {| f_name := "PDF";
         f_value := VStr (lit "[View Filing](" ++ filing_url ++ lit ")");
         f_inline := true |} ] in
  let* fields :=
    (if truth (get t "description") &&
        (is_str trade_type "option_call" || is_str trade_type "option_put")
     then
       let* description := item t "description" in
       Returns (fields ++ [ {| f_name := "Option Details";
                               f_value := description;
                               f_inline := false |} ])
     else Returns fields) in
  let politician_name :=
    get_or t "politician_full_name" (VStr "Unknown Politician") in
  Returns {| msg_title := emoji ++ lit " " ++ show politician_name ++
                          lit " " ++ trade_type_display ++ lit "!";
             msg_color := color;
             msg_fields := fields;
             msg_timestamp := now |}.

(** [trade[k] = v] (multi_politician_tracker.py tags every record of
    [extract_trades] with [politician_name] and
    [politician_full_name] this way). *)
Fixpoint set_item (k : string) (v : pyval) (t : trade) : trade :=
  match t with
  | [] => [(k, v)]
  | (k', v') :: t' =>
      if String.eqb k k' then (k, v) :: t'
      else (k', v') :: set_item k v t'
  end.

Definition tagged (name full_name : pystr) (t : trade) : trade :=
  set_item "politician_full_name" (VStr full_name)
    (set_item "politician_name" (VStr name) t).

(** The colour and the heading of a trade of a kind. *)
Definition colour_of (kind : TradeType) (action : pystr) : Z :=
  if is_option kind then 0x800080%Z
  else if str_eqb action "BUY" then 0x00ff00%Z else 0xff8000%Z.

Definition heading_of (kind : TradeType) : pystr :=
  match kind with
  | STOCK => "Stock Trade"
  | OPTION_CALL => "Option Trade (**CALL**)"
  | OPTION_PUT => "Option Trade (**PUT**)"
  end.

Definition field_names (kind : TradeType) (t : trade) : list pystr :=
  lits ["Stock"; "Type"; "Action"; "Amount"; "Date"; "PDF"] ++
  (if is_option kind && truth (get t "description")
   then lits ["Option Details"] else []).

(** Lines of a header: a filing keyword without a date, a date without
    a filing keyword, and two lines with both. *)
Definition filed_line : pystr := "Date Filed: 01/15/2024".
Definition report_line : pystr := "Report Date: 02/02/2024".
Definition header_lines : list pystr :=
  lits ["FILING DATE pending"; "Traded 03/03/2024"] ++
  [filed_line; report_line].

(** The ticker [tk] stands between brackets right after the first [k]
    characters of [line]. *)
Definition ticker_at (line : pystr) (k : nat) (tk : pystr) : Prop :=
  is_ticker tk = true /\
  exists pre post,
    line = pre ++ lit "(" ++ tk ++ lit ")" ++ post /\ length pre = k.

(** [v] is the first parenthesised ticker of [line], and [None] when the
    line has none. *)
Definition first_ticker (line : pystr) (v : pyval) : Prop :=
  match v with
  | VStr tk =>
      exists k,
        ticker_at line k tk /\
        forall k' tk', ticker_at line k' tk' -> k <= k'
  | VNone => forall k tk, ~ ticker_at line k tk
  end.

Definition apple_ticker_line : pystr := "Purchase of APPLE INC (AAPL) shares".
Definition amazon_call_line : pystr := "Bought AMAZON.COM INC (AMZN) - CALL".

(** * Properties *)

(** ** The matcher follows the denotation *)

Lemma slice_consumed b w s :
  slice (Cursor b (w ++ s)) (Cursor (rev w ++ b) s) = w.
Proof.
  unfold slice; cbn [before].
  rewrite length_app, length_rev, Nat.add_sub.
  rewrite <- (length_rev w), firstn_app, Nat.sub_diag, firstn_all.
  cbn [firstn]. rewrite app_nil_r. apply rev_involutive.
Qed.

Section RepLoop.

Variable r1 : regex.
Variable k : cont.
Variables (lo : nat) (hi : option nat) (greedy : bool).

Hypothesis body_sound : forall b s g k' res,
  run r1 (Cursor b s) g k' = Some res ->
  exists w s' g',
    s = w ++ s' /\ Den r1 b w s' g g' /\
    k' (Cursor (rev w ++ b) s') g' = Some res.

Lemma rep_loop_sound fuel : forall n b s g res,
  capped lo hi n ->
  rep_loop (run r1) k lo hi greedy fuel n (Cursor b s) g = Some res ->
  exists m w s' g',
    s = w ++ s' /\ Iter (Den r1) m b w s' g g' /\ within lo hi (n + m) /\
    k (Cursor (rev w ++ b) s') g' = Some res.
Proof.
  assert (stop : forall n b s g res, capped lo hi n -> lo <= n ->
    k (Cursor b s) g = Some res ->
    exists m w s' g',
      s = w ++ s' /\ Iter (Den r1) m b w s' g g' /\ within lo hi (n + m) /\
      k (Cursor (rev w ++ b) s') g' = Some res).
  { intros n b s g res Hb Hlo Hk. exists 0, [], s, g.
    rewrite Nat.add_0_r. cbn. repeat split; auto. }
  induction fuel as [|fuel IH]; intros n b s g res Hb H; cbn [rep_loop] in H.
  - destruct (Nat.leb_spec lo n); [| discriminate]. now apply stop.
  - assert (more : capped lo hi (S n) ->
      run r1 (Cursor b s) g (rep_loop (run r1) k lo hi greedy fuel (S n))
        = Some res ->
      exists m w s' g',
        s = w ++ s' /\ Iter (Den r1) m b w s' g g' /\ within lo hi (n + m) /\
        k (Cursor (rev w ++ b) s') g' = Some res).
    { intros Hb' Hrun.
      destruct (body_sound _ _ _ _ _ Hrun) as (w1 & s1 & g1 & -> & D1 & Hk).
      destruct (IH _ _ _ _ _ Hb' Hk) as (m & w2 & s2 & g2 & -> & It & Hw & Hk2).
      exists (S m), (w1 ++ w2), s2, g2.
      rewrite <- app_assoc, rev_app_distr, <- app_assoc, Nat.add_succ_r.
      repeat split; auto; try apply Hw.
      cbn [Iter]. exists w1, w2, g1. auto. }
    destruct (Nat.ltb_spec n lo) as [Hlt|Hge].
    + apply more; auto.
      unfold capped in *. destruct hi; auto. lia.
    + unfold below in H. unfold capped in *.
      destruct hi as [h|]; cbn [negb] in H.
      * destruct (Nat.ltb_spec n h) as [Hnh|Hnh]; cbn [negb] in H.
        -- destruct greedy.
           ++ destruct (run r1 _ _ _) eqn:E in H.
              ** inversion H; subst. apply more; [lia | exact E].
              ** now apply stop.
           ++ destruct (k (Cursor b s) g) eqn:E in H.
              ** inversion H; subst. now apply stop.
              ** apply more; [lia | exact H].
        -- now apply stop.
      * destruct greedy.
        -- destruct (run r1 _ _ _) eqn:E in H.
           ++ inversion H; subst. apply more; [exact I | exact E].
           ++ now apply stop.
        -- destruct (k (Cursor b s) g) eqn:E in H.
           ++ inversion H; subst. now apply stop.
           ++ apply more; [exact I | exact H].
Qed.

End RepLoop.

Lemma run_sound r : forall b s g k res,
  run r (Cursor b s) g k = Some res ->
  exists w s' g',
    s = w ++ s' /\ Den r b w s' g g' /\
    k (Cursor (rev w ++ b) s') g' = Some res.
Proof.
  induction r as [|p|r1 IH1 r2 IH2|lo hi gr r1 IH1|i r1 IH1|];
    intros b s g k res H; cbn [run after before] in H.
  - exists [], s, g. cbn. auto.
  - destruct s as [|a s]; [discriminate|].
    destruct (p a) eqn:Hp; [|discriminate].
    exists [a], s, g. cbn. repeat split; eauto.
  - destruct (IH1 _ _ _ _ _ H) as (w1 & s1 & g1 & -> & D1 & H1).
    destruct (IH2 _ _ _ _ _ H1) as (w2 & s2 & g2 & -> & D2 & H2).
    exists (w1 ++ w2), s2, g2.
    rewrite <- app_assoc, rev_app_distr, <- app_assoc.
    repeat split; auto. cbn [Den]. exists w1, w2, g1. auto.
  - assert (Hb : capped lo hi 0) by (destruct hi; cbn; auto; lia).
    destruct (@rep_loop_sound r1 k lo hi gr IH1 (length s) 0 b s g res Hb H)
      as (m & w & s' & g' & -> & It & Hw & Hk).
    exists w, s', g'. repeat split; auto. cbn [Den]. exists m. auto.
  - destruct (IH1 _ _ _ _ _ H) as (w & s' & g' & -> & D & Hk).
    rewrite slice_consumed in Hk.
    exists w, s', ((i, w) :: g'). repeat split; auto. cbn [Den]. eauto.
  - destruct (at_word_boundary (Cursor b s)) eqn:E; [|discriminate].
    exists [], s, g. cbn. auto.
Qed.


Lemma search_from_sound r : forall s b m,
  search_from r b s = Some m ->
  exists pre w post,
    s = pre ++ w ++ post /\
    Den r (rev pre ++ b) w post [] (m_caps m) /\
    m_start m = length b + length pre.
Proof.
  induction s as [|a s IH]; intros b m H; cbn [search_from] in H;
    unfold match_at in H.
  - destruct (run r (Cursor b []) [] accept) as [[c' g]|] eqn:E;
      [|discriminate].
    inversion H; subst; clear H.
    destruct (run_sound _ _ _ _ _ _ E) as (w & s' & g' & Hs & D & Hk).
    unfold accept in Hk. inversion Hk; subst.
    exists [], w, s'. cbn. rewrite Nat.add_0_r. auto.
  - destruct (run r (Cursor b (a :: s)) [] accept) as [[c' g]|] eqn:E.
    + inversion H; subst; clear H.
      destruct (run_sound _ _ _ _ _ _ E) as (w & s' & g' & Hs & D & Hk).
      unfold accept in Hk. inversion Hk; subst.
      exists [], w, s'. cbn. rewrite Nat.add_0_r. auto.
    + destruct (IH _ _ H) as (pre & w & post & -> & D & Hst).
      exists (a :: pre), w, post. cbn [rev length app].
      rewrite <- app_assoc. cbn [app] in *.
      repeat split; auto. rewrite Hst. cbn [length]. lia.
Qed.

Lemma re_search_sound r s m :
  re_search r s = Some m ->
  exists pre w post,
    s = pre ++ w ++ post /\
    Den r (rev pre) w post [] (m_caps m) /\ m_start m = length pre.
Proof.
  intros H.
  destruct (search_from_sound _ _ _ _ H) as (pre & w & post & E & D & L).
  rewrite app_nil_r in D. exists pre, w, post. auto.
Qed.

(** ** Reading a denotation *)

Lemma iter_chr p n : forall b w s g g',
  Iter (Den (Chr p)) n b w s g g' ->
  length w = n /\ forallb p w = true /\ g' = g.
Proof.
  induction n as [|n IH]; intros b w s g g' H; cbn [Iter] in H.
  - destruct H as [-> ->]. auto.
  - destruct H as (w1 & w2 & g1 & -> & (a & -> & Hp & ->) & It).
    destruct (IH _ _ _ _ _ It) as (L & F & ->).
    cbn. rewrite Hp, L, F. auto.
Qed.

Lemma den_groupless r : has_groups r = false ->
  forall b w s g g', Den r b w s g g' -> g' = g.
Proof.
  induction r as [|p|r1 IH1 r2 IH2|lo hi gr r1 IH1|i r1 IH1|];
    cbn [has_groups]; intros Hg b w s g g' D; cbn [Den] in D.
  - now destruct D.
  - now destruct D as (a & _ & _ & ->).
  - apply orb_false_iff in Hg as [G1 G2].
    destruct D as (w1 & w2 & g1 & _ & D1 & D2).
    rewrite (IH2 G2 _ _ _ _ _ D2). eauto.
  - destruct D as (n & _ & It). revert b w s g g' It.
    induction n as [|n IHn]; intros b w s g g' It; cbn [Iter] in It.
    + now destruct It.
    + destruct It as (w1 & w2 & g1 & _ & D1 & It).
      rewrite (IHn _ _ _ _ _ It). eauto.
  - discriminate.
  - now destruct D as (_ & -> & _).
Qed.

(** A pattern without groups in front of a sequence leaves the captures
    alone. *)
Lemma den_seq_skip r1 r2 b w s g g' :
  has_groups r1 = false ->
  Den (Seq r1 r2) b w s g g' ->
  exists w1 w2, w = w1 ++ w2 /\ Den r2 (rev w1 ++ b) w2 s g g'.
Proof.
  intros Hg (w1 & w2 & g1 & -> & D1 & D2).
  rewrite (den_groupless _ Hg _ _ _ _ _ D1) in D2. eauto.
Qed.

(** A group in front of a sequence whose body has no group of its own. *)
Lemma den_seq_grp i r1 r2 b w s g g' :
  has_groups r1 = false ->
  Den (Seq (Grp i r1) r2) b w s g g' ->
  exists w1 w2,
    w = w1 ++ w2 /\ Den r1 b w1 (w2 ++ s) g g /\
    Den r2 (rev w1 ++ b) w2 s ((i, w1) :: g) g'.
Proof.
  intros Hg (w1 & w2 & g1 & -> & (g0 & D1 & ->) & D2).
  pose proof (den_groupless _ Hg _ _ _ _ _ D1) as ->.
  exists w1, w2. auto.
Qed.

Lemma den_grp i r1 b w s g g' :
  has_groups r1 = false ->
  Den (Grp i r1) b w s g g' ->
  Den r1 b w s g g /\ g' = (i, w) :: g.
Proof.
  intros Hg (g0 & D1 & ->).
  pose proof (den_groupless _ Hg _ _ _ _ _ D1) as ->. auto.
Qed.

Lemma den_rep_chr lo hi gr p b w s g g' :
  Den (Rep lo hi gr (Chr p)) b w s g g' ->
  within lo hi (length w) /\ forallb p w = true.
Proof.
  intros (n & Hw & It). destruct (iter_chr _ _ _ _ _ _ _ It) as (<- & F & _).
  auto.
Qed.

Lemma den_chr_head p r b w s g g' :
  Den (Seq (Chr p) r) b w s g g' -> exists a w', w = a :: w' /\ p a = true.
Proof.
  intros (w1 & w2 & g1 & -> & (a & -> & Hp & _) & _). cbn. eauto.
Qed.

(** ** Strings *)

Lemma str_eqb_eq s t : str_eqb s t = true <-> s = t.
Proof.
  revert t. induction s as [|a s IH]; destruct t as [|b t]; cbn;
    try (split; [discriminate | discriminate]); try tauto.
  rewrite andb_true_iff, Ascii.eqb_eq, IH.
  split; [intros [-> ->]; reflexivity | intros H; inversion H; auto].
Qed.

Lemma lstrip_head a w : is_space a = false -> lstrip (a :: w) = a :: w.
Proof. intros H. cbn. now rewrite H. Qed.

Lemma lstrip_keeps w : forall a, In a w -> is_space a = false -> lstrip w <> [].
Proof.
  induction w as [|b w IH]; intros a Hin Ha; [destruct Hin|].
  cbn. destruct (is_space b) eqn:E; [|discriminate].
  destruct Hin as [->|Hin]; [congruence | eauto].
Qed.

Lemma lstrip_no_space w :
  forallb (fun a => negb (is_space a)) w = true -> lstrip w = w.
Proof.
  destruct w as [|a w]; [reflexivity|]. cbn [forallb].
  intros H. apply andb_true_iff in H as [H _].
  apply lstrip_head. now destruct (is_space a).
Qed.

Lemma strip_no_space w :
  forallb (fun a => negb (is_space a)) w = true -> strip w = w.
Proof.
  intros H. unfold strip, rstrip. rewrite (lstrip_no_space _ H).
  rewrite lstrip_no_space; [apply rev_involutive|].
  rewrite forallb_forall in *. intros a Ha. apply H. now apply in_rev.
Qed.

(** Stripping keeps a first character that is not a space. *)
Lemma strip_head a w :
  is_space a = false -> exists w', strip (a :: w) = a :: w'.
Proof.
  intros Ha. unfold strip, rstrip. rewrite (lstrip_head _ _ Ha).
  cbn [rev].
  destruct (lstrip (rev w ++ [a])) as [|c l] eqn:E.
  - exfalso. apply (lstrip_keeps (rev w ++ [a]) a); auto.
    apply in_or_app. right. now left.
  - assert (S : exists l', lstrip (rev w ++ [a]) = l' ++ [a]).
    { clear E. induction (rev w) as [|b u IH]; cbn.
      - rewrite Ha. now exists [].
      - destruct (is_space b); [exact IH|]. now exists (b :: u). }
    destruct S as (l' & S). rewrite E in S. rewrite S, rev_app_distr.
    cbn. eauto.
Qed.

Lemma forallb_impl {A} (p q : A -> bool) l :
  (forall a, p a = true -> q a = true) ->
  forallb p l = true -> forallb q l = true.
Proof.
  intros H. rewrite !forallb_forall. auto.
Qed.

Lemma AZ_not_space a : is_AZ a = true -> is_space a = false.
Proof.
  unfold is_AZ, is_space, in_range. cbn.
  rewrite !andb_true_iff, orb_false_iff, !andb_false_iff, !N.leb_le, !N.leb_gt.
  lia.
Qed.

Lemma digit_not_space a : is_digit a = true -> is_space a = false.
Proof.
  unfold is_digit, is_space, in_range. cbn.
  rewrite !andb_true_iff, orb_false_iff, !andb_false_iff, !N.leb_le, !N.leb_gt.
  lia.
Qed.

(** ** What the patterns capture *)

Lemma den_ticker b w s g g' :
  Den (between 1 5 AZ) b w s g g' -> is_ticker w = true.
Proof.
  intros D. apply den_rep_chr in D as ((L1 & L2) & F).
  unfold is_ticker. unfold capped in L2. cbn in L2. rewrite F, andb_true_r.
  apply andb_true_iff. split; apply Nat.leb_le; lia.
Qed.

Lemma within_exact n (w : pystr) :
  within n (Some n) (length w) -> length w = n.
Proof. intros (L1 & L2). unfold capped in L2. lia. Qed.

Lemma den_date b w s g g' : Den date_re b w s g g' -> is_date_string w = true.
Proof.
  unfold date_re, between, exactly, digit; cbn [seq]. intros D.
  destruct D as (m & w1 & g1 & -> & Dm & D).
  destruct D as (s1 & w2 & g2 & -> & (c1 & -> & E1 & _) & D).
  destruct D as (d & w3 & g3 & -> & Dd & D).
  destruct D as (s2 & y & g4 & -> & (c2 & -> & E2 & _) & Dy).
  apply Ascii.eqb_eq in E1, E2. subst c1 c2.
  apply den_rep_chr in Dm as ((M1 & M2) & Fm).
  apply den_rep_chr in Dd as ((D1 & D2) & Fd).
  apply den_rep_chr in Dy as (Y & Fy). apply within_exact in Y.
  unfold capped in M2, D2. cbn in M2, D2.
  destruct y as [|y1 [|y2 [|y3 [|y4 [|]]]]]; try discriminate Y.
  unfold is_date_string, date_layout.
  destruct m as [|m1 [|m2 [|]]]; cbn in M1, M2; try lia;
    destruct d as [|d1 [|d2 [|]]]; cbn in D1, D2; try lia;
    cbn in Fm, Fd, Fy |- *;
    rewrite ?andb_true_r in *; rewrite ?Fm, ?Fd, ?Fy; cbn;
    rewrite ?orb_true_r; reflexivity.
Qed.

(** Walks a sequence, naming the text of each group and forgetting the
    parts that capture nothing. *)
Ltac walk D :=
  lazymatch type of D with
  | Den (Seq (Grp _ _) _) _ _ _ _ _ =>
      let w := fresh "w" in
      let G := fresh "G" in
      apply den_seq_grp in D; [| reflexivity];
      destruct D as (w & ? & ? & G & D); walk D
  | Den (Seq _ _) _ _ _ _ _ =>
      apply den_seq_skip in D; [| reflexivity];
      destruct D as (? & ? & ? & D); walk D
  | Den (Grp _ _) _ _ _ _ _ =>
      let G := fresh "G" in
      apply den_grp in D; [| reflexivity]; destruct D as (G & D)
  | _ => idtac
  end.

Lemma den_name_head r b w s g g' :
  Den (Seq AZ r) b w s g g' -> head_is is_AZ w = true.
Proof.
  intros D. apply den_chr_head in D as (a & w' & -> & H). exact H.
Qed.

Lemma den_amount_head b w s g g' :
  Den amount_re b w s g g' -> head_is (Ascii.eqb "$") w = true.
Proof.
  unfold amount_re; cbn [seq]. intros D.
  apply den_chr_head in D as (a & w' & -> & H). exact H.
Qed.

Lemma pattern_captures line m :
  re_search pattern line = Some m ->
  exists asset tk ac d1 d2 am,
    m_caps m = [(6, am); (5, d2); (4, d1); (3, ac); (2, tk); (1, asset)] /\
    head_is is_AZ asset = true /\ is_ticker tk = true /\
    is_date_string d1 = true /\ is_date_string d2 = true /\
    head_is (Ascii.eqb "$") am = true.
Proof.
  intros H. apply re_search_sound in H as (pre & w & post & _ & D & _).
  unfold pattern in D; cbn [seq] in D. walk D.
  eexists _, _, _, _, _, _. split; [exact D|].
  repeat split;
    eauto using den_name_head, den_ticker, den_date, den_amount_head.
Qed.

Lemma pattern2_captures line m :
  re_search pattern2 line = Some m ->
  exists asset ac d1 d2 am,
    m_caps m = [(5, am); (4, d2); (3, d1); (2, ac); (1, asset)] /\
    head_is is_AZ asset = true /\
    is_date_string d1 = true /\ is_date_string d2 = true /\
    head_is (Ascii.eqb "$") am = true.
Proof.
  intros H. apply re_search_sound in H as (pre & w & post & _ & D & _).
  unfold pattern2 in D; cbn [seq] in D. walk D.
  eexists _, _, _, _, _. split; [exact D|].
  repeat split; eauto using den_name_head, den_date, den_amount_head.
Qed.

Lemma pattern3_captures line m :
  re_search pattern3 line = Some m ->
  exists asset ac d1 d2 am,
    m_caps m = [(5, am); (4, d2); (3, d1); (2, ac); (1, asset)] /\
    head_is is_AZ asset = true /\
    is_date_string d1 = true /\ is_date_string d2 = true /\
    head_is (Ascii.eqb "$") am = true.
Proof.
  intros H. apply re_search_sound in H as (pre & w & post & _ & D & _).
  unfold pattern3 in D; cbn [seq] in D. walk D.
  eexists _, _, _, _, _. split; [exact D|].
  repeat split; eauto using den_name_head, den_date, den_amount_head.
Qed.

Lemma ticker_re_captures s m :
  re_search ticker_re s = Some m ->
  exists tk, m_caps m = [(1, tk)] /\ is_ticker tk = true.
Proof.
  intros H. apply re_search_sound in H as (pre & w & post & _ & D & _).
  unfold ticker_re in D; cbn [seq] in D. walk D.
  destruct D as (a & _ & _ & D).
  eexists. split; [exact D|]. eauto using den_ticker.
Qed.

Lemma dollar_re_captures s m :
  re_search dollar_re s = Some m -> exists w, m_caps m = [(1, w)].
Proof.
  intros H. apply re_search_sound in H as (pre & w & post & _ & D & _).
  unfold dollar_re in D. walk D. eauto.
Qed.

Lemma find_date_is_date s d : find_date s = Some d -> is_date_string d = true.
Proof.
  unfold find_date. destruct (re_search date_search_re s) as [m|] eqn:E;
    [|discriminate].
  apply re_search_sound in E as (pre & w & post & _ & D & _).
  unfold date_search_re in D; cbn [seq] in D. walk D.
  destruct D as (_ & D & _).
  unfold group. rewrite D. cbn. intros [= <-]. eauto using den_date.
Qed.

(** ** The monad *)

Lemma bind_ok {A B} (m : result A) (f : A -> result B) b :
  bind m f = Ok b -> exists a, m = Ok a /\ f a = Ok b.
Proof. destruct m; cbn; [eauto | discriminate]. Qed.

Lemma try_except_ok {A} (body : result A) (h : exn -> result A) :
  (forall e, exists a, h e = Ok a) -> exists a, try_except body h = Ok a.
Proof. intros H. destruct body; cbn; eauto. Qed.

Lemma try_none_some {A} (body : result (option A)) (a : A) :
  try_except body (fun _ => Ok None) = Ok (Some a) -> body = Ok (Some a).
Proof. destruct body; cbn; [auto | discriminate]. Qed.

Ltac inv_bind H :=
  let a := fresh "a" in
  let E := fresh "E" in
  apply bind_ok in H; destruct H as (a & E & H).

(** ** The structural shapes *)

Lemma date_no_space w :
  is_date_string w = true -> forallb (fun a => negb (is_space a)) w = true.
Proof.
  assert (D : forall a, is_digit a = true -> negb (is_space a) = true)
    by (intros a H; now rewrite (digit_not_space _ H)).
  assert (S : forall a, Ascii.eqb "/" a = true -> negb (is_space a) = true)
    by (intros a H; apply Ascii.eqb_eq in H; now subst a).
  unfold is_date_string, date_layout. intros H.
  repeat (apply orb_true_iff in H as [H|H]);
    repeat (apply andb_true_iff in H as [H ?]);
    apply Nat.eqb_eq in H;
    repeat (destruct w as [|? w]; [discriminate H|]);
    destruct w; try discriminate H;
    cbn in *;
    repeat match goal with
           | X : _ && _ = true |- _ => apply andb_true_iff in X as [? ?]
           end;
    repeat (apply andb_true_iff; split); auto.
Qed.

Lemma ticker_no_space w :
  is_ticker w = true -> forallb (fun a => negb (is_space a)) w = true.
Proof.
  unfold is_ticker. intros H. apply andb_true_iff in H as [_ H].
  revert H. apply forallb_impl. intros a Ha. now rewrite (AZ_not_space _ Ha).
Qed.

Lemma strip_keeps_head p w :
  (forall a, p a = true -> is_space a = false) ->
  head_is p w = true -> head_is p (strip w) = true.
Proof.
  intros Hp H. destruct w as [|a w]; [discriminate|]. cbn in H.
  destruct (strip_head a w (Hp _ H)) as (w' & ->). exact H.
Qed.

Lemma dollar_not_space a : Ascii.eqb "$" a = true -> is_space a = false.
Proof. intros H. apply Ascii.eqb_eq in H. now subst a. Qed.

Lemma head_app p (w u : pystr) :
  head_is p w = true -> head_is p (w ++ u) = true.
Proof. destruct w; [discriminate | auto]. Qed.

Lemma completed_head amount next_line r :
  completed amount next_line = Ok r ->
  head_is (Ascii.eqb "$") amount = true ->
  head_is (Ascii.eqb "$") r = true.
Proof.
  unfold completed. intros H Ha.
  pose proof (strip_keeps_head _ _ dollar_not_space Ha) as Hs.
  destruct (re_search dollar_re next_line).
  - inv_bind H. inversion H; subst. now apply head_app.
  - inversion H; subst. exact Hs.
Qed.

Lemma is_action_of_code c : is_action (action_of_code c) = true.
Proof. unfold action_of_code. now destruct (str_eqb (upper c) "P"). Qed.

Lemma ptr_trade_form line all_lines i asset tk ac d1 d2 am t :
  ptr_trade line all_lines i asset tk ac d1 d2 am = Ok (Some t) ->
  head_is is_AZ asset = true -> ticker_ok (VStr tk) = true ->
  is_date_string d1 = true -> is_date_string d2 = true ->
  head_is (Ascii.eqb "$") am = true ->
  structural_form t.
Proof.
  unfold ptr_trade. intros H Ha Ht H1 H2 Hm.
  inv_bind H. inv_bind H. inversion H; subst; clear H.
  rewrite (strip_no_space _ (date_no_space _ H1)).
  rewrite (strip_no_space _ (date_no_space _ H2)).
  eexists _, _, _, _, _, _, _, _, _. split; [reflexivity|].
  repeat split; auto using is_action_of_code.
  pose proof (strip_keeps_head _ _ AZ_not_space Ha) as Hs.
  now destruct (strip asset).
Qed.

Lemma group_of_caps i m g : m_caps m = g -> group i m = lookup i g.
Proof. unfold group. now intros ->. Qed.

Lemma shape1_form m line all_lines i t :
  re_search pattern line = Some m ->
  shape1 m line all_lines i = Ok (Some t) -> structural_form t.
Proof.
  intros Hm H.
  destruct (pattern_captures _ _ Hm)
    as (asset & tk & ac & d1 & d2 & am & C & Ha & Ht & H1 & H2 & Hd).
  unfold shape1 in H. rewrite !(group_of_caps _ _ _ C) in H.
  cbn [lookup Nat.eqb as_str bind] in H.
  inv_bind H. rewrite (strip_no_space _ (ticker_no_space _ Ht)) in H.
  apply (ptr_trade_form _ _ _ _ _ _ _ _ _ _ H); auto.
  - cbn. rewrite Ht. apply orb_true_r.
  - destruct (endswith "-" (strip am) && has_next all_lines i).
    + inv_bind E. eauto using completed_head.
    + inversion E; subst. apply strip_keeps_head; auto using dollar_not_space.
Qed.

Lemma shape2_form m line all_lines i t :
  re_search pattern2 line = Some m ->
  shape2 m line all_lines i = Ok (Some (Some t)) -> structural_form t.
Proof.
  intros Hm H.
  destruct (pattern2_captures _ _ Hm)
    as (asset & ac & d1 & d2 & am & C & Ha & H1 & H2 & Hd).
  unfold shape2 in H. rewrite !(group_of_caps _ _ _ C) in H.
  cbn [lookup Nat.eqb as_str bind] in H.
  inv_bind H. destruct (re_search ticker_re a) as [tm|] eqn:Et;
    [|discriminate].
  destruct (ticker_re_captures _ _ Et) as (tk & Ct & Ht).
  rewrite (group_of_caps _ _ _ Ct) in H. cbn [lookup Nat.eqb as_str bind] in H.
  inv_bind H. inv_bind H. inversion H; subst; clear H.
  rewrite (strip_no_space _ (ticker_no_space _ Ht)) in E1.
  apply (ptr_trade_form _ _ _ _ _ _ _ _ _ _ E1); auto.
  - cbn. rewrite Ht. apply orb_true_r.
  - eauto using completed_head.
Qed.

Lemma shape3_form m line all_lines i t :
  re_search pattern3 line = Some m ->
  shape3 m line all_lines i = Ok (Some t) -> structural_form t.
Proof.
  intros Hm H.
  destruct (pattern3_captures _ _ Hm)
    as (asset & ac & d1 & d2 & am & C & Ha & H1 & H2 & Hd).
  unfold shape3 in H. rewrite !(group_of_caps _ _ _ C) in H.
  cbn [lookup Nat.eqb as_str bind] in H.
  inv_bind H.
  apply (ptr_trade_form _ _ _ _ _ _ _ _ _ _ H); auto.
  destruct (contains " - " am || contains " -$" am).
  - inversion E; subst. apply strip_keeps_head; auto using dollar_not_space.
  - inv_bind E. eauto using completed_head.
Qed.

Lemma try_shape3_form line all_lines i t :
  try_shape3 line all_lines i = Ok (Some t) -> structural_form t.
Proof.
  unfold try_shape3. destruct (re_search pattern3 line) eqn:E; [|discriminate].
  destruct (has_next all_lines i); [|discriminate].
  eauto using shape3_form.
Qed.

Lemma try_shape2_form line all_lines i t :
  try_shape2 line all_lines i = Ok (Some t) -> structural_form t.
Proof.
  unfold try_shape2.
  destruct (re_search pattern2 line) eqn:E; eauto using try_shape3_form.
  destruct (has_next all_lines i); eauto using try_shape3_form.
  intros H. inv_bind H. destruct a as [o|]; eauto using try_shape3_form.
  inversion H; subst. eauto using shape2_form.
Qed.

(** Every record of the structural extractor has the structural form. *)
Lemma ptr_form line all_lines i t :
  _parse_ptr_trade_line line all_lines i = Ok (Some t) -> structural_form t.
Proof.
  unfold _parse_ptr_trade_line. intros H. apply try_none_some in H.
  destruct (re_search pattern line) eqn:E;
    eauto using shape1_form, try_shape2_form.
Qed.

Lemma ptr_never_raises line all_lines i :
  exists r, _parse_ptr_trade_line line all_lines i = Ok r.
Proof. apply try_except_ok. eauto. Qed.

(** ** The heuristic fallback *)

Lemma extract_action_is_action line a :
  _extract_action line = Some a -> is_action a = true.
Proof.
  unfold _extract_action.
  destruct (any_in buy_keywords (upper line)); [now intros [= <-]|].
  destruct (any_in sell_keywords (upper line));
    [now intros [= <-] | discriminate].
Qed.

Lemma ticker_match_ok line tm :
  re_search ticker_re line = Some tm -> ticker_ok (val_of (group 1 tm)) = true.
Proof.
  intros H. destruct (ticker_re_captures _ _ H) as (tk & C & Ht).
  rewrite (group_of_caps _ _ _ C). cbn. rewrite Ht. apply orb_true_r.
Qed.

Lemma optional_ticker_ok line : ticker_ok (optional_ticker line) = true.
Proof.
  unfold optional_ticker.
  destruct (re_search ticker_re line) eqn:E; eauto using ticker_match_ok.
Qed.

Lemma stock_asset_ticker line a v ty :
  stock_asset line = Ok (Some (a, v, ty)) -> ticker_ok v = true.
Proof.
  unfold stock_asset. destruct (re_search asset_re line); [|discriminate].
  intros H. inv_bind H. inversion H; subst. apply optional_ticker_ok.
Qed.

Lemma extract_asset_ticker line a v ty :
  _extract_asset_and_type line = Ok (Some (a, v, ty)) -> ticker_ok v = true.
Proof.
  unfold _extract_asset_and_type.
  destruct (contains "CALL" (upper line) || contains "PUT" (upper line));
    eauto using stock_asset_ticker.
  destruct (re_search ticker_re line) eqn:E; eauto using stock_asset_ticker.
  intros [= <- <- <-]. eauto using ticker_match_ok.
Qed.

Lemma nearby_date_ok all_lines indices d :
  nearby_date all_lines indices = Ok d -> date_or_unknown d = true.
Proof.
  induction indices as [|i rest IH]; cbn [nearby_date].
  - intros [= <-]. reflexivity.
  - intros H. inv_bind H. destruct (find_date a) eqn:F; auto.
    inversion H; subst. unfold date_or_unknown.
    now rewrite (find_date_is_date _ _ F).
Qed.

Lemma transaction_date_ok line all_lines i d :
  _extract_transaction_date line all_lines i = Ok d ->
  date_or_unknown d = true.
Proof.
  unfold _extract_transaction_date. destruct (find_date line) eqn:F.
  - intros [= <-]. unfold date_or_unknown.
    now rewrite (find_date_is_date _ _ F).
  - apply nearby_date_ok.
Qed.

Lemma filing_date_ok all_lines :
  date_or_unknown (_extract_filing_date all_lines) = true.
Proof.
  unfold _extract_filing_date.
  induction (firstn 10 all_lines) as [|l rest IH]; [reflexivity|].
  cbn [first_filing_date]. destruct (any_in filing_keywords (upper l)); auto.
  destruct (find_date l) eqn:F; auto. unfold date_or_unknown.
  now rewrite (find_date_is_date _ _ F).
Qed.

(** Every record of the heuristic fallback has the heuristic form. *)
Lemma heuristic_trade_form line all_lines i t :
  heuristic_trade line all_lines i = Ok (Some t) ->
  heuristic_form line all_lines t.
Proof.
  unfold heuristic_trade. destruct (_extract_action line) as [action|] eqn:A;
    [|discriminate].
  destruct (truthy action); cbn [negb]; [|discriminate]. intros H.
  inv_bind H. destruct a as [[[asset v] ty]|]; [|discriminate].
  inv_bind H.
  destruct (truthy asset && (2 <? length asset) && true) eqn:V;
    [|discriminate].
  inversion H; subst; clear H.
  apply andb_true_iff in V as [V _]. apply andb_true_iff in V as [_ V].
  apply Nat.ltb_lt in V.
  eexists asset, v, (value ty), action, _. split; [reflexivity|].
  repeat split;
    eauto using extract_asset_ticker, extract_action_is_action,
      transaction_date_ok.
Qed.

(** ** The extractor *)

Lemma parse_trade_line_never_raises line all_lines i :
  exists r, _parse_trade_line line all_lines i = Ok r.
Proof. apply try_except_ok. eauto. Qed.

Lemma parse_trade_line_form line all_lines i t :
  _parse_trade_line line all_lines i = Ok (Some t) ->
  structural_form t \/ heuristic_form line all_lines t.
Proof.
  unfold _parse_trade_line. intros H. apply try_none_some in H.
  inv_bind H. destruct a as [t'|].
  - inversion H; subst. left. eauto using ptr_form.
  - right. eauto using heuristic_trade_form.
Qed.

(** The records of the engine are records of the extractor. *)
Lemma scan_emits lines : forall rest i out t,
  scan lines i rest = Ok out -> In t out ->
  exists line j, _is_trade_line line = true /\
                 _parse_trade_line line lines j = Ok (Some t).
Proof.
  induction rest as [|line rest IH]; intros i out t H Hin; cbn [scan] in H.
  - inversion H; subst. destruct Hin.
  - destruct (_is_trade_line line) eqn:C; [|eauto].
    inv_bind H. inv_bind H. inversion H; subst; clear H.
    destruct a as [tr|]; [|eauto].
    destruct Hin as [<-|Hin]; eauto.
Qed.

Lemma scan_never_raises lines : forall rest i,
  exists out, scan lines i rest = Ok out.
Proof.
  induction rest as [|line rest IH]; intros i; cbn [scan]; eauto.
  destruct (_is_trade_line line); auto.
  destruct (parse_trade_line_never_raises line lines i) as (r & ->).
  destruct (IH (i + 1)%Z) as (more & ->). cbn. eauto.
Qed.

(** ** The worked examples *)

(** The lead-token shapes never capture an asset name with a capital P in
    it: the name is [[A-Z][^P]*?], and the action code that must follow
    it is the first capital P after the first letter, if there is one. *)
Lemma lead_token_name_has_no_P line m :
  re_search pattern2 line = Some m \/ re_search pattern3 line = Some m ->
  exists a name,
    group 1 m = Some (a :: name) /\
    forallb (fun c => negb (Ascii.eqb c "P")) name = true.
Proof.
  intros [H|H]; apply re_search_sound in H as (pre & w & post & _ & D & _);
    [unfold pattern2 in D | unfold pattern3 in D];
    cbn [seq] in D; walk D;
    unfold group; rewrite D; cbn [lookup Nat.eqb];
    destruct G as (u1 & u2 & g1 & -> & (a & -> & _ & _) & R);
    apply den_rep_chr in R as (_ & F); cbn; eauto.
Qed.

(** C1. The fragment ["SP ACME CORP P 01/02/2024 01/10/2024 $15,001 -"]
    followed by ["[OT] $50,000"]: the classifier rejects the first line,
    the extractor returns no record for it, and the engine emits nothing,
    where the claim has a record with amount ["$15,001 - $50,000"].  The
    P of CORP is a character the name class [[^P]] of the lead-token
    shapes refuses; the same fragment with ACME INC gives the record and
    the amount of the claim. *)
Theorem C1_acme_corp_emits_nothing :
  _is_trade_line acme_corp_line = false /\
  _parse_trade_line acme_corp_line [acme_corp_line; ot_line] 0 = Ok None /\
  _parse_text_for_trades (document [acme_corp_line; ot_line]) = Ok [] /\
  exists t,
    _parse_text_for_trades (document [acme_inc_line; ot_line]) = Ok [t] /\
    field_is "amount_range" "$15,001 - $50,000" t.
Proof.
  repeat split; try (vm_compute; reflexivity).
  eexists. split; vm_compute; reflexivity.
Qed.

(** C2. The single line
    ["AMAZON.COM INC (AMZN) S 02/01/2024 02/03/2024 $50,001-$100,000"]
    gets the record of the claim but for its amount, which is
    ["$50,001-"] where the claim has ["$50,001-$100,000"]: the amount
    group of the single-line shape ends at the dash, so the upper bound
    that stands on the line is never read.  On the same line the amount
    extractor of the heuristic path gives the whole range, and with a
    trade line after it the record takes its upper bound from that line,
    ["$50,001- $1,001"]. *)
Theorem C2_upper_bound_on_the_line_is_lost :
  (exists t,
     _parse_trade_line amazon_line [amazon_line] 0 = Ok (Some t) /\
     _parse_text_for_trades (document [amazon_line]) = Ok [t] /\
     field_is "asset_name" "AMAZON.COM INC" t /\
     field_is "ticker" "AMZN" t /\
     field_is "action" "SELL" t /\
     field_is "amount_range" "$50,001-" t) /\
  _extract_amount_range amazon_line = lit "$50,001-$100,000" /\
  (exists t,
     _parse_trade_line amazon_line [amazon_line; widget_line] 0
     = Ok (Some t) /\
     field_is "amount_range" "$50,001- $1,001" t).
Proof.
  split; [|split].
  - eexists. split; [vm_compute; reflexivity|].
    repeat split; vm_compute; reflexivity.
  - vm_compute; reflexivity.
  - eexists. split; vm_compute; reflexivity.
Qed.

(** In the shape with the ticker on the next line, a whole amount (no
    dash) still gets the dollar token of the next line: ["... $1,001"]
    followed by ["(WDG) $15,000"] gives the amount ["$1,001 $15,000"]. *)
Lemma next_line_amount_appended_without_dash :
  exists t,
    _parse_text_for_trades (document [widget_whole_line; wdg_line])
      = Ok [t] /\
    field_is "ticker" "WDG" t /\
    field_is "amount_range" "$1,001 $15,000" t.
Proof. eexists; repeat split; vm_compute; reflexivity. Qed.

(** The single-line shape on a whole amount leaves the next line alone. *)
Lemma single_line_shape_asks_for_the_dash :
  exists t,
    _parse_trade_line "WIDGET CO (WDG) P 03/01/2024 03/05/2024 $1,001"
      (lits ["WIDGET CO (WDG) P 03/01/2024 03/05/2024 $1,001"; "$15,000"])
      0 = Ok (Some t) /\
    field_is "amount_range" "$1,001" t.
Proof. eexists. split; vm_compute; reflexivity. Qed.

(** ** The classifier *)

(** C4, as claimed: a line with ASSET and the action keyword SALE that
    also has the single-line shape is a candidate. *)
Lemma C4_shape_wins_over_header_words :
  ~ forall line,
      total_or_asset line = true ->
      any_in action_keywords (upper line) = true ->
      _is_trade_line line = false.
Proof.
  intros H. specialize (H asset_sale_line).
  assert (E : _is_trade_line asset_sale_line = true)
    by (vm_compute; reflexivity).
  rewrite H in E; [discriminate E | |]; vm_compute; reflexivity.
Qed.

(** C4, amended: a line that matches none of the three structural shapes,
    reads TOTAL or ASSET (in any case) and has an action keyword is not a
    candidate trade line. *)
Theorem C4_header_line_rejected line :
  structural_line line = false ->
  total_or_asset line = true ->
  any_in action_keywords (upper line) = true ->
  _is_trade_line line = false.
Proof.
  unfold structural_line, total_or_asset, _is_trade_line.
  intros S H _.
  apply orb_false_iff in S as [S S3]. apply orb_false_iff in S as [S1 S2].
  rewrite S1, S2, S3.
  assert (Hdr : any_in skip_keywords (upper line) = true).
  { unfold any_in, skip_keywords, lits. cbn [map existsb].
    apply orb_true_iff in H as [H|H]; rewrite H;
      rewrite ?orb_true_r; reflexivity. }
  rewrite Hdr. cbn [negb]. apply andb_false_r.
Qed.

Lemma C4_header_line_rejected_witness :
  structural_line total_line = false /\
  total_or_asset total_line = true /\
  any_in action_keywords (upper total_line) = true /\
  _is_trade_line total_line = false.
Proof.
  assert (S : structural_line total_line = false) by (vm_compute; reflexivity).
  assert (H : total_or_asset total_line = true) by (vm_compute; reflexivity).
  assert (A : any_in action_keywords (upper total_line) = true)
    by (vm_compute; reflexivity).
  exact (conj S (conj H (conj A (C4_header_line_rejected total_line S H A)))).
Defined.

(** ** The records *)

Lemma emitted_form text out t :
  _parse_text_for_trades text = Ok out -> In t out ->
  exists line all_lines i,
    _is_trade_line line = true /\
    _parse_trade_line line all_lines i = Ok (Some t) /\
    (structural_form t \/ heuristic_form line all_lines t).
Proof.
  unfold _parse_text_for_trades, parse_lines. intros H Hin.
  destruct (scan_emits _ _ _ _ _ H Hin) as (line & j & C & P).
  eauto 7 using parse_trade_line_form.
Qed.

Ltac open_form F :=
  destruct F as
    [(asset & tk & ty & action & amount & tdate & ndate & descr & raw & -> &
      Hasset & Htk & Haction & Hamount & Htdate & Hndate)
    |(asset & tk & ty & action & tdate & -> &
      Hasset & Htk & Haction & Htdate & Hact)].

(** C5, as claimed: the record of the heuristic fallback for
    ["Purchase of APPLE INC shares"] has no [notification_date]. *)
Lemma C5_heuristic_record_has_no_notification_date :
  ~ forall text out t,
      _parse_text_for_trades text = Ok out -> In t out ->
      str_field "transaction_date" date_or_unknown t = true /\
      str_field "notification_date" date_or_unknown t = true.
Proof.
  intros H.
  destruct (H (document [apple_line]) [apple_record] apple_record) as [_ N].
  - vm_compute; reflexivity.
  - left; reflexivity.
  - vm_compute in N. discriminate N.
Qed.

(** Every record of the engine was made from a candidate line at its
    index, by the structural extractor or, when that one gave nothing,
    by the heuristic fallback. *)
Lemma emitted_path text out t :
  _parse_text_for_trades text = Ok out -> In t out ->
  exists line i,
    _is_trade_line line = true /\
    (_parse_ptr_trade_line line (split_lines text) i = Ok (Some t) \/
     _parse_ptr_trade_line line (split_lines text) i = Ok None /\
     heuristic_trade line (split_lines text) i = Ok (Some t)).
Proof.
  unfold _parse_text_for_trades, parse_lines. intros H Hin.
  destruct (scan_emits _ _ _ _ _ H Hin) as (line & j & C & P).
  exists line, j. split; [exact C|].
  unfold _parse_trade_line in P. apply try_none_some in P. inv_bind P.
  destruct a as [t'|]; [left | right; auto].
  now inversion P; subst.
Qed.

(** C5, amended: every record the engine emits has a [transaction_date],
    a date string or ["Unknown"]; a record of a structural shape has a
    [notification_date] as well, a date string, and a record of the
    heuristic fallback has no [notification_date] but a [filing_date], a
    date string or ["Unknown"].  Which of the two holds goes by the path
    that made the record. *)
Theorem C5_dates_of_every_record text out t :
  _parse_text_for_trades text = Ok out -> In t out ->
  exists line i,
    (_parse_ptr_trade_line line (split_lines text) i = Ok (Some t) /\
     str_field "transaction_date" is_date_string t = true /\
     str_field "notification_date" is_date_string t = true)
    \/
    (_parse_ptr_trade_line line (split_lines text) i = Ok None /\
     heuristic_trade line (split_lines text) i = Ok (Some t) /\
     str_field "transaction_date" date_or_unknown t = true /\
     field "notification_date" t = None /\
     str_field "filing_date" date_or_unknown t = true).
Proof.
  intros H Hin.
  destruct (emitted_path _ _ _ H Hin) as (line & i & _ & [S | [N S]]);
    exists line, i.
  - left. split; [exact S|]. apply ptr_form in S.
    destruct S as (asset & tk & ty & action & amount & tdate & ndate &
                   descr & raw & -> & _ & _ & _ & _ & Htdate & Hndate).
    split; [exact Htdate | exact Hndate].
  - right. split; [exact N|]. split; [exact S|].
    apply heuristic_trade_form in S.
    destruct S as (asset & tk & ty & action & tdate & -> & _ & _ & _ &
                   Htdate & _).
    split; [exact Htdate|]. split; [reflexivity|]. apply filing_date_ok.
Qed.

Lemma C5_dates_of_every_record_witness :
  (_parse_text_for_trades (document [widget_line; wdg_line])
   = Ok [widget_record] /\
   In widget_record [widget_record] /\
   str_field "notification_date" is_date_string widget_record = true /\
   exists line i,
     (_parse_ptr_trade_line line
        (split_lines (document [widget_line; wdg_line])) i
      = Ok (Some widget_record) /\
      str_field "transaction_date" is_date_string widget_record = true /\
      str_field "notification_date" is_date_string widget_record = true)
     \/
     (_parse_ptr_trade_line line
        (split_lines (document [widget_line; wdg_line])) i = Ok None /\
      heuristic_trade line
        (split_lines (document [widget_line; wdg_line])) i
      = Ok (Some widget_record) /\
      str_field "transaction_date" date_or_unknown widget_record = true /\
      field "notification_date" widget_record = None /\
      str_field "filing_date" date_or_unknown widget_record = true)) /\
  (_parse_text_for_trades (document [apple_line]) = Ok [apple_record] /\
   In apple_record [apple_record] /\
   field "notification_date" apple_record = None /\
   exists line i,
     (_parse_ptr_trade_line line (split_lines (document [apple_line])) i
      = Ok (Some apple_record) /\
      str_field "transaction_date" is_date_string apple_record = true /\
      str_field "notification_date" is_date_string apple_record = true)
     \/
     (_parse_ptr_trade_line line (split_lines (document [apple_line])) i
      = Ok None /\
      heuristic_trade line (split_lines (document [apple_line])) i
      = Ok (Some apple_record) /\
      str_field "transaction_date" date_or_unknown apple_record = true /\
      field "notification_date" apple_record = None /\
      str_field "filing_date" date_or_unknown apple_record = true)).
Proof.
  assert (E : _parse_text_for_trades (document [widget_line; wdg_line])
              = Ok [widget_record]) by (vm_compute; reflexivity).
  assert (I : In widget_record [widget_record]) by (left; reflexivity).
  assert (E' : _parse_text_for_trades (document [apple_line])
               = Ok [apple_record]) by (vm_compute; reflexivity).
  assert (I' : In apple_record [apple_record]) by (left; reflexivity).
  exact (conj
    (conj E (conj I (conj eq_refl (C5_dates_of_every_record _ _ _ E I))))
    (conj E' (conj I' (conj eq_refl
       (C5_dates_of_every_record _ _ _ E' I'))))).
Defined.

(** *** The ticker, path by path *)














(** The whole engine raises nothing either. *)
Lemma engine_never_raises text :
  exists out, _parse_text_for_trades text = Ok out.
Proof. apply scan_never_raises. Qed.

(** ** The last line *)

Lemma no_next all_lines i :
  (len all_lines <= i + 1)%Z -> has_next all_lines i = false.
Proof.
  intros H. unfold has_next. apply andb_false_iff. right.
  apply Z.ltb_ge. exact H.
Qed.

Lemma extract_action_keyword line a :
  _extract_action line = Some a ->
  any_in (buy_keywords ++ sell_keywords) (upper line) = true.
Proof.
  unfold _extract_action, any_in. rewrite existsb_app.
  destruct (existsb _ buy_keywords); [reflexivity|].
  destruct (existsb _ sell_keywords); [reflexivity | discriminate].
Qed.

(** C10, as claimed: a last line that matches the lead-token shapes and
    the single-line shape as well gets a record from the structural
    extractor. *)
Lemma C10_single_line_shape_needs_no_next_line :
  ~ forall line all_lines i,
      (i + 1 = len all_lines)%Z -> getitem all_lines i = Ok line ->
      matched (re_search pattern2 line) = true ->
      matched (re_search pattern3 line) = true ->
      _parse_ptr_trade_line line all_lines i = Ok None.
Proof.
  intros H. specialize (H sp_foo_line [sp_foo_line] 0%Z).
  assert (E : _parse_ptr_trade_line sp_foo_line [sp_foo_line] 0 <> Ok None)
    by (vm_compute; discriminate).
  apply E, H; vm_compute; reflexivity.
Qed.

(** C10, amended: for a line with no line after it that does not match the
    single-line full form, the structural extractor returns no record
    (the two lead-token shapes ask for a following line), and a record
    for it can only be the one of the heuristic fallback, which asks for
    an action keyword on the line. *)
Theorem C10_last_line_has_no_structural_record line all_lines i :
  (len all_lines <= i + 1)%Z ->
  re_search pattern line = None ->
  _parse_ptr_trade_line line all_lines i = Ok None /\
  forall t,
    _parse_trade_line line all_lines i = Ok (Some t) ->
    heuristic_trade line all_lines i = Ok (Some t) /\
    any_in (buy_keywords ++ sell_keywords) (upper line) = true.
Proof.
  intros L P1.
  assert (S : _parse_ptr_trade_line line all_lines i = Ok None).
  { unfold _parse_ptr_trade_line, try_shape2, try_shape3.
    rewrite P1, (no_next _ _ L).
    destruct (re_search pattern2 line), (re_search pattern3 line);
      reflexivity. }
  split; [exact S|]. intros t H.
  unfold _parse_trade_line in H. rewrite S in H. cbn [bind] in H.
  apply try_none_some in H. split; [exact H|].
  destruct (heuristic_trade_form _ _ _ _ H)
    as (asset & tk & ty & action & tdate & _ & _ & _ & _ & _ & A).
  eauto using extract_action_keyword.
Qed.

Lemma C10_last_line_has_no_structural_record_witness :
  (len [ot_line; sp_fund_line] <= 1 + 1)%Z /\
  re_search pattern sp_fund_line = None /\
  _parse_ptr_trade_line sp_fund_line [ot_line; sp_fund_line] 1 = Ok None /\
  forall t,
    _parse_trade_line sp_fund_line [ot_line; sp_fund_line] 1 = Ok (Some t) ->
    heuristic_trade sp_fund_line [ot_line; sp_fund_line] 1 = Ok (Some t) /\
    any_in (buy_keywords ++ sell_keywords) (upper sp_fund_line) = true.
Proof.
  assert (L : (len [ot_line; sp_fund_line] <= 1 + 1)%Z)
    by (vm_compute; discriminate).
  assert (P : re_search pattern sp_fund_line = None)
    by (vm_compute; reflexivity).
  exact (conj L (conj P
    (C10_last_line_has_no_structural_record sp_fund_line
       [ot_line; sp_fund_line] 1 L P))).
Defined.

(** ** The amount cascade *)

(** C6. On ["Over $1,000,000"], ["Under $1,001"] and ["$1,001 to
    $15,000"] the normalizer returns the bare first number, where the
    claim has ["Over $1,000,000"], ["Under $1,001"] and
    ["$1,001-$15,000"]: the first pattern of the cascade matches any
    dollar token, so it wins on every line the later three could match.
    The engine shows it on a whole line of the heuristic path. *)
Theorem C6_first_pattern_shadows_the_rest :
  _extract_amount_range "Over $1,000,000" = lit "$1,000,000" /\
  _extract_amount_range "Under $1,001" = lit "$1,001" /\
  _extract_amount_range "$1,001 to $15,000" = lit "$1,001" /\
  exists t,
    _parse_text_for_trades apple_over_line = Ok [t] /\
    field_is "amount_range" "$1,000,000" t.
Proof.
  repeat split; try (vm_compute; reflexivity).
  eexists. split; vm_compute; reflexivity.
Qed.

(** A repetition whose minimum is reached cannot fail in front of a
    continuation that cannot fail. *)
Lemma rep_loop_total step k lo hi greedy :
  (forall c g, k c g <> None) ->
  forall fuel n c g, lo <= n ->
    rep_loop step k lo hi greedy fuel n c g <> None.
Proof.
  intros Hk. induction fuel as [|fuel IH]; intros n c g Hn; cbn [rep_loop].
  - destruct (Nat.leb_spec lo n); [apply Hk | lia].
  - destruct (Nat.ltb_spec n lo); [lia|].
    destruct (negb (below hi n)); [apply Hk|].
    destruct greedy.
    + destruct (step c g _); [discriminate | apply Hk].
    + destruct (k c g) eqn:E; [discriminate | now apply Hk in E].
Qed.

Lemma run_opt_total r k c g :
  (forall c g, k c g <> None) -> run (opt r) c g k <> None.
Proof. intros Hk. cbn [run opt]. now apply rep_loop_total. Qed.

(** At a dollar sign followed by a digit or a comma, the first amount
    pattern matches. *)
Lemma amount_pat1_matches_at b d rest :
  is_digit_or_comma d = true ->
  match_at amount_pat1 (Cursor b ("$"%char :: d :: rest)) <> None.
Proof.
  intros Hd. unfold match_at.
  assert (R : run amount_pat1 (Cursor b ("$"%char :: d :: rest)) [] accept
              <> None).
  { unfold amount_pat1, digit_or_comma, plus; cbn [seq].
    cbn [run chr after before Ascii.eqb Bool.eqb length rep_loop Nat.ltb
         Nat.leb]. rewrite Hd.
    apply rep_loop_total; [|lia]. intros c g.
    apply run_opt_total. intros c1 g1.
    apply run_opt_total. intros c2 g2.
    apply run_opt_total. discriminate. }
  destruct (run amount_pat1 _ [] accept) as [[c' g]|];
    [discriminate | contradiction].
Qed.

Lemma search_from_finds r s0 :
  (forall b, match_at r (Cursor b s0) <> None) ->
  forall pre b, search_from r b (pre ++ s0) <> None.
Proof.
  intros H. induction pre as [|a pre IH]; intros b.
  - cbn [app]. specialize (H b).
    destruct s0; cbn [search_from];
      destruct (match_at r _); [discriminate | contradiction
                              | discriminate | contradiction].
  - cbn [app search_from].
    destruct (match_at r _); [discriminate | apply IH].
Qed.

Lemma amount_pat1_finds pre d rest :
  is_digit_or_comma d = true ->
  re_search amount_pat1 (pre ++ "$"%char :: d :: rest) <> None.
Proof.
  intros Hd. apply search_from_finds. intros b.
  now apply amount_pat1_matches_at.
Qed.

Lemma den_dollar_number i b w s g g' :
  Den (Seq (chr "$") (Grp i (plus digit_or_comma))) b w s g g' ->
  exists d rest, w = "$"%char :: d :: rest /\ is_digit_or_comma d = true.
Proof.
  intros (w1 & w2 & g1 & -> & (a & -> & Ha & _) & (g2 & D & _)).
  apply Ascii.eqb_eq in Ha. subst a.
  apply den_rep_chr in D as ((L & _) & F).
  destruct w2 as [|d rest]; [cbn in L; lia|].
  cbn in F. apply andb_true_iff in F as [F _]. cbn. eauto.
Qed.

Lemma den_dollar_number_then i r b w s g g' :
  Den (Seq (chr "$") (Seq (Grp i (plus digit_or_comma)) r)) b w s g g' ->
  exists d rest, w = "$"%char :: d :: rest /\ is_digit_or_comma d = true.
Proof.
  intros (w1 & w2 & g1 & -> & (a & -> & Ha & _) &
          (w3 & w4 & g2 & -> & (g3 & D & _) & _)).
  apply Ascii.eqb_eq in Ha. subst a.
  apply den_rep_chr in D as ((L & _) & F).
  destruct w3 as [|d rest]; [cbn in L; lia|].
  cbn in F. apply andb_true_iff in F as [F _]. cbn. eauto.
Qed.

(** The patterns for [Over], [Under] and [to] only match where the first
    pattern matches too, so their branches are never taken. *)
Lemma later_amount_patterns_never_apply line :
  re_search amount_pat1 line = None ->
  re_search over_re line = None /\
  re_search under_re line = None /\
  re_search to_re line = None.
Proof.
  intros H.
  assert (No : forall pre d rest,
             line = pre ++ "$"%char :: d :: rest ->
             is_digit_or_comma d = true -> False).
  { intros pre d rest -> Hd. now apply (amount_pat1_finds pre d rest). }
  repeat split.
  - destruct (re_search over_re line) as [m|] eqn:E; [exfalso | reflexivity].
    apply re_search_sound in E as (pre & w & post & -> & D & _).
    unfold over_re in D; cbn [seq] in D.
    apply den_seq_skip in D as (w1 & w2 & -> & D); [|reflexivity].
    apply den_seq_skip in D as (w3 & w4 & -> & D); [|reflexivity].
    apply den_dollar_number in D as (d & rest & -> & Hd).
    apply (No (pre ++ w1 ++ w3) d (rest ++ post)); [|exact Hd].
    now rewrite <- !app_assoc.
  - destruct (re_search under_re line) as [m|] eqn:E; [exfalso | reflexivity].
    apply re_search_sound in E as (pre & w & post & -> & D & _).
    unfold under_re in D; cbn [seq] in D.
    apply den_seq_skip in D as (w1 & w2 & -> & D); [|reflexivity].
    apply den_seq_skip in D as (w3 & w4 & -> & D); [|reflexivity].
    apply den_dollar_number in D as (d & rest & -> & Hd).
    apply (No (pre ++ w1 ++ w3) d (rest ++ post)); [|exact Hd].
    now rewrite <- !app_assoc.
  - destruct (re_search to_re line) as [m|] eqn:E; [exfalso | reflexivity].
    apply re_search_sound in E as (pre & w & post & -> & D & _).
    unfold to_re in D; cbn [seq] in D.
    apply den_dollar_number_then in D as (d & rest & -> & Hd).
    apply (No pre d (rest ++ post)); [|exact Hd]. reflexivity.
Qed.

(** So the normalizer returns ["Unknown"] or a string that starts with
    the dollar sign, never one that starts with [Over] or [Under]. *)
Lemma amount_range_is_dollar_or_unknown line :
  _extract_amount_range line = lit "Unknown" \/
  head_is (Ascii.eqb "$") (_extract_amount_range line) = true.
Proof.
  unfold _extract_amount_range.
  destruct (re_search amount_pat1 line) as [m|] eqn:E.
  - right. now destruct (truthy_opt (group 2 m)).
  - destruct (later_amount_patterns_never_apply _ E) as (-> & -> & ->).
    now left.
Qed.

(** ** The description of an option trade *)

Lemma skipn_nth (l : list pystr) : forall a x,
  nth_error l a = Some x -> skipn a l = x :: skipn (S a) l.
Proof.
  induction l as [|y l IH]; intros [|a] x H; try discriminate H.
  - now inversion H.
  - cbn [nth_error] in H. change (skipn (S a) (y :: l)) with (skipn a l).
    now rewrite (IH _ _ H).
Qed.

Lemma mapM_getitem_run (l : list pystr) : forall m a,
  a + m <= length l ->
  mapM (getitem l)
       (map (fun k => (Z.of_nat a + Z.of_nat k)%Z) (List.seq 0 m))
  = Ok (firstn m (skipn a l)).
Proof.
  induction m as [|m IH]; intros a H; [reflexivity|].
  cbn [List.seq map mapM]. rewrite <- seq_shift, map_map.
  assert (G : exists x, nth_error l a = Some x).
  { destruct (nth_error l a) eqn:E; [eauto|].
    apply nth_error_None in E. lia. }
  destruct G as (x & G).
  assert (E : getitem l (Z.of_nat a + Z.of_nat 0) = Ok x).
  { unfold getitem.
    replace (Z.of_nat a + Z.of_nat 0)%Z with (Z.of_nat a) by lia.
    destruct (Z.ltb_spec (Z.of_nat a) 0); [lia|].
    destruct (Z.ltb_spec (Z.of_nat a) 0); [lia|].
    now rewrite Nat2Z.id, G. }
  rewrite E. cbn [bind].
  assert (M : map (fun k => (Z.of_nat a + Z.of_nat (S k))%Z) (List.seq 0 m)
              = map (fun k => (Z.of_nat (S a) + Z.of_nat k)%Z) (List.seq 0 m)).
  { apply map_ext. intros k. lia. }
  rewrite M, (IH (S a)) by lia. cbn [bind].
  now rewrite (skipn_nth _ _ _ G).
Qed.

Lemma range_read (l : list pystr) a n :
  (0 <= a)%Z -> (0 <= n)%Z ->
  mapM (getitem l) (range a (Z.min (a + n) (len l)))
  = Ok (firstn (Z.to_nat n) (skipn (Z.to_nat a) l)).
Proof.
  intros Ha Hn. unfold range, len.
  set (N := length l).
  set (m := Z.to_nat (Z.min (a + n) (Z.of_nat N) - a)).
  assert (M : map (fun k => (a + Z.of_nat k)%Z) (List.seq 0 m)
              = map (fun k => (Z.of_nat (Z.to_nat a) + Z.of_nat k)%Z)
                    (List.seq 0 m)).
  { apply map_ext. intros k. lia. }
  rewrite M.
  destruct (Nat.le_gt_cases N (Z.to_nat a)) as [Far|Near].
  - replace m with 0 by lia. cbn.
    rewrite skipn_all2 by (fold N; lia). now rewrite firstn_nil.
  - rewrite mapM_getitem_run by (fold N; lia). f_equal.
    destruct (Nat.le_gt_cases (Z.to_nat n) (N - Z.to_nat a)).
    + replace m with (Z.to_nat n) by lia. reflexivity.
    + replace m with (N - Z.to_nat a) by lia.
      rewrite !firstn_all2; auto; rewrite length_skipn; fold N; lia.
Qed.

(** The lines the loop reads are the window. *)
Lemma window_read all_lines i :
  (0 <= i)%Z ->
  mapM (getitem all_lines)
       (range (i + 1) (Z.min (i + 10) (len all_lines)))
  = Ok (window all_lines i).
Proof.
  intros Hi. replace (i + 10)%Z with (i + 1 + 9)%Z by lia.
  now rewrite range_read by lia.
Qed.

Lemma description_loop_reads all_lines : forall indices lines parts found,
  mapM (getitem all_lines) indices = Ok lines ->
  description_loop all_lines indices parts found
  = Ok (loop_over lines parts found).
Proof.
  induction indices as [|i rest IH]; intros lines parts found H;
    cbn [mapM] in H.
  - inversion H; subst. reflexivity.
  - inv_bind H. inv_bind H. inversion H; subst; clear H.
    cbn [description_loop loop_over]. rewrite E. cbn [bind]. fold (clean a).
    destruct (startswith "D:" (clean a)); [now apply IH|].
    destruct found.
    + destruct (startswith "SP " (clean a) || startswith "L:" (clean a));
        [reflexivity | now apply IH].
    + destruct (startswith "SP " (clean a)); [reflexivity | now apply IH].
Qed.

Lemma loop_over_found : forall lines parts,
  loop_over lines parts true
  = parts ++ map fragment (block (map clean lines)).
Proof.
  induction lines as [|l rest IH]; intros parts; cbn [loop_over map block].
  - now rewrite app_nil_r.
  - assert (F : fragment (clean l)
               = if startswith "D:" (clean l)
                 then strip (skipn 2 (clean l)) else clean l)
      by reflexivity.
    destruct (startswith "D:" (clean l)) eqn:D.
    + rewrite IH, <- app_assoc. cbn [map app]. now rewrite F.
    + destruct (startswith "SP " (clean l) || startswith "L:" (clean l)).
      * now rewrite app_nil_r.
      * rewrite IH, <- app_assoc. cbn [map app]. now rewrite F.
Qed.

Lemma loop_over_fresh : forall lines,
  loop_over lines [] false
  = map fragment (block (reach_block (map clean lines))).
Proof.
  induction lines as [|l rest IH]; cbn [loop_over map reach_block];
    [reflexivity|].
  destruct (startswith "D:" (clean l)) eqn:D.
  - rewrite loop_over_found. cbn [block app map]. rewrite D.
    cbn [map]. f_equal. unfold fragment. now rewrite D.
  - destruct (startswith "SP " (clean l)); [reflexivity | exact IH].
Qed.

(** C8, as claimed: a second [D:] line is not appended as it is; its
    marker goes as well.  (The lines of this document have no blanks at
    either end and no null bytes, so trimming plays no part.) *)
Lemma C8_later_D_lines_lose_their_marker :
  _extract_description_for_trade option_lines 0
    <> Ok (claimed_description option_lines 0).
Proof. vm_compute. discriminate. Qed.

(** C8, amended: for a trade at index [i >= 0] the description is built
    from at most nine lines after it, each trimmed of blanks and null
    bytes: lines before the first [D:] line are passed over (a line that
    starts with [SP ] there ends the scan with the empty string); from
    the first [D:] line on, every line that starts with [D:] gives its
    remainder, trimmed, every other line is taken as trimmed, and a line
    that starts with [SP ] or [L:] ends the scan; the fragments are
    joined by single spaces, and the result is empty when no [D:] line
    is reached. *)
Theorem C8_description_is_the_D_block all_lines i :
  (0 <= i)%Z ->
  _extract_description_for_trade all_lines i
  = Ok (description_spec all_lines i).
Proof.
  intros Hi. unfold _extract_description_for_trade, description_spec.
  destruct all_lines as [|l0 ls].
  { unfold window. now rewrite skipn_nil, firstn_nil. }
  cbn [truthy negb].
  rewrite (description_loop_reads _ _ _ _ _ (window_read _ _ Hi)).
  cbn [bind]. now rewrite loop_over_fresh.
Qed.

Lemma C8_description_is_the_D_block_witness :
  (0 <= 0)%Z /\
  _extract_description_for_trade option_lines 0
  = Ok (description_spec option_lines 0).
Proof.
  assert (H : (0 <= 0)%Z) by discriminate.
  exact (conj H (C8_description_is_the_D_block option_lines 0 H)).
Defined.

(** ** The fuel of a repetition is enough

    A repetition is given as many iterations as there are characters
    after the cursor.  Its body consumes a character in every pattern of
    the parser, and then more fuel changes nothing. *)

Lemma source_patterns_consume : forallb reps_consume source_patterns = true.
Proof. reflexivity. Qed.

Lemma rep_loop_ext step k1 k2 lo hi gr bound :
  (forall c g j1 j2, length (after c) <= bound ->
     agree_below (length (after c)) j1 j2 -> step c g j1 = step c g j2) ->
  agree_below bound k1 k2 ->
  forall fuel n c g, length (after c) <= bound ->
    rep_loop step k1 lo hi gr fuel n c g = rep_loop step k2 lo hi gr fuel n c g.
Proof.
  intros Hs Hk. induction fuel as [|fuel IH]; intros n c g Hc; cbn [rep_loop].
  - now rewrite (Hk c g Hc).
  - assert (E : step c g (rep_loop step k1 lo hi gr fuel (S n))
              = step c g (rep_loop step k2 lo hi gr fuel (S n))).
    { apply Hs; [exact Hc|]. intros c' g' Hc'. apply IH. lia. }
    now rewrite E, (Hk c g Hc).
Qed.

(** A pattern only calls its continuation at or after its own cursor. *)
Lemma run_ext r : forall c g k1 k2,
  agree_below (length (after c)) k1 k2 -> run r c g k1 = run r c g k2.
Proof.
  induction r as [|p|r1 IH1 r2 IH2|lo hi gr r1 IH1|i r1 IH1|];
    intros c g k1 k2 H; cbn [run].
  - now apply H.
  - destruct c as [b [|a s]]; cbn [after before]; [reflexivity|].
    destruct (p a); [|reflexivity]. apply H. cbn. lia.
  - apply IH1. intros c' g' Hc'. apply IH2.
    intros c2 g2 Hc2. apply H. lia.
  - apply rep_loop_ext with (bound := length (after c));
      [intros c' g' j1 j2 _ Hj; now apply IH1 | exact H | lia].
  - apply IH1. intros c' g' Hc'. now apply H.
  - destruct (at_word_boundary c); [now apply H | reflexivity].
Qed.

Lemma rep_loop_under step k1 k2 lo hi gr bound :
  (forall c g j1 j2, length (after c) <= bound ->
     agree_under (length (after c)) j1 j2 -> step c g j1 = step c g j2) ->
  0 < lo ->
  agree_under bound k1 k2 ->
  forall fuel n c g, length (after c) <= bound ->
    (n = 0 \/ length (after c) < bound) ->
    rep_loop step k1 lo hi gr fuel n c g = rep_loop step k2 lo hi gr fuel n c g.
Proof.
  intros Hs Hlo Hk. induction fuel as [|fuel IH]; intros n c g Hc Hn;
    cbn [rep_loop].
  - destruct (Nat.leb_spec lo n); [|reflexivity]. apply Hk. lia.
  - assert (E : step c g (rep_loop step k1 lo hi gr fuel (S n))
              = step c g (rep_loop step k2 lo hi gr fuel (S n))).
    { apply Hs; [exact Hc|]. intros c' g' Hc'. apply IH; lia. }
    rewrite E. destruct (Nat.ltb_spec n lo); [reflexivity|].
    now rewrite (Hk c g) by lia.
Qed.

(** A consuming pattern only calls its continuation after its cursor. *)
Lemma run_under r : consuming r = true -> forall c g k1 k2,
  agree_under (length (after c)) k1 k2 -> run r c g k1 = run r c g k2.
Proof.
  induction r as [|p|r1 IH1 r2 IH2|lo hi gr r1 IH1|i r1 IH1|];
    cbn [consuming]; intros Hr c g k1 k2 H; cbn [run]; try discriminate.
  - destruct c as [b [|a s]]; cbn [after before]; [reflexivity|].
    destruct (p a); [|reflexivity]. apply H. cbn. lia.
  - destruct (consuming r1) eqn:C1.
    + apply IH1; [reflexivity|]. intros c' g' Hc'. apply run_ext.
      intros c2 g2 Hc2. apply H. lia.
    + cbn in Hr. apply run_ext. intros c' g' Hc'. apply IH2; [exact Hr|].
      intros c2 g2 Hc2. apply H. lia.
  - apply andb_true_iff in Hr as [Hlo Hr]. apply Nat.ltb_lt in Hlo.
    apply rep_loop_under with (bound := length (after c));
      [intros c' g' j1 j2 _ Hj; now apply IH1 | exact Hlo | exact H | lia
      | now left].
  - apply IH1; [exact Hr|]. intros c' g' Hc'. now apply H.
Qed.

Lemma run_fails r : forall c g, run r c g (fun _ _ => None) = None.
Proof.
  induction r as [|p|r1 IH1 r2 IH2|lo hi gr r1 IH1|i r1 IH1|];
    intros c g; cbn [run]; auto.
  - destruct (after c) as [|a s]; [reflexivity|]. now destruct (p a).
  - rewrite (run_ext r1 c g _ (fun _ _ => None)); [apply IH1|].
    intros c' g' _. apply IH2.
  - assert (L : forall fuel n c' g',
      rep_loop (run r1) (fun _ _ => None) lo hi gr fuel n c' g' = None).
    { induction fuel as [|fuel IH]; intros n c' g'; cbn [rep_loop].
      - now destruct (lo <=? n).
      - rewrite (run_ext r1 c' g' _ (fun _ _ => None))
          by (intros ? ? _; apply IH).
        rewrite IH1. destruct (n <? lo); [reflexivity|].
        destruct (negb (below hi n)); [reflexivity|]. now destruct gr. }
    apply L.
  - now destruct (at_word_boundary c).
Qed.

(** A consuming pattern fails at the end of the subject. *)
Lemma run_at_end r b g k :
  consuming r = true -> run r (Cursor b []) g k = None.
Proof.
  intros Hr. rewrite (run_under r Hr _ g k (fun _ _ => None)).
  - apply run_fails.
  - intros c' g' Hc'. cbn in Hc'. lia.
Qed.

(** With a consuming body, any fuel from the number of characters left
    upward gives the same result. *)
Theorem fuel_is_enough r1 k lo hi gr :
  consuming r1 = true ->
  forall fuel1 fuel2 n c g,
    length (after c) <= fuel1 -> length (after c) <= fuel2 ->
    rep_loop (run r1) k lo hi gr fuel1 n c g
    = rep_loop (run r1) k lo hi gr fuel2 n c g.
Proof.
  intros Hr.
  assert (End : forall fuel n b g,
    rep_loop (run r1) k lo hi gr fuel n (Cursor b []) g
    = if lo <=? n then k (Cursor b []) g else None).
  { intros [|fuel] n b g; cbn [rep_loop]; [reflexivity|].
    rewrite (run_at_end r1 b g _ Hr).
    destruct (Nat.ltb_spec n lo), (Nat.leb_spec lo n); try lia; auto.
    destruct (negb (below hi n)); [reflexivity|].
    destruct gr; [reflexivity|]. now destruct (k (Cursor b []) g). }
  induction fuel1 as [|f1 IH]; intros fuel2 n c g H1 H2.
  - destruct c as [b [|a s]]; [|cbn in H1; lia]. now rewrite !End.
  - destruct fuel2 as [|f2].
    + destruct c as [b [|a s]]; [|cbn in H2; lia]. now rewrite !End.
    + cbn [rep_loop].
      assert (E : run r1 c g (rep_loop (run r1) k lo hi gr f1 (S n))
                = run r1 c g (rep_loop (run r1) k lo hi gr f2 (S n))).
      { apply run_under; [exact Hr|]. intros c' g' Hc'. apply IH; lia. }
      now rewrite E.
Qed.

(** ** The ticker on the next line *)

Lemma trade_type_total all_lines i :
  (0 <= i)%Z ->
  exists ty, _determine_trade_type_from_ptr_context all_lines i = Ok ty.
Proof.
  intros Hi. unfold _determine_trade_type_from_ptr_context.
  destruct (negb (truthy all_lines)); [eauto|].
  rewrite range_read by lia. cbn [bind].
  destruct (any_in option_keywords _); [|eauto].
  destruct (contains "CALL" _); [eauto|].
  destruct (contains "PUT" _); eauto.
Qed.

Lemma description_total all_lines i :
  (0 <= i)%Z ->
  exists d, _extract_description_for_trade all_lines i = Ok d.
Proof.
  intros Hi. unfold _extract_description_for_trade.
  destruct (negb (truthy all_lines)); [eauto|].
  rewrite (description_loop_reads _ _ _ _ _ (window_read _ _ Hi)).
  cbn [bind]. eauto.
Qed.

(** At an index that is not negative, the end the shapes share builds
    its record. *)
Lemma ptr_trade_total line all_lines i asset tk ac d1 d2 am :
  (0 <= i)%Z ->
  exists t,
    ptr_trade line all_lines i asset tk ac d1 d2 am = Ok (Some t) /\
    field_is "ticker" tk t /\ field_is "amount_range" am t.
Proof.
  intros Hi. unfold ptr_trade.
  destruct (trade_type_total all_lines i Hi) as (ty & ->). cbn [bind].
  destruct (is_option ty).
  - destruct (description_total all_lines i Hi) as (d & ->). cbn [bind].
    eexists. repeat split.
  - cbn [bind]. eexists. repeat split.
Qed.

Lemma getitem_has_next all_lines i next_line :
  (0 <= i)%Z -> getitem all_lines (i + 1) = Ok next_line ->
  has_next all_lines i = true.
Proof.
  intros Hi. unfold getitem, has_next, len.
  destruct (Z.ltb_spec (i + 1) 0); [lia|].
  destruct (Z.ltb_spec (i + 1) 0); [lia|].
  destruct (nth_error all_lines (Z.to_nat (i + 1))) eqn:E; [|discriminate].
  intros _.
  assert (L : Z.to_nat (i + 1) < length all_lines)
    by (apply nth_error_Some; congruence).
  destruct all_lines; [cbn in L; lia|]. cbn [truthy andb].
  apply Z.ltb_lt. lia.
Qed.

(** C3. In the shape with the ticker on the next line the dollar token
    of the next line is appended whether or not the amount of the line
    ends in a dangling dash.  ["SP WIDGET CO P 03/01/2024 03/05/2024
    $1,001"] followed by ["(WDG) $15,000"] gives the ticker ["WDG"] and
    the amount ["$1,001 $15,000"], where the claim leaves the whole
    amount ["$1,001"] unchanged; and a range that is whole on the line,
    ["$1,001 - $15,000"], followed by ["(WDG) $9"], gives
    ["$1,001 - $9"].  The single-line shape asks for the dash before it
    looks at the next line: the same whole amount there stays
    ["$1,001"].  The example of the claim, with its dangling dash,
    gives what the claim says. *)
Theorem C3_next_dollar_token_is_appended_without_a_dash :
  (exists t,
     _parse_text_for_trades (document [widget_whole_line; wdg_line])
     = Ok [t] /\
     field_is "ticker" "WDG" t /\
     field_is "amount_range" "$1,001 $15,000" t) /\
  (exists t,
     _parse_trade_line widget_range_line [widget_range_line; wdg_nine_line] 0
     = Ok (Some t) /\
     field_is "ticker" "WDG" t /\
     field_is "amount_range" "$1,001 - $9" t) /\
  (exists t,
     _parse_trade_line widget_single_line [widget_single_line; dollar_line] 0
     = Ok (Some t) /\
     field_is "amount_range" "$1,001" t) /\
  (exists t,
     _parse_text_for_trades (document [widget_line; wdg_line]) = Ok [t] /\
     field_is "ticker" "WDG" t /\
     field_is "amount_range" "$1,001 - $15,000" t).
Proof.
  repeat split; eexists; repeat split; vm_compute; reflexivity.
Qed.

(** The example of the claim: ticker ["WDG"], amount ["$1,001 - $15,000"]. *)
Lemma widget_example :
  exists t,
    _parse_text_for_trades (document [widget_line; wdg_line]) = Ok [t] /\
    field_is "ticker" "WDG" t /\
    field_is "amount_range" "$1,001 - $15,000" t.
Proof. eexists; repeat split; vm_compute; reflexivity. Qed.

(** * The rest of the parser and its consumers *)

(** ** The classifier and the extractor read the same shapes *)

Lemma succeeds_orelse {A} (x y : option A) :
  succeeds (match x with Some res => Some res | None => y end)
  = succeeds x || succeeds y.
Proof. now destruct x. Qed.

Lemma rep_loop_erase step step' k k' lo hi gr :
  (forall c g g' j j',
     (forall c1 g1 g1', succeeds (j c1 g1) = succeeds (j' c1 g1')) ->
     succeeds (step c g j) = succeeds (step' c g' j')) ->
  (forall c g g', succeeds (k c g) = succeeds (k' c g')) ->
  forall fuel n c g g',
    succeeds (rep_loop step k lo hi gr fuel n c g)
    = succeeds (rep_loop step' k' lo hi gr fuel n c g').
Proof.
  intros Hs Hk. induction fuel as [|fuel IH]; intros n c g g'; cbn [rep_loop].
  - destruct (lo <=? n); [apply Hk | reflexivity].
  - assert (E : succeeds (step c g (rep_loop step k lo hi gr fuel (S n)))
              = succeeds (step' c g' (rep_loop step' k' lo hi gr fuel (S n))))
      by (apply Hs; intros; apply IH).
    destruct (n <? lo); [exact E|].
    destruct (negb (below hi n)); [apply Hk|].
    destruct gr; rewrite !succeeds_orelse, E, (Hk c g g'); reflexivity.
Qed.

(** Whether a pattern matches does not depend on its groups. *)
Lemma run_erase r : forall c g g' k k',
  (forall c1 g1 g1', succeeds (k c1 g1) = succeeds (k' c1 g1')) ->
  succeeds (run r c g k) = succeeds (run (erase r) c g' k').
Proof.
  induction r as [|p|r1 IH1 r2 IH2|lo hi gr r1 IH1|i r1 IH1|];
    intros c g g' k k' H; cbn [run erase].
  - apply H.
  - destruct (after c) as [|a s]; [reflexivity|].
    destruct (p a); [apply H | reflexivity].
  - apply IH1. intros. apply IH2. exact H.
  - apply rep_loop_erase; [|exact H]. intros. now apply IH1.
  - apply IH1. intros. apply H.
  - destruct (at_word_boundary c); [apply H | reflexivity].
Qed.

Lemma search_from_same r r' :
  (forall c, succeeds (run r c [] accept) = succeeds (run r' c [] accept)) ->
  forall s b, matched (search_from r b s) = matched (search_from r' b s).
Proof.
  intros H. induction s as [|a s IH]; intros b; cbn [search_from];
    unfold match_at.
  - pose proof (H (Cursor b [])) as E.
    destruct (run r (Cursor b []) [] accept) as [[? ?]|],
             (run r' (Cursor b []) [] accept) as [[? ?]|];
      try discriminate E; reflexivity.
  - pose proof (H (Cursor b (a :: s))) as E.
    destruct (run r (Cursor b (a :: s)) [] accept) as [[? ?]|],
             (run r' (Cursor b (a :: s)) [] accept) as [[? ?]|];
      try discriminate E; try reflexivity; apply IH.
Qed.

Lemma re_search_erase r r' :
  (forall c k, run (erase r) c [] k = run r' c [] k) ->
  forall s, matched (re_search r' s) = matched (re_search r s).
Proof.
  intros H s. unfold re_search. apply search_from_same. intros c.
  rewrite <- H. symmetry. now apply run_erase.
Qed.

(** Each shape of the classifier matches exactly the lines the shape of
    the extractor with the same number matches. *)
Theorem classifier_and_extractor_shapes_agree line :
  matched (re_search ptr_pattern1 line) = matched (re_search pattern line) /\
  matched (re_search ptr_pattern2 line) = matched (re_search pattern2 line) /\
  matched (re_search ptr_pattern3 line) = matched (re_search pattern3 line).
Proof.
  repeat split; apply re_search_erase; intros c k; reflexivity.
Qed.

(** ** When the structural extractor gives a record *)

Lemma has_next_getitem all_lines i :
  (0 <= i)%Z -> has_next all_lines i = true ->
  exists next_line, getitem all_lines (i + 1) = Ok next_line.
Proof.
  intros Hi H. unfold has_next in H. apply andb_true_iff in H as [_ H].
  apply Z.ltb_lt in H. unfold len in H. unfold getitem.
  destruct (Z.ltb_spec (i + 1) 0); [lia|].
  destruct (Z.ltb_spec (i + 1) 0); [lia|].
  destruct (nth_error all_lines (Z.to_nat (i + 1))) eqn:E; [eauto|].
  apply nth_error_None in E. lia.
Qed.

Lemma completed_total amount next_line :
  exists whole, completed amount next_line = Ok whole.
Proof.
  unfold completed. destruct (re_search dollar_re next_line) as [dm|] eqn:D;
    [|eauto].
  destruct (dollar_re_captures _ _ D) as (d & Cd).
  rewrite (group_of_caps _ _ _ Cd). cbn. eauto.
Qed.

Lemma shape1_total m line all_lines i :
  re_search pattern line = Some m -> (0 <= i)%Z ->
  exists t, shape1 m line all_lines i = Ok (Some t).
Proof.
  intros Hm Hi.
  destruct (pattern_captures _ _ Hm)
    as (asset & tk & ac & d1 & d2 & am & C & _).
  unfold shape1. rewrite !(group_of_caps _ _ _ C).
  cbn [lookup Nat.eqb as_str bind].
  assert (A : exists whole,
    (if endswith "-" (strip am) && has_next all_lines i
     then next_line <- getitem all_lines (i + 1) ;; completed am next_line
     else Ok (strip am)) = Ok whole).
  { destruct (endswith "-" (strip am)); cbn [andb]; [|eauto].
    destruct (has_next all_lines i) eqn:N; [|eauto].
    destruct (has_next_getitem _ _ Hi N) as (next_line & ->). cbn [bind].
    apply completed_total. }
  destruct A as (whole & ->). cbn [bind].
  destruct (ptr_trade_total line all_lines i asset (strip tk) ac d1 d2 whole Hi)
    as (t & -> & _). eauto.
Qed.

Lemma shape3_total m line all_lines i :
  re_search pattern3 line = Some m -> (0 <= i)%Z ->
  has_next all_lines i = true ->
  exists t,
    shape3 m line all_lines i = Ok (Some t) /\ field_is "ticker" "N/A" t.
Proof.
  intros Hm Hi N.
  destruct (pattern3_captures _ _ Hm) as (asset & ac & d1 & d2 & am & C & _).
  unfold shape3. rewrite !(group_of_caps _ _ _ C).
  cbn [lookup Nat.eqb as_str bind].
  assert (A : exists whole,
    (if contains " - " am || contains " -$" am then Ok (strip am)
     else next_line <- getitem all_lines (i + 1) ;; completed am next_line)
    = Ok whole).
  { destruct (contains " - " am || contains " -$" am); [eauto|].
    destruct (has_next_getitem _ _ Hi N) as (next_line & ->). cbn [bind].
    apply completed_total. }
  destruct A as (whole & ->). cbn [bind].
  destruct (ptr_trade_total line all_lines i asset (lit "N/A") ac d1 d2 whole
              Hi)
    as (t & -> & Ft & _). eauto.
Qed.

Lemma shape2_result m line all_lines i next_line :
  re_search pattern2 line = Some m -> (0 <= i)%Z ->
  getitem all_lines (i + 1) = Ok next_line ->
  if matched (re_search ticker_re next_line)
  then exists t, shape2 m line all_lines i = Ok (Some (Some t))
  else shape2 m line all_lines i = Ok None.
Proof.
  intros Hm Hi Hn.
  destruct (pattern2_captures _ _ Hm) as (asset & ac & d1 & d2 & am & C & _).
  unfold shape2. rewrite !(group_of_caps _ _ _ C).
  cbn [lookup Nat.eqb as_str bind]. rewrite Hn. cbn [bind].
  destruct (re_search ticker_re next_line) as [tm|] eqn:T; cbn [matched];
    [|reflexivity].
  destruct (ticker_re_captures _ _ T) as (tk & Ct & _).
  rewrite (group_of_caps _ _ _ Ct). cbn [lookup Nat.eqb as_str bind].
  destruct (completed_total am next_line) as (whole & ->). cbn [bind].
  destruct (ptr_trade_total line all_lines i asset (strip tk) ac d1 d2 whole Hi)
    as (t & -> & _). cbn [bind]. eauto.
Qed.

Lemma ptr_record_iff line all_lines i next_line :
  (0 <= i)%Z -> getitem all_lines (i + 1) = Ok next_line ->
  (exists t, _parse_ptr_trade_line line all_lines i = Ok (Some t)) <->
  matched (re_search pattern line)
  || matched (re_search pattern3 line)
  || (matched (re_search pattern2 line)
      && matched (re_search ticker_re next_line)) = true.
Proof.
  intros Hi Hn. pose proof (getitem_has_next _ _ _ Hi Hn) as N.
  unfold _parse_ptr_trade_line, try_shape2, try_shape3. rewrite N.
  destruct (re_search pattern line) as [m1|] eqn:P1; cbn [matched orb].
  { destruct (shape1_total m1 line all_lines i P1 Hi) as (t & ->).
    cbn. split; eauto. }
  assert (S3 : forall m3, re_search pattern3 line = Some m3 ->
            exists t, try_except (shape3 m3 line all_lines i)
                        (fun _ => Ok None) = Ok (Some t)).
  { intros m3 P3. destruct (shape3_total m3 line all_lines i P3 Hi N)
      as (t & -> & _). cbn. eauto. }
  destruct (re_search pattern2 line) as [m2|] eqn:P2; cbn [matched andb].
  - pose proof (shape2_result m2 line all_lines i next_line P2 Hi Hn) as R.
    destruct (matched (re_search ticker_re next_line)).
    + destruct R as (t & ->). cbn. rewrite orb_true_r. split; eauto.
    + rewrite R. cbn [bind]. rewrite orb_false_r.
      destruct (re_search pattern3 line) as [m3|] eqn:P3; cbn [matched].
      * split; [reflexivity | intros _; now apply S3].
      * cbn. split; [intros (t & H); discriminate H | discriminate].
  - rewrite orb_false_r.
    destruct (re_search pattern3 line) as [m3|] eqn:P3; cbn [matched].
    + split; [reflexivity | intros _; now apply S3].
    + cbn. split; [intros (t & H); discriminate H | discriminate].
Qed.



(** Without a line after it, only the single-line form gives a record,
    at any index that is not negative. *)
Theorem structural_record_without_next_line line all_lines i :
  (0 <= i)%Z -> (len all_lines <= i + 1)%Z ->
  (exists t, _parse_ptr_trade_line line all_lines i = Ok (Some t)) <->
  matched (re_search pattern line) = true.
Proof.
  intros Hi L.
  destruct (re_search pattern line) as [m1|] eqn:P1; cbn [matched].
  - unfold _parse_ptr_trade_line. rewrite P1.
    destruct (shape1_total m1 line all_lines i P1 Hi) as (t & ->).
    cbn. split; eauto.
  - unfold _parse_ptr_trade_line, try_shape2, try_shape3.
    rewrite P1, (no_next _ _ L).
    destruct (re_search pattern2 line), (re_search pattern3 line); cbn;
      (split; [intros (t & H); discriminate H | discriminate]).
Qed.

Lemma structural_record_without_next_line_witness :
  (0 <= 0)%Z /\ (len [amazon_line] <= 0 + 1)%Z /\
  ((exists t, _parse_ptr_trade_line amazon_line [amazon_line] 0
              = Ok (Some t)) <->
   matched (re_search pattern amazon_line) = true).
Proof.
  assert (H0 : (0 <= 0)%Z) by discriminate.
  assert (H1 : (len [amazon_line] <= 0 + 1)%Z) by discriminate.
  exact (conj H0 (conj H1
    (structural_record_without_next_line amazon_line [amazon_line] 0 H0 H1))).
Defined.

(** ** The kind of a trade *)

Lemma upper_app s t : upper (s ++ t) = upper s ++ upper t.
Proof. apply map_app. Qed.

Lemma upper_join_space ls : upper (join " " ls) = join " " (map upper ls).
Proof.
  induction ls as [|l [|l' ls] IH]; try reflexivity.
  change (join " " (l :: l' :: ls)) with (l ++ lit " " ++ join " " (l' :: ls)).
  rewrite !upper_app, IH. reflexivity.
Qed.

Lemma startswith_app_sep k c : ~ In c k -> forall x rest,
  startswith k (x ++ c :: rest) = startswith k x.
Proof.
  induction k as [|b k IH]; intros Hc x rest; [now destruct x|].
  destruct x as [|a x]; cbn [app startswith].
  - destruct (Ascii.eqb_spec b c) as [->|]; [|reflexivity].
    exfalso. apply Hc. now left.
  - rewrite IH; [reflexivity|]. intros H. apply Hc. now right.
Qed.

(** A keyword without the separator in it is found in two joined texts
    when it is found in one of them. *)
Lemma contains_app_sep k c : ~ In c k -> forall p rest,
  contains k (p ++ c :: rest) = contains k p || contains k rest.
Proof.
  intros Hc. induction p as [|a p IH]; intros rest.
  - pose proof (startswith_app_sep k c Hc [] rest) as E.
    cbn [app] in *. cbn [contains]. rewrite E. now rewrite orb_false_r.
  - pose proof (startswith_app_sep k c Hc (a :: p) rest) as E.
    cbn [app] in *. cbn [contains]. rewrite E, IH. now rewrite orb_assoc.
Qed.

Lemma contains_join_space k ls :
  k <> [] -> ~ In " "%char k ->
  contains k (join " " ls) = existsb (contains k) ls.
Proof.
  intros Hk Hs. induction ls as [|l [|l' ls] IH].
  - destruct k; [contradiction | reflexivity].
  - cbn. now rewrite orb_false_r.
  - change (join " " (l :: l' :: ls))
      with (l ++ " "%char :: join " " (l' :: ls)).
    rewrite (contains_app_sep k _ Hs), IH. reflexivity.
Qed.

Lemma keyword_in_window k ls :
  k <> [] -> ~ In " "%char k ->
  contains k (upper (join " " ls)) = some_line_has k ls.
Proof.
  intros Hk Hs. rewrite upper_join_space, (contains_join_space k _ Hk Hs).
  unfold some_line_has. induction ls as [|l ls IH]; [reflexivity|].
  cbn [map existsb]. now rewrite IH.
Qed.

Lemma trade_type_reads_window asset_name all_lines i :
  (0 <= i)%Z ->
  _determine_trade_type_from_ptr_context all_lines i
  = Ok (_determine_trade_type_from_context asset_name
          (join " " (context_window all_lines i))).
Proof.
  intros Hi. unfold _determine_trade_type_from_ptr_context,
    _determine_trade_type_from_context, context_window.
  destruct all_lines as [|l0 ls]; cbn [truthy negb].
  - now rewrite skipn_nil, firstn_nil.
  - rewrite range_read by lia. cbn [bind].
    change (Z.to_nat 5) with 5.
    destruct (any_in option_keywords _); [|reflexivity].
    destruct (contains "CALL" _); [reflexivity|].
    now destruct (contains "PUT" _).
Qed.

(** At an index that is not negative, the resolver of the structural
    path reads the line and the four after it, and decides as
    [_determine_trade_type_from_context] does on their text. *)
Theorem trade_type_of_the_window asset_name all_lines i :
  (0 <= i)%Z ->
  _determine_trade_type_from_ptr_context all_lines i
  = Ok (_determine_trade_type_from_context asset_name
          (join " " (context_window all_lines i))).
Proof. apply trade_type_reads_window. Qed.

Lemma trade_type_of_the_window_witness :
  (0 <= 0)%Z /\
  _determine_trade_type_from_ptr_context option_lines 0
  = Ok (_determine_trade_type_from_context "NVIDIA CORP"
          (join " " (context_window option_lines 0))).
Proof.
  assert (H : (0 <= 0)%Z) by discriminate.
  exact (conj H (trade_type_of_the_window "NVIDIA CORP" option_lines 0 H)).
Defined.

(** Line by line: the kind is a call when one of the five lines reads
    CALL, else a put when one reads PUT, else a call when one reads
    OPTION, STRIKE or EXPIRATION, and a stock trade only when none of the
    five lines has any of these words (in any case, as parts of longer
    words too). *)
Theorem trade_type_line_by_line all_lines i :
  (0 <= i)%Z ->
  let w := context_window all_lines i in
  _determine_trade_type_from_ptr_context all_lines i
  = Ok (if some_line_has "CALL" w then OPTION_CALL
        else if some_line_has "PUT" w then OPTION_PUT
        else if some_line_has "OPTION" w || some_line_has "STRIKE" w
                || some_line_has "EXPIRATION" w
             then OPTION_CALL
             else STOCK).
Proof.
  intros Hi w. rewrite (trade_type_reads_window [] _ _ Hi). fold w.
  unfold _determine_trade_type_from_context, any_in, option_keywords, lits.
  cbn [map existsb].
  rewrite !keyword_in_window
    by (try discriminate; cbn; intuition discriminate).
  rewrite orb_false_r.
  destruct (some_line_has "CALL" w); [reflexivity|].
  destruct (some_line_has "PUT" w); [reflexivity|]. cbn [orb].
  now rewrite !orb_assoc.
Qed.

Lemma trade_type_line_by_line_witness :
  (0 <= 0)%Z /\
  let w := context_window option_lines 0 in
  _determine_trade_type_from_ptr_context option_lines 0
  = Ok (if some_line_has "CALL" w then OPTION_CALL
        else if some_line_has "PUT" w then OPTION_PUT
        else if some_line_has "OPTION" w || some_line_has "STRIKE" w
                || some_line_has "EXPIRATION" w
             then OPTION_CALL
             else STOCK).
Proof.
  assert (H : (0 <= 0)%Z) by discriminate.
  exact (conj H (trade_type_line_by_line option_lines 0 H)).
Defined.

(** ** Where a record comes from *)

(** Every record of the structural extractor is built by the end the
    shapes share. *)
Lemma ptr_built line all_lines i t :
  _parse_ptr_trade_line line all_lines i = Ok (Some t) ->
  exists asset tk ac d1 d2 am,
    ptr_trade line all_lines i asset tk ac d1 d2 am = Ok (Some t).
Proof.
  unfold _parse_ptr_trade_line. intros H. apply try_none_some in H.
  assert (S3 : try_shape3 line all_lines i = Ok (Some t) ->
               exists asset tk ac d1 d2 am,
                 ptr_trade line all_lines i asset tk ac d1 d2 am
                 = Ok (Some t)).
  { unfold try_shape3. destruct (re_search pattern3 line); [|discriminate].
    destruct (has_next all_lines i); [|discriminate].
    unfold shape3. intros E. do 6 inv_bind E. eauto 7. }
  destruct (re_search pattern line).
  - unfold shape1 in H. do 7 inv_bind H. eauto 7.
  - unfold try_shape2 in H.
    destruct (re_search pattern2 line); [|auto].
    destruct (has_next all_lines i); [|auto].
    inv_bind H. destruct a as [t'|]; [|auto].
    inversion H; subst; clear H.
    unfold shape2 in E. do 6 inv_bind E.
    destruct (re_search ticker_re _); [|discriminate].
    do 3 inv_bind E. inversion E; subst. eauto 7.
Qed.

Lemma ptr_trade_fields line all_lines i asset tk ac d1 d2 am t :
  ptr_trade line all_lines i asset tk ac d1 d2 am = Ok (Some t) ->
  exists ty d,
    _determine_trade_type_from_ptr_context all_lines i = Ok ty /\
    (if is_option ty
     then _extract_description_for_trade all_lines i = Ok d
     else d = []) /\
    field_is "trade_type" (value ty) t /\
    field_is "description" d t /\
    field_is "raw_line" (strip line) t.
Proof.
  unfold ptr_trade. intros H. inv_bind H. inv_bind H.
  inversion H; subst; clear H. exists a, a0.
  split; [exact E|]. split; [|repeat split].
  destruct (is_option a); [exact E0 | now inversion E0].
Qed.

(** The kind of a structural record is the one the resolver gives for its
    line; its description is the extracted one for an option and the
    empty string for a stock trade. *)
Theorem structural_kind_and_description line all_lines i t :
  _parse_ptr_trade_line line all_lines i = Ok (Some t) ->
  exists ty d,
    _determine_trade_type_from_ptr_context all_lines i = Ok ty /\
    (if is_option ty
     then _extract_description_for_trade all_lines i = Ok d
     else d = []) /\
    field_is "trade_type" (value ty) t /\
    field_is "description" d t.
Proof.
  intros H.
  destruct (ptr_built _ _ _ _ H) as (asset & tk & ac & d1 & d2 & am & B).
  destruct (ptr_trade_fields _ _ _ _ _ _ _ _ _ _ B)
    as (ty & d & T & D & F1 & F2 & _).
  eauto 6.
Qed.

Lemma structural_kind_and_description_witness :
  _parse_ptr_trade_line widget_line [widget_line; wdg_line] 0
    = Ok (Some widget_record) /\
  exists ty d,
    _determine_trade_type_from_ptr_context [widget_line; wdg_line] 0 = Ok ty /\
    (if is_option ty
     then _extract_description_for_trade [widget_line; wdg_line] 0 = Ok d
     else d = []) /\
    field_is "trade_type" (value ty) widget_record /\
    field_is "description" d widget_record.
Proof.
  assert (H : _parse_ptr_trade_line widget_line [widget_line; wdg_line] 0
              = Ok (Some widget_record)) by (vm_compute; reflexivity).
  exact (conj H (structural_kind_and_description _ _ _ _ H)).
Defined.

Lemma heuristic_raw_line line all_lines t :
  heuristic_form line all_lines t -> field_is "raw_line" (strip line) t.
Proof. intros (a & tk & ty & ac & d & -> & _). reflexivity. Qed.

(** The [raw_line] of a record is the line it was made from, trimmed. *)
Lemma record_raw_line line all_lines i t :
  _parse_trade_line line all_lines i = Ok (Some t) ->
  field_is "raw_line" (strip line) t.
Proof.
  intros H. pose proof H as H'.
  unfold _parse_trade_line in H. apply try_none_some in H. inv_bind H.
  destruct a as [t'|].
  - inversion H; subst.
    destruct (ptr_built _ _ _ _ E) as (asset & tk & ac & d1 & d2 & am & B).
    now destruct (ptr_trade_fields _ _ _ _ _ _ _ _ _ _ B)
      as (ty & d & _ & _ & _ & _ & R).
  - eauto using heuristic_raw_line, heuristic_trade_form.
Qed.

Lemma scan_sources lines : forall rest i out,
  scan lines i rest = Ok out ->
  exists srcs,
    subseq srcs (filter _is_trade_line rest) /\
    map (field "raw_line") out = map (fun l => Some (VStr (strip l))) srcs.
Proof.
  induction rest as [|line rest IH]; intros i out H; cbn [scan] in H.
  - inversion H; subst. exists []. split; [constructor | reflexivity].
  - cbn [filter]. destruct (_is_trade_line line) eqn:C; [|eauto].
    inv_bind H. inv_bind H. inversion H; subst; clear H.
    destruct (IH _ _ E0) as (srcs & S & M).
    destruct a as [t|].
    + exists (line :: srcs). split; [now constructor|].
      cbn [map]. rewrite M. f_equal. apply (record_raw_line _ _ _ _ E).
    + exists srcs. split; [now constructor | exact M].
Qed.

(** The records of a document come in the order of its lines: their
    [raw_line]s are, trimmed, candidate lines of the text, each used at
    most once and in the order of the text. *)
Theorem records_follow_the_lines text out :
  _parse_text_for_trades text = Ok out ->
  exists srcs,
    subseq srcs (filter _is_trade_line (split_lines text)) /\
    map (field "raw_line") out = map (fun l => Some (VStr (strip l))) srcs.
Proof. apply scan_sources. Qed.

Lemma records_follow_the_lines_witness :
  _parse_text_for_trades (document [widget_line; wdg_line])
    = Ok [widget_record] /\
  exists srcs,
    subseq srcs
      (filter _is_trade_line (split_lines (document [widget_line; wdg_line])))
    /\ map (field "raw_line") [widget_record]
       = map (fun l => Some (VStr (strip l))) srcs.
Proof.
  assert (E : _parse_text_for_trades (document [widget_line; wdg_line])
              = Ok [widget_record]) by (vm_compute; reflexivity).
  exact (conj E (records_follow_the_lines _ _ E)).
Defined.

(** ** The dates of the heuristic path *)

Lemma range_empty a b : (b <= a)%Z -> range a b = [].
Proof.
  intros H. unfold range. now replace (Z.to_nat (b - a)) with 0 by lia.
Qed.

Lemma date_window_read (all_lines : list pystr) i :
  mapM (getitem all_lines)
       (range (Z.max 0 (i - 2)) (Z.min (len all_lines) (i + 3)))
  = Ok (date_window all_lines i).
Proof.
  unfold date_window. set (lo := Z.max 0 (i - 2)).
  destruct (Z.le_gt_cases 0 (i + 3 - lo)) as [Hn|Hn].
  - replace (Z.min (len all_lines) (i + 3))
      with (Z.min (lo + (i + 3 - lo)) (len all_lines)) by lia.
    apply range_read; lia.
  - rewrite range_empty by lia.
    now replace (Z.to_nat (i + 3 - lo)) with 0 by lia.
Qed.

Lemma nearby_date_reads all_lines : forall indices lines,
  mapM (getitem all_lines) indices = Ok lines ->
  nearby_date all_lines indices = Ok (first_date lines).
Proof.
  induction indices as [|j rest IH]; intros lines H; cbn [mapM] in H.
  - now inversion H.
  - inv_bind H. inv_bind H. inversion H; subst; clear H.
    cbn [nearby_date first_date]. rewrite E. cbn [bind].
    destruct (find_date a); [reflexivity | now apply IH].
Qed.

Lemma transaction_date_reads line all_lines i :
  _extract_transaction_date line all_lines i
  = Ok (first_date (line :: date_window all_lines i)).
Proof.
  unfold _extract_transaction_date. cbn [first_date].
  destruct (find_date line); [reflexivity|].
  apply nearby_date_reads, date_window_read.
Qed.

(** The transaction date of the heuristic path, at any index, in range
    or not: the first date token of the line itself, else of the lines
    from two before the index to two after it, in the order of the
    document; ["Unknown"] when none has one.  No index raises. *)
Theorem transaction_date_is_the_first_date line all_lines i :
  _extract_transaction_date line all_lines i
  = Ok (first_date (line :: date_window all_lines i)).
Proof. apply transaction_date_reads. Qed.

Lemma firstn_10_app (l more : list pystr) :
  10 <= length l -> firstn 10 (l ++ more) = firstn 10 l.
Proof.
  intros H. rewrite firstn_app.
  replace (10 - length l) with 0 by lia. cbn [firstn]. apply app_nil_r.
Qed.

(** The filing date is read off the first ten lines only, from the
    first of them that has a filing keyword and a date token; it is a
    date string or ["Unknown"]. *)
Theorem filing_date_is_in_the_first_ten_lines all_lines more :
  10 <= length all_lines ->
  _extract_filing_date (all_lines ++ more) = _extract_filing_date all_lines /\
  _extract_filing_date all_lines
  = first_date (filter has_filing_keyword (firstn 10 all_lines)).
Proof.
  intros H. unfold _extract_filing_date. rewrite (firstn_10_app _ _ H).
  split; [reflexivity|].
  induction (firstn 10 all_lines) as [|l rest IH]; [reflexivity|].
  cbn [first_filing_date filter]. unfold has_filing_keyword at 1.
  destruct (any_in filing_keywords (upper l)); [|exact IH].
  cbn [first_date]. now rewrite IH.
Qed.

Lemma filing_date_is_in_the_first_ten_lines_witness :
  (10 <= length (repeat apple_line 10) /\
   _extract_filing_date [filed_line] = lit "01/15/2024" /\
   _extract_filing_date (repeat apple_line 10 ++ [filed_line])
   = lit "Unknown" /\
   _extract_filing_date (repeat apple_line 10 ++ [filed_line])
   = _extract_filing_date (repeat apple_line 10) /\
   _extract_filing_date (repeat apple_line 10)
   = first_date
       (filter has_filing_keyword (firstn 10 (repeat apple_line 10)))) /\
  (10 <= length (header_lines ++ repeat apple_line 6) /\
   _extract_filing_date (header_lines ++ repeat apple_line 6)
   = lit "01/15/2024" /\
   _extract_filing_date
     ((header_lines ++ repeat apple_line 6) ++ [report_line])
   = _extract_filing_date (header_lines ++ repeat apple_line 6) /\
   _extract_filing_date (header_lines ++ repeat apple_line 6)
   = first_date
       (filter has_filing_keyword
          (firstn 10 (header_lines ++ repeat apple_line 6)))).
Proof.
  assert (H : 10 <= length (repeat apple_line 10)) by (cbn; lia).
  assert (H' : 10 <= length (header_lines ++ repeat apple_line 6))
    by (cbn; lia).
  exact (conj
    (conj H (conj eq_refl (conj eq_refl
       (filing_date_is_in_the_first_ten_lines (repeat apple_line 10)
          [filed_line] H))))
    (conj H' (conj eq_refl
       (filing_date_is_in_the_first_ten_lines
          (header_lines ++ repeat apple_line 6) [report_line] H')))).
Defined.

(** ** The action of the heuristic path *)

Lemma any_in_action_keywords s :
  any_in action_keywords s = true ->
  any_in buy_keywords s = true \/ any_in sell_keywords s = true.
Proof.
  unfold any_in, action_keywords, buy_keywords, sell_keywords, lits.
  cbn [map existsb]. rewrite !orb_false_r.
  destruct (contains "BUY" s), (contains "SELL" s), (contains "PURCHASE" s),
    (contains "SALE" s), (contains "ACQUIRED" s), (contains "DISPOSED" s);
    cbn; auto; discriminate.
Qed.

(** A line the classifier accepts for its keywords always has an action
    for the heuristic path: the action words of the classifier are among
    those [_extract_action] knows. *)
Theorem keyword_candidate_has_an_action line :
  structural_line line = false -> _is_trade_line line = true ->
  exists action, _extract_action line = Some action /\ is_action action = true.
Proof.
  unfold structural_line, _is_trade_line. intros S H.
  apply orb_false_iff in S as [S S3]. apply orb_false_iff in S as [S1 S2].
  rewrite S1, S2, S3 in H.
  apply andb_true_iff in H as [H _]. apply andb_true_iff in H as [H _].
  unfold _extract_action.
  destruct (any_in_action_keywords _ H) as [B|B].
  - rewrite B. eauto.
  - rewrite B. destruct (any_in buy_keywords (upper line)); eauto.
Qed.

Lemma keyword_candidate_has_an_action_witness :
  structural_line apple_line = false /\ _is_trade_line apple_line = true /\
  exists action,
    _extract_action apple_line = Some action /\ is_action action = true.
Proof.
  assert (S : structural_line apple_line = false) by (vm_compute; reflexivity).
  assert (H : _is_trade_line apple_line = true) by (vm_compute; reflexivity).
  exact (conj S (conj H (keyword_candidate_has_an_action apple_line S H))).
Defined.

(** ** The asset of the heuristic path *)

Lemma iter_chars (P : ascii -> bool) (D : den) :
  (forall b w s g g', D b w s g g' -> forallb P w = true) ->
  forall n b w s g g', Iter D n b w s g g' -> forallb P w = true.
Proof.
  intros HD. induction n as [|n IH]; intros b w s g g' It; cbn [Iter] in It.
  - now destruct It as [-> _].
  - destruct It as (w1 & w2 & g1 & -> & D1 & It).
    rewrite forallb_app, (HD _ _ _ _ _ D1), (IH _ _ _ _ _ It). reflexivity.
Qed.

(** What a pattern consumes is made of the characters of its classes. *)
Lemma den_chars (P : ascii -> bool) r : classes_within P r ->
  forall b w s g g', Den r b w s g g' -> forallb P w = true.
Proof.
  induction r as [|p|r1 IH1 r2 IH2|lo hi gr r1 IH1|i r1 IH1|];
    cbn [classes_within]; intros C b w s g g' D; cbn [Den] in D.
  - now destruct D as [-> _].
  - destruct D as (a & -> & Hp & _). cbn. now rewrite (C _ Hp).
  - destruct C as [C1 C2]. destruct D as (w1 & w2 & g1 & -> & D1 & D2).
    rewrite forallb_app, (IH1 C1 _ _ _ _ _ D1), (IH2 C2 _ _ _ _ _ D2).
    reflexivity.
  - destruct D as (n & _ & It). eapply iter_chars; eauto.
  - destruct D as (g1 & D & _). eauto.
  - now destruct D as (-> & _).
Qed.

Lemma rev_head_app (p : ascii -> bool) (u v : pystr) :
  head_is p (rev v) = true -> head_is p (rev (u ++ v)) = true.
Proof.
  rewrite rev_app_distr. destruct (rev v); [discriminate|]. auto.
Qed.

Lemma capitals_end (lo : nat) b w s g g' :
  1 <= lo -> Den (at_least lo AZ) b w s g g' ->
  head_is is_AZ w = true /\ head_is is_AZ (rev w) = true /\ lo <= length w.
Proof.
  intros Hlo D. apply den_rep_chr in D as [[L _] F].
  assert (F' : forallb is_AZ (rev w) = true).
  { rewrite forallb_forall in *. intros a Ha. apply F. now apply in_rev. }
  assert (L' : length (rev w) = length w) by apply length_rev.
  destruct w as [|a w]; [cbn in L; lia|].
  destruct (rev (a :: w)) as [|c l]; [cbn in L'; lia|].
  cbn in F, F' |- *. apply andb_true_iff in F as [-> _].
  apply andb_true_iff in F' as [-> _]. auto.
Qed.

Lemma more_words_end : forall n b w s g g',
  Iter (Den (Seq (plus sp) (at_least 2 AZ))) n b w s g g' ->
  w = [] \/ head_is is_AZ (rev w) = true.
Proof.
  induction n as [|n IH]; intros b w s g g' It; cbn [Iter] in It.
  - destruct It as [-> _]. auto.
  - destruct It as (w1 & w2 & g1 & -> & D1 & It). right.
    destruct (IH _ _ _ _ _ It) as [->|H].
    + rewrite app_nil_r. destruct D1 as (u & v & g2 & -> & _ & D).
      apply rev_head_app. apply (capitals_end 2) in D; [tauto | lia].
    + now apply rev_head_app.
Qed.

Lemma rstrip_last w :
  head_is (fun a => negb (is_space a)) (rev w) = true -> rstrip w = w.
Proof.
  intros H. unfold rstrip. destruct (rev w) as [|a l] eqn:E; [discriminate|].
  cbn in H. rewrite lstrip_head by now destruct (is_space a).
  rewrite <- E. apply rev_involutive.
Qed.

Lemma head_is_impl (p q : ascii -> bool) w :
  (forall a, p a = true -> q a = true) ->
  head_is p w = true -> head_is q w = true.
Proof. destruct w; cbn; auto. Qed.

Lemma AZ_no_space a : is_AZ a = true -> negb (is_space a) = true.
Proof. intros H. now rewrite (AZ_not_space _ H). Qed.

(** The text of the group of [asset_re]: words of two capitals or more
    that whitespace separates, cut out of the line. *)
Lemma asset_re_captures line m :
  re_search asset_re line = Some m ->
  exists pre name post,
    line = pre ++ name ++ post /\ m_caps m = [(1, name)] /\
    strip name = name /\ forallb capital_or_space name = true /\
    head_is is_AZ name = true /\ 2 <= length name.
Proof.
  intros H. apply re_search_sound in H as (pre & w & post & E & D & _).
  unfold asset_re in D; cbn [seq] in D.
  destruct D as (w0 & w1 & g0 & -> & (-> & -> & _) & D).
  destruct D as (name & w2 & g1 & -> & (g2 & D & ->) & (-> & -> & _)).
  cbn [app] in E. rewrite app_nil_r in E.
  assert (G : g2 = []).
  { pose proof D as D'. apply den_groupless in D'; [exact D' | reflexivity]. }
  subst g2. exists pre, name, post.
  assert (C : forallb capital_or_space name = true).
  { apply (den_chars capital_or_space) in D; [exact D|].
    unfold capital_or_space. cbn.
    repeat split; intros a Ha; rewrite Ha; auto using orb_true_r. }
  destruct D as (u & v & g3 & -> & D1 & (n & _ & It)).
  apply (capitals_end 2) in D1 as (Hh & Hl & Len); [|lia].
  assert (Hhead : head_is is_AZ (u ++ v) = true).
  { destruct u; [discriminate|]. exact Hh. }
  assert (Hlast : head_is is_AZ (rev (u ++ v)) = true).
  { destruct (more_words_end _ _ _ _ _ _ It) as [->|Hv].
    - now rewrite app_nil_r.
    - now apply rev_head_app. }
  repeat split; auto.
  - unfold strip.
    destruct (u ++ v) as [|a l] eqn:Euv; [discriminate|].
    rewrite lstrip_head by (apply AZ_not_space; exact Hhead).
    apply rstrip_last. eapply head_is_impl; [apply AZ_no_space | exact Hlast].
  - rewrite length_app. lia.
Qed.

Lemma ticker_re_cut line m :
  re_search ticker_re line = Some m ->
  exists pre tk post,
    line = pre ++ lit "(" ++ tk ++ lit ")" ++ post /\
    m_start m = length pre /\ m_caps m = [(1, tk)] /\ is_ticker tk = true.
Proof.
  intros H. apply re_search_sound in H as (pre & w & post & E & D & St).
  unfold ticker_re in D; cbn [seq] in D.
  destruct D as (w0 & w1 & g0 & -> & (a & -> & Ha & ->) & D).
  destruct D as (tk & w2 & g1 & -> & (g2 & D & ->) & (c & -> & Hc & ->)).
  assert (G : g2 = []).
  { pose proof D as D'. apply den_groupless in D'; [exact D' | reflexivity]. }
  subst g2. apply Ascii.eqb_eq in Ha, Hc. subst a c.
  exists pre, tk, post. rewrite E, <- !app_assoc.
  repeat split; eauto using den_ticker.
Qed.

Lemma firstn_length_app (pre rest : pystr) :
  firstn (length pre) (pre ++ rest) = pre.
Proof.
  rewrite firstn_app, Nat.sub_diag, firstn_all. cbn. apply app_nil_r.
Qed.

(** *** The first parenthesised ticker *)

Lemma rep_capitals_through (k : cont) rest : forall tk n fuel b g,
  forallb is_AZ tk = true -> 1 <= n + length tk -> n + length tk <= 5 ->
  length tk < fuel ->
  (forall g', k (Cursor (rev tk ++ b) (")"%char :: rest)) g' <> None) ->
  rep_loop (run AZ) k 1 (Some 5) true fuel n
    (Cursor b (tk ++ ")"%char :: rest)) g <> None.
Proof.
  induction tk as [|a tk IH]; intros n fuel b g F L1 L5 Lf Hk;
    (destruct fuel as [|fuel]; [cbn in Lf; lia|]); cbn [rep_loop].
  - cbn [length] in *. cbn [app rev].
    destruct (Nat.ltb_spec n 1); [lia|].
    destruct (negb (below (Some 5) n)); [apply Hk|].
    cbn [run AZ after]. change (is_AZ ")") with false. cbn iota. apply Hk.
  - cbn [length forallb] in *. apply andb_true_iff in F as [Ha F].
    assert (R : rep_loop (run AZ) k 1 (Some 5) true fuel (S n)
                  (Cursor (a :: b) (tk ++ ")"%char :: rest)) g <> None).
    { apply IH; try assumption; try lia.
      intros g'. specialize (Hk g'). cbn [rev] in Hk.
      now rewrite <- app_assoc in Hk. }
    assert (B : below (Some 5) n = true) by (apply Nat.ltb_lt; lia).
    rewrite B. cbn [negb app].
    assert (St : run AZ (Cursor b (a :: tk ++ ")"%char :: rest)) g
                   (rep_loop (run AZ) k 1 (Some 5) true fuel (S n))
                 <> None).
    { cbn [run AZ after before]. rewrite Ha. exact R. }
    destruct (n <? 1); [exact St|].
    destruct (run AZ (Cursor b (a :: tk ++ ")"%char :: rest)) g
                (rep_loop (run AZ) k 1 (Some 5) true fuel (S n)));
      [discriminate | contradiction].
Qed.

(** Where a ticker stands between brackets, the pattern matches. *)
Lemma ticker_matches_at b tk rest :
  is_ticker tk = true ->
  match_at ticker_re (Cursor b ("("%char :: tk ++ ")"%char :: rest)) <> None.
Proof.
  intros Ht. unfold is_ticker in Ht.
  apply andb_true_iff in Ht as [Ht F]. apply andb_true_iff in Ht as [L1 L5].
  apply Nat.leb_le in L1, L5. unfold match_at.
  assert (R : run ticker_re (Cursor b ("("%char :: tk ++ ")"%char :: rest))
                [] accept <> None).
  { unfold ticker_re, between; cbn [seq].
    cbn [run chr after before]. rewrite Ascii.eqb_refl.
    apply rep_capitals_through; try assumption; try lia.
    - rewrite length_app. cbn [length]. lia.
    - intros g'. cbn [run chr after before]. rewrite Ascii.eqb_refl.
      discriminate. }
  destruct (run ticker_re _ [] accept) as [[c' g]|];
    [discriminate | contradiction].
Qed.

Lemma search_from_none r : forall s b,
  search_from r b s = None ->
  forall pre rest, s = pre ++ rest ->
    match_at r (Cursor (rev pre ++ b) rest) = None.
Proof.
  induction s as [|a s IH]; intros b H pre rest E; cbn [search_from] in H.
  - destruct pre; [|discriminate]. cbn in E. subst rest. cbn.
    destruct (match_at r (Cursor b [])); [discriminate | reflexivity].
  - destruct (match_at r (Cursor b (a :: s))) eqn:M; [discriminate|].
    destruct pre as [|a' pre]; cbn [app] in E.
    + subst rest. exact M.
    + inversion E; subst a' s. cbn [rev]. rewrite <- app_assoc.
      now apply IH.
Qed.

(** [re.search] gives the leftmost match: before its start the pattern
    matches nowhere. *)
Lemma search_from_leftmost r : forall s b m,
  search_from r b s = Some m ->
  forall pre rest, s = pre ++ rest ->
    length b + length pre < m_start m ->
    match_at r (Cursor (rev pre ++ b) rest) = None.
Proof.
  induction s as [|a s IH]; intros b m H pre rest E L; cbn [search_from] in H.
  - destruct pre; [|discriminate]. cbn in E. subst rest.
    unfold match_at in *.
    destruct (run r (Cursor b []) [] accept) as [[c' g]|]; [|discriminate].
    inversion H; subst m. cbn in L. lia.
  - destruct (match_at r (Cursor b (a :: s))) eqn:M.
    + inversion H; subst m0. unfold match_at in M.
      destruct (run r (Cursor b (a :: s)) [] accept) as [[c' g]|];
        [|discriminate].
      inversion M; subst m. cbn in L. lia.
    + destruct pre as [|a' pre]; cbn [app] in E.
      * subst rest. exact M.
      * inversion E; subst a' s. cbn [rev]. rewrite <- app_assoc.
        apply (IH _ _ H); [reflexivity|]. cbn [length] in *. lia.
Qed.

Lemma ticker_at_matches line k tk :
  ticker_at line k tk ->
  exists pre rest,
    line = pre ++ rest /\ length pre = k /\
    match_at ticker_re (Cursor (rev pre ++ []) rest) <> None.
Proof.
  intros (Ht & pre & post & -> & <-).
  exists pre, (lit "(" ++ tk ++ lit ")" ++ post).
  split; [reflexivity|]. split; [reflexivity|].
  now apply ticker_matches_at.
Qed.

(** The ticker [re.search] finds is the first one of the line, and it
    finds one whenever the line has one. *)
Lemma ticker_search_first line :
  match re_search ticker_re line with
  | Some m =>
      exists pre tk post,
        line = pre ++ lit "(" ++ tk ++ lit ")" ++ post /\
        m_start m = length pre /\ group 1 m = Some tk /\
        is_ticker tk = true /\
        forall k' tk', ticker_at line k' tk' -> length pre <= k'
  | None => forall k tk, ~ ticker_at line k tk
  end.
Proof.
  destruct (re_search ticker_re line) as [m|] eqn:E.
  - destruct (ticker_re_cut _ _ E) as (pre & tk & post & L & St & C & T).
    exists pre, tk, post. rewrite (group_of_caps _ _ _ C).
    repeat split; auto.
    intros k' tk' A. destruct (Nat.le_gt_cases (length pre) k'); [assumption|].
    exfalso.
    destruct (ticker_at_matches _ _ _ A) as (pre' & rest & L' & K & M).
    apply M. apply (search_from_leftmost _ _ _ _ E); [exact L'|].
    cbn [length]. lia.
  - intros k tk A.
    destruct (ticker_at_matches _ _ _ A) as (pre' & rest & L' & K & M).
    apply M. now apply (search_from_none _ _ _ E).
Qed.

Lemma optional_ticker_first line : first_ticker line (optional_ticker line).
Proof.
  pose proof (ticker_search_first line) as H. unfold optional_ticker.
  destruct (re_search ticker_re line) as [m|]; [|exact H].
  destruct H as (pre & tk & post & L & _ & -> & T & F). cbn [val_of].
  exists (length pre). split; [|exact F].
  split; [exact T|]. eauto.
Qed.

(** What [_extract_asset_and_type] returns.  A stock: a run of words of
    two capitals or more, cut out of the line as it stands, with the
    first parenthesised ticker of the line, and [None] when the line has
    no parenthesised ticker.  An option, only for a line with CALL or
    PUT and a parenthesised ticker: the first such ticker, and
    everything that comes before it, trimmed. *)
Theorem asset_of_the_heuristic_path line asset_name ticker trade_type :
  _extract_asset_and_type line = Ok (Some (asset_name, ticker, trade_type)) ->
  (trade_type = STOCK /\
   (exists pre post, line = pre ++ asset_name ++ post) /\
   forallb capital_or_space asset_name = true /\
   head_is is_AZ asset_name = true /\ 2 <= length asset_name /\
   first_ticker line ticker) \/
  (trade_type <> STOCK /\
   contains "CALL" (upper line) || contains "PUT" (upper line) = true /\
   exists pre tk post,
     line = pre ++ lit "(" ++ tk ++ lit ")" ++ post /\
     asset_name = strip pre /\ ticker = VStr tk /\ is_ticker tk = true /\
     forall k' tk', ticker_at line k' tk' -> length pre <= k').
Proof.
  assert (S : stock_asset line = Ok (Some (asset_name, ticker, trade_type)) ->
    trade_type = STOCK /\
    (exists pre post, line = pre ++ asset_name ++ post) /\
    forallb capital_or_space asset_name = true /\
    head_is is_AZ asset_name = true /\ 2 <= length asset_name /\
    first_ticker line ticker).
  { unfold stock_asset. destruct (re_search asset_re line) as [m|] eqn:E;
      [|discriminate].
    destruct (asset_re_captures _ _ E) as (pre & name & post & L & C & R).
    rewrite (group_of_caps _ _ _ C). cbn. destruct R as (-> & R).
    intros [= <- <- <-]. split; [reflexivity|]. split; [eauto|].
    destruct R as (R1 & R2 & R3). repeat split; auto.
    apply optional_ticker_first. }
  unfold _extract_asset_and_type.
  destruct (contains "CALL" (upper line) || contains "PUT" (upper line))
    eqn:K; [|auto].
  pose proof (ticker_search_first line) as T.
  destruct (re_search ticker_re line) as [m|] eqn:E; [|auto].
  destruct T as (pre & tk & post & L & St & G & Ht & F).
  rewrite G, St. cbn [val_of].
  intros H. right. inversion H as [[Ha Hv Hk]]. split.
  - match goal with |- (if ?c then _ else _) <> _ => destruct c end;
      discriminate.
  - split; [reflexivity|]. exists pre, tk, post.
    split; [exact L|]. split; [|auto].
    rewrite L at 1. now rewrite firstn_length_app.
Qed.

Lemma asset_of_the_heuristic_path_witness :
  (_extract_asset_and_type apple_ticker_line
   = Ok (Some (lit "APPLE INC", VStr "AAPL", STOCK)) /\
   ((STOCK = STOCK /\
     (exists pre post, apple_ticker_line = pre ++ lit "APPLE INC" ++ post) /\
     forallb capital_or_space (lit "APPLE INC") = true /\
     head_is is_AZ (lit "APPLE INC") = true /\
     2 <= length (lit "APPLE INC") /\
     first_ticker apple_ticker_line (VStr "AAPL")) \/
    (STOCK <> STOCK /\
     contains "CALL" (upper apple_ticker_line)
     || contains "PUT" (upper apple_ticker_line) = true /\
     exists pre tk post,
       apple_ticker_line = pre ++ lit "(" ++ tk ++ lit ")" ++ post /\
       lit "APPLE INC" = strip pre /\ VStr "AAPL" = VStr tk /\
       is_ticker tk = true /\
       forall k' tk', ticker_at apple_ticker_line k' tk' ->
                      length pre <= k'))) /\
  (_extract_asset_and_type amazon_call_line
   = Ok (Some (lit "Bought AMAZON.COM INC", VStr "AMZN", OPTION_CALL)) /\
   ((OPTION_CALL = STOCK /\
     (exists pre post,
        amazon_call_line = pre ++ lit "Bought AMAZON.COM INC" ++ post) /\
     forallb capital_or_space (lit "Bought AMAZON.COM INC") = true /\
     head_is is_AZ (lit "Bought AMAZON.COM INC") = true /\
     2 <= length (lit "Bought AMAZON.COM INC") /\
     first_ticker amazon_call_line (VStr "AMZN")) \/
    (OPTION_CALL <> STOCK /\
     contains "CALL" (upper amazon_call_line)
     || contains "PUT" (upper amazon_call_line) = true /\
     exists pre tk post,
       amazon_call_line = pre ++ lit "(" ++ tk ++ lit ")" ++ post /\
       lit "Bought AMAZON.COM INC" = strip pre /\ VStr "AMZN" = VStr tk /\
       is_ticker tk = true /\
       forall k' tk', ticker_at amazon_call_line k' tk' ->
                      length pre <= k'))).
Proof.
  assert (H : _extract_asset_and_type apple_ticker_line
              = Ok (Some (lit "APPLE INC", VStr "AAPL", STOCK)))
    by (vm_compute; reflexivity).
  assert (H' : _extract_asset_and_type amazon_call_line
               = Ok (Some (lit "Bought AMAZON.COM INC", VStr "AMZN",
                           OPTION_CALL)))
    by (vm_compute; reflexivity).
  exact (conj
    (conj H (asset_of_the_heuristic_path apple_ticker_line _ _ _ H))
    (conj H' (asset_of_the_heuristic_path amazon_call_line _ _ _ H'))).
Defined.

(** ** From the pages of the document to its records *)

Lemma split_lines_acc_feed cur : forall s t,
  split_lines_acc cur (s ++ "010"%char :: t)
  = split_lines_acc cur s ++ split_lines t.
Proof.
  intros s. revert cur.
  induction s as [|a s IH]; intros cur t; cbn [app split_lines_acc].
  - reflexivity.
  - destruct (Ascii.eqb a "010").
    + cbn [app]. f_equal. apply IH.
    + apply IH.
Qed.

Lemma split_lines_feed s t :
  split_lines (s ++ "010"%char :: t) = split_lines s ++ split_lines t.
Proof. apply split_lines_acc_feed. Qed.

Lemma split_lines_acc_chars : forall s cur l a,
  In l (split_lines_acc cur s) -> In a l -> In a cur \/ In a s.
Proof.
  induction s as [|b s IH]; intros cur l a Hl Ha; cbn [split_lines_acc] in Hl.
  - destruct Hl as [<-|[]]. left. now apply in_rev.
  - destruct (Ascii.eqb b "010").
    + destruct Hl as [<-|Hl].
      * left. now apply in_rev.
      * destruct (IH _ _ _ Hl Ha) as [[]|H]. right. now right.
    + destruct (IH _ _ _ Hl Ha) as [[->|H]|H]; cbn; auto.
Qed.

Lemma fold_add_page pages : forall text,
  fold_left add_page pages text = text ++ fold_left add_page pages [].
Proof.
  induction pages as [|pg pages IH]; intros text; cbn [fold_left].
  - now rewrite app_nil_r.
  - rewrite IH, (IH (add_page [] pg)).
    destruct pg as [[|a w]|]; cbn [add_page app]; try reflexivity.
    now rewrite <- app_assoc.
Qed.

Lemma page_texts_lines pages :
  split_lines (page_texts pages) = flat_map split_lines (printed pages) ++ [[]].
Proof.
  unfold page_texts.
  induction pages as [|pg pages IH]; [reflexivity|].
  cbn [fold_left]. rewrite fold_add_page.
  destruct pg as [[|a w]|]; cbn [add_page printed app flat_map];
    try exact IH.
  replace (a :: (w ++ lit (String "010" EmptyString))
                ++ fold_left add_page pages [])
    with ((a :: w) ++ "010"%char :: fold_left add_page pages [])
    by (cbn [app lit]; now rewrite <- app_assoc).
  rewrite split_lines_feed, IH, <- app_assoc. reflexivity.
Qed.

(** The lines the engine is given are the lines of the pages that have
    text, page after page, and one empty line at the end; a page
    without text adds nothing. *)
Theorem lines_of_the_document pages :
  split_lines (page_texts pages)
  = flat_map split_lines (printed pages) ++ [[]].
Proof. apply page_texts_lines. Qed.

Lemma lstrip_in a : forall w,
  In a w -> is_space a = false -> In a (lstrip w).
Proof.
  induction w as [|b w IH]; intros Hin Ha; [destruct Hin|].
  cbn [lstrip]. destruct (is_space b) eqn:E; [|exact Hin].
  destruct Hin as [->|Hin]; [congruence | auto].
Qed.

Lemma strip_keeps a w : In a w -> is_space a = false -> truthy (strip w) = true.
Proof.
  intros Hin Ha. unfold strip, rstrip.
  pose proof (lstrip_in a _ Hin Ha) as H1. apply in_rev in H1.
  pose proof (lstrip_in a _ H1 Ha) as H2. apply in_rev in H2.
  destruct (rev (lstrip (rev (lstrip w)))); [destruct H2 | reflexivity].
Qed.

Lemma shape_line_has_text line :
  matched (re_search pattern line) || matched (re_search pattern2 line)
  || matched (re_search pattern3 line) = true ->
  exists a, In a line /\ is_space a = false.
Proof.
  intros H.
  assert (S : forall r pre w post g p,
    line = pre ++ w ++ post -> Den (Seq (Chr p) r) (rev pre) w post [] g ->
    (forall a, p a = true -> is_space a = false) ->
    exists a, In a line /\ is_space a = false).
  { intros r pre w post g p E D Hp.
    apply den_chr_head in D as (a & w' & -> & Ha). exists a.
    split; [|auto]. rewrite E. apply in_or_app. right. now left. }
  assert (SP : forall a, Ascii.eqb "S" a = true -> is_space a = false).
  { intros a Ha. apply Ascii.eqb_eq in Ha. now subst. }
  destruct (re_search pattern line) as [m|] eqn:P1.
  - apply re_search_sound in P1 as (pre & w & post & E & D & _).
    unfold pattern in D; cbn [seq] in D.
    destruct D as (w1 & w2 & g1 & -> & (g0 & D & _) & _).
    apply den_chr_head in D as (a & w' & -> & Ha). exists a.
    split; [|now apply AZ_not_space]. rewrite E. apply in_or_app. right.
    now left.
  - destruct (re_search pattern2 line) as [m|] eqn:P2.
    + apply re_search_sound in P2 as (pre & w & post & E & D & _).
      unfold pattern2 in D; cbn [seq text] in D.
      destruct D as (w1 & w2 & g1 & -> & D & _).
      apply den_chr_head in D as (a & w' & -> & Ha). exists a.
      split; [|now apply SP]. rewrite E. apply in_or_app. right. now left.
    + destruct (re_search pattern3 line) as [m|] eqn:P3; [|discriminate].
      apply re_search_sound in P3 as (pre & w & post & E & D & _).
      unfold pattern3 in D; cbn [seq text] in D.
      destruct D as (w1 & w2 & g1 & -> & D & _).
      apply den_chr_head in D as (a & w' & -> & Ha). exists a.
      split; [|now apply SP]. rewrite E. apply in_or_app. right. now left.
Qed.

Lemma shape_is_candidate line :
  matched (re_search pattern line) || matched (re_search pattern2 line)
  || matched (re_search pattern3 line) = true ->
  _is_trade_line line = true.
Proof.
  unfold _is_trade_line.
  rewrite (re_search_erase pattern ptr_pattern1) by reflexivity.
  rewrite (re_search_erase pattern2 ptr_pattern2) by reflexivity.
  rewrite (re_search_erase pattern3 ptr_pattern3) by reflexivity.
  destruct (matched (re_search pattern line)),
    (matched (re_search pattern2 line)), (matched (re_search pattern3 line));
    auto; discriminate.
Qed.

Lemma scan_complete lines : forall rest i out k line t,
  scan lines i rest = Ok out -> nth_error rest k = Some line ->
  _is_trade_line line = true ->
  _parse_trade_line line lines (i + Z.of_nat k) = Ok (Some t) -> In t out.
Proof.
  induction rest as [|l rest IH]; intros i out k line t H Hk C P;
    [destruct k; discriminate|].
  cbn [scan] in H. destruct k as [|k]; cbn [nth_error] in Hk.
  - inversion Hk; subst l. rewrite C in H. rewrite Z.add_0_r in P.
    rewrite P in H. cbn [bind] in H. inv_bind H. inversion H. now left.
  - assert (Hn : In t out -> In t out) by auto.
    replace (i + Z.of_nat (S k))%Z with (i + 1 + Z.of_nat k)%Z in P by lia.
    destruct (_is_trade_line l).
    + inv_bind H. inv_bind H. inversion H; subst.
      destruct a; [right|]; eauto.
    + eauto.
Qed.

Lemma getitem_nth {A} (l : list A) j a :
  nth_error l j = Some a -> getitem l (Z.of_nat j) = Ok a.
Proof.
  intros H. unfold getitem.
  destruct (Z.ltb_spec (Z.of_nat j) 0); [lia|].
  destruct (Z.ltb_spec (Z.of_nat j) 0); [lia|].
  now rewrite Nat2Z.id, H.
Qed.

Lemma next_page_line pages j line :
  nth_error (split_lines (page_texts pages)) j = Some line -> line <> [] ->
  nth_error (split_lines (page_texts pages)) (S j)
  = Some (nth (S j) (split_lines (page_texts pages)) []).
Proof.
  rewrite page_texts_lines. set (L := flat_map split_lines (printed pages)).
  intros H Hne.
  assert (Hj : j < length L).
  { destruct (Nat.lt_ge_cases j (length L)) as [|Hge]; [assumption|].
    rewrite nth_error_app2 in H by assumption.
    destruct (j - length L) as [|[|n]]; cbn in H; congruence. }
  apply nth_error_nth'. rewrite length_app. cbn. lia.
Qed.

(** Whatever the pages, a line of the document with the single-line
    form, or the lead-token form without the [(partial)] marker, or
    the lead-token form and a parenthesised ticker on the next line
    of the document, is in the result of [extract_trades] with a
    structural record of its own. *)
Theorem line_of_a_shape_is_reported pages j line :
  nth_error (split_lines (page_texts pages)) j = Some line ->
  matched (re_search pattern line)
  || matched (re_search pattern3 line)
  || (matched (re_search pattern2 line)
      && matched (re_search ticker_re
                    (nth (S j) (split_lines (page_texts pages)) []))) = true ->
  exists t,
    In t (extract_trades true (Ok pages)) /\
    field_is "raw_line" (strip line) t /\ structural_form t.
Proof.
  set (lines := split_lines (page_texts pages)). intros Hj Hm.
  assert (Hs : matched (re_search pattern line)
               || matched (re_search pattern2 line)
               || matched (re_search pattern3 line) = true).
  { destruct (matched (re_search pattern line)),
      (matched (re_search pattern2 line)),
      (matched (re_search pattern3 line)); auto. }
  destruct (shape_line_has_text _ Hs) as (a & Ha & Hsp).
  assert (Hne : line <> []) by (intros ->; destruct Ha).
  pose proof (next_page_line _ _ _ Hj Hne) as Hn. fold lines in Hn.
  apply getitem_nth in Hn.
  replace (Z.of_nat (S j)) with (Z.of_nat j + 1)%Z in Hn by lia.
  assert (H0 : (0 <= Z.of_nat j)%Z) by lia.
  destruct (proj2 (ptr_record_iff line lines _ _ H0 Hn) Hm) as (t & Pt).
  assert (P : _parse_trade_line line lines (0 + Z.of_nat j) = Ok (Some t)).
  { unfold _parse_trade_line. cbn [Z.add]. rewrite Pt. reflexivity. }
  destruct (scan_never_raises lines lines 0) as (out & Hout).
  pose proof (scan_complete _ _ _ _ _ _ _ Hout Hj (shape_is_candidate _ Hs) P)
    as Hin.
  exists t. split; [|split].
  - unfold extract_trades. cbn [negb bind].
    assert (T : truthy (strip (page_texts pages)) = true).
    { apply (strip_keeps a); [|exact Hsp].
      apply nth_error_In in Hj.
      destruct (split_lines_acc_chars _ _ _ _ Hj Ha) as [[]|H]. exact H. }
    rewrite T. cbn [negb]. unfold _parse_text_for_trades, parse_lines.
    fold lines. now rewrite Hout.
  - eapply record_raw_line; eauto.
  - eapply ptr_form; eauto.
Qed.

Lemma line_of_a_shape_is_reported_witness :
  nth_error (split_lines (page_texts [Some sp_fund_line; None; Some ot_line])) 0
  = Some sp_fund_line /\
  exists t,
    In t (extract_trades true (Ok [Some sp_fund_line; None; Some ot_line])) /\
    field_is "raw_line" (strip sp_fund_line) t /\ structural_form t.
Proof.
  assert (H : nth_error
    (split_lines (page_texts [Some sp_fund_line; None; Some ot_line])) 0
    = Some sp_fund_line) by reflexivity.
  exact (conj H
    (line_of_a_shape_is_reported [Some sp_fund_line; None; Some ot_line] 0
       sp_fund_line H ltac:(vm_compute; reflexivity))).
Defined.

(** Every record of [extract_trades] comes from a candidate line of a
    page, which its [raw_line] holds trimmed, and has one of the two
    forms of the engine; a path that does not exist or a library that
    raises leaves no record. *)
Theorem extract_trades_records path_exists pages t :
  In t (extract_trades path_exists pages) ->
  path_exists = true /\
  exists pdf_pages line,
    pages = Ok pdf_pages /\
    In line (flat_map split_lines (printed pdf_pages)) /\
    _is_trade_line line = true /\
    field_is "raw_line" (strip line) t /\
    (structural_form t \/
     heuristic_form line (split_lines (page_texts pdf_pages)) t).
Proof.
  unfold extract_trades. destruct path_exists; cbn [negb]; [|intros []].
  destruct pages as [ps|e]; cbn [bind]; [|intros []].
  destruct (truthy (strip (page_texts ps))); cbn [negb]; [|intros []].
  unfold _parse_text_for_trades, parse_lines.
  destruct (scan_never_raises (split_lines (page_texts ps))
              (split_lines (page_texts ps)) 0) as (out & Hout).
  rewrite Hout. intros Hin. split; [reflexivity|].
  assert (G : forall rest i out, scan (split_lines (page_texts ps)) i rest
                = Ok out -> In t out ->
              exists line, In line rest /\ _is_trade_line line = true /\
                exists j, _parse_trade_line line (split_lines (page_texts ps)) j
                          = Ok (Some t)).
  { induction rest as [|l rest IH]; intros i o H Ht; cbn [scan] in H.
    - inversion H; subst. destruct Ht.
    - destruct (_is_trade_line l) eqn:C.
      + inv_bind H. inv_bind H. inversion H; subst; clear H.
        destruct a as [tr|].
        * destruct Ht as [<-|Ht].
          -- exists l. split; [now left|]. eauto.
          -- destruct (IH _ _ E0 Ht) as (line & I & R).
             exists line. split; [now right | exact R].
        * destruct (IH _ _ E0 Ht) as (line & I & R).
          exists line. split; [now right | exact R].
      + destruct (IH _ _ H Ht) as (line & I & R).
        exists line. split; [now right | exact R]. }
  destruct (G _ _ _ Hout Hin) as (line & I & C & j & P).
  exists ps, line. split; [reflexivity|]. split.
  - rewrite page_texts_lines in I. apply in_app_or in I as [I|[<-|[]]];
      [exact I | discriminate C].
  - split; [exact C|]. split; [eapply record_raw_line; eauto|].
    eapply parse_trade_line_form; eauto.
Qed.

Lemma extract_trades_records_witness :
  exists t,
    In t (extract_trades true (Ok [Some sp_fund_line; None; Some ot_line])) /\
    true = true /\
    exists pdf_pages line,
      Ok [Some sp_fund_line; None; Some ot_line] = Ok pdf_pages /\
      In line (flat_map split_lines (printed pdf_pages)) /\
      _is_trade_line line = true /\
      field_is "raw_line" (strip line) t /\
      (structural_form t \/
       heuristic_form line (split_lines (page_texts pdf_pages)) t).
Proof.
  exists (hd []
    (extract_trades true (Ok [Some sp_fund_line; None; Some ot_line]))).
  assert (H : In
    (hd [] (extract_trades true (Ok [Some sp_fund_line; None; Some ot_line])))
    (extract_trades true (Ok [Some sp_fund_line; None; Some ot_line])))
    by (vm_compute; left; reflexivity).
  exact (conj H (extract_trades_records true _ _ H)).
Defined.

(** ** The display of a record *)

Lemma record_kind line all_lines i t :
  _parse_trade_line line all_lines i = Ok (Some t) ->
  exists ty, field_is "trade_type" (value ty) t.
Proof.
  unfold _parse_trade_line. intros H. apply try_none_some in H. inv_bind H.
  destruct a as [t'|].
  - inversion H; subst.
    destruct (ptr_built _ _ _ _ E) as (asset & tk & ac & d1 & d2 & am & B).
    destruct (ptr_trade_fields _ _ _ _ _ _ _ _ _ _ B)
      as (ty & d & _ & _ & K & _). eauto.
  - clear E. unfold heuristic_trade in H.
    destruct (_extract_action line) as [action|]; [|discriminate].
    destruct (truthy action); cbn [negb] in H; [|discriminate].
    inv_bind H. destruct a as [[[asset v] ty]|]; [|discriminate].
    inv_bind H.
    destruct (truthy asset && (2 <? length asset) && true); [|discriminate].
    inversion H; subst. exists ty. reflexivity.
Qed.

Lemma ticker_info_of_a_record line all_lines t :
  structural_form t \/ heuristic_form line all_lines t ->
  ticker_info t = Returns (bracketed_ticker t).
Proof.
  intros F. open_form F; unfold ticker_info, bracketed_ticker.
  - destruct tk; reflexivity.
  - destruct tk as [[|a w]|]; reflexivity.
Qed.

(** [format_trade_for_display] raises on no record of the engine, and
    prints none of its parts as [None]: the line reads action, the kind
    of trade in capitals, asset name with the ticker between brackets
    if the record has one, amount and transaction date. *)
Theorem display_of_a_record text out t :
  _parse_text_for_trades text = Ok out -> In t out ->
  exists action ty asset_name amount_range transaction_date,
    field_is "action" action t /\ is_action action = true /\
    field_is "trade_type" (value ty) t /\
    field_is "asset_name" asset_name t /\
    field_is "amount_range" amount_range t /\
    field_is "transaction_date" transaction_date t /\
    format_trade_for_display t
    = Returns (action ++ lit " " ++ upper (value ty) ++ lit " - " ++
               asset_name ++ bracketed_ticker t ++ lit " - " ++
               amount_range ++ lit " - " ++ transaction_date).
Proof.
  intros H Hin.
  destruct (emitted_form _ _ _ H Hin) as (line & all_lines & i & _ & P & F).
  destruct (record_kind _ _ _ _ P) as (kind & K).
  pose proof (ticker_info_of_a_record _ _ _ F) as T.
  unfold format_trade_for_display. rewrite T. cbn [and_then]. clear T.
  generalize (bracketed_ticker t). intros b.
  open_form F; unfold field_is in K; cbn in K; inversion K; subst;
    exists action, kind; eexists _, _, _; repeat split; assumption.
Qed.

Lemma display_of_a_record_witness :
  exists action ty asset_name amount_range transaction_date,
    field_is "action" action widget_record /\ is_action action = true /\
    field_is "trade_type" (value ty) widget_record /\
    field_is "asset_name" asset_name widget_record /\
    field_is "amount_range" amount_range widget_record /\
    field_is "transaction_date" transaction_date widget_record /\
    format_trade_for_display widget_record
    = Returns (action ++ lit " " ++ upper (value ty) ++ lit " - " ++
               asset_name ++ bracketed_ticker widget_record ++ lit " - " ++
               amount_range ++ lit " - " ++ transaction_date).
Proof.
  exact (display_of_a_record (document [widget_line; wdg_line])
           [widget_record] widget_record
           ltac:(vm_compute; reflexivity) ltac:(left; reflexivity)).
Defined.

(** ** The amount of the notification *)

Lemma startswith_incl n : forall s, startswith n s = true -> incl n s.
Proof.
  induction n as [|a n IH]; intros s H; [intros x []|].
  destruct s as [|b s]; [discriminate|]. cbn in H.
  apply andb_true_iff in H as [E H]. apply Ascii.eqb_eq in E. subst b.
  intros x [<-|Hx]; [now left | right; now apply (IH s)].
Qed.

Lemma contains_incl n : forall s, contains n s = true -> incl n s.
Proof.
  induction s as [|b s IH]; cbn [contains]; intros H.
  - rewrite orb_false_r in H. now apply startswith_incl.
  - apply orb_true_iff in H as [H|H]; [now apply startswith_incl|].
    intros x Hx. right. now apply IH.
Qed.

Lemma contains_lacks c n s : In c n -> ~ In c s -> contains n s = false.
Proof.
  intros Hn Hs. destruct (contains n s) eqn:E; [|reflexivity].
  exfalso. apply Hs. now apply (contains_incl _ _ E).
Qed.

Lemma startswith_lacks c n s : In c n -> ~ In c s -> startswith n s = false.
Proof.
  intros Hn Hs. destruct (startswith n s) eqn:E; [|reflexivity].
  exfalso. apply Hs. now apply (startswith_incl _ _ E).
Qed.

Lemma startswith_prefix n : forall v, startswith n (n ++ v) = true.
Proof.
  induction n as [|a n IH]; intros v; [reflexivity|].
  cbn. now rewrite Ascii.eqb_refl, IH.
Qed.

Lemma contains_mid n v : forall u, contains n (u ++ n ++ v) = true.
Proof.
  induction u as [|a u IH]; cbn [app].
  - destruct (n ++ v) eqn:E; cbn [contains]; rewrite <- E;
      now rewrite startswith_prefix.
  - cbn [contains]. rewrite IH. apply orb_true_r.
Qed.

Lemma split_acc_skip sep cur : forall pre s,
  split_acc sep cur (length pre) (pre ++ s) = split_acc sep cur 0 s.
Proof.
  induction pre as [|a pre IH]; intros s; [now destruct s|].
  cbn [length app split_acc]. apply IH.
Qed.

Lemma split_acc_none c sep : In c sep -> forall s cur,
  ~ In c s -> split_acc sep cur 0 s = [rev cur ++ s].
Proof.
  intros Hc. induction s as [|a s IH]; intros cur Hs; cbn [split_acc].
  - now rewrite app_nil_r.
  - rewrite (startswith_lacks c) by assumption.
    rewrite IH by (intros H; apply Hs; now right).
    cbn [rev]. now rewrite <- app_assoc.
Qed.

Lemma split_dash v : ~ In "-"%char v -> forall u cur,
  ~ In "-"%char u ->
  split_acc "-" cur 0 (u ++ lit "-" ++ v) = [rev cur ++ u; v].
Proof.
  intros Hv. induction u as [|a u IH]; intros cur Hu.
  - cbn. rewrite app_nil_r. f_equal.
    apply (split_acc_none "-"%char (lit "-")); [now left | assumption].
  - cbn [app split_acc].
    assert (S : startswith "-" (a :: u ++ lit "-" ++ v) = false).
    { cbn [startswith lit list_ascii_of_string].
      destruct (Ascii.eqb_spec "-" a) as [<-|]; [|reflexivity].
      exfalso. apply Hu. now left. }
    rewrite S, IH by (intros H; apply Hu; now right).
    cbn [rev]. now rewrite <- app_assoc.
Qed.

Lemma split_acc_cons sep cur a s :
  split_acc sep cur 0 (a :: s)
  = if startswith sep (a :: s)
    then rev cur :: split_acc sep [] (length sep - 1) s
    else split_acc sep (a :: cur) 0 s.
Proof. reflexivity. Qed.

Lemma split_space_dash v : ~ In "-"%char v -> forall u cur,
  ~ In "-"%char u ->
  split_acc " - " cur 0 (u ++ lit " - " ++ v) = [rev cur ++ u; v].
Proof.
  intros Hv. induction u as [|a u IH]; intros cur Hu.
  - cbn [app]. rewrite app_nil_r.
    change (lit " - " ++ v) with (" "%char :: lit "- " ++ v).
    rewrite split_acc_cons.
    change (" "%char :: lit "- " ++ v) with (lit " - " ++ v).
    rewrite startswith_prefix.
    change (length (lit " - ") - 1) with (length (lit "- ")).
    rewrite (split_acc_skip (lit " - ") [] (lit "- ") v).
    rewrite (split_acc_none "-"%char (lit " - "));
      [reflexivity | right; now left | assumption].
  - cbn [app]. rewrite split_acc_cons.
    assert (S : startswith " - " (a :: u ++ lit " - " ++ v) = false).
    { cbn [startswith lit list_ascii_of_string].
      destruct u as [|b u]; cbn [app].
      - change (Ascii.eqb "-" " ") with false. apply andb_false_r.
      - destruct (Ascii.eqb_spec "-" b) as [<-|].
        + exfalso. apply Hu. right. now left.
        + apply andb_false_r. }
    rewrite S, IH by (intros H; apply Hu; now right).
    cbn [rev]. now rewrite <- app_assoc.
Qed.

Lemma split_char_feed c t : forall s cur,
  split_acc [c] cur 0 (s ++ c :: t)
  = split_acc [c] cur 0 s ++ split_acc [c] [] 0 t.
Proof.
  induction s as [|a s IH]; intros cur; cbn [app split_acc startswith].
  - now rewrite Ascii.eqb_refl.
  - destruct (Ascii.eqb c a); cbn [andb length Nat.sub app].
    + f_equal. apply IH.
    + apply IH.
Qed.

Lemma split_acc_piece sep : forall s cur skip,
  exists p rest, split_acc sep cur skip s = p :: rest.
Proof.
  induction s as [|a s IH]; intros cur skip; cbn [split_acc]; [eauto|].
  destruct skip; [|apply IH]. destruct (startswith sep (a :: s)); eauto.
Qed.

Lemma int_of_str_fails s :
  (exists n, int_of_str s = Returns n) \/ int_of_str s = Fails ValueError.
Proof.
  unfold int_of_str.
  destruct (int_trim s) as [|a ds]; [|destruct (Ascii.eqb a "-");
    [|destruct (Ascii.eqb a "+")]];
    cbv beta zeta;
    match goal with
    | |- context [max_str_digits <? ?n] => destruct (max_str_digits <? n)
    end; auto;
    match goal with
    | |- context [int_digits ?x ?y ?z] => destruct (int_digits x y z)
    end; eauto.
Qed.

Lemma int_digits_run : forall ds acc after,
  forallb is_digit ds = true ->
  int_digits acc after ds
  = if after || truthy ds
    then Some (fold_left (fun acc a => acc * 10 + digit_value a)%Z ds acc)
    else None.
Proof.
  induction ds as [|a ds IH]; intros acc after H; cbn [int_digits].
  - rewrite orb_false_r. now destruct after.
  - cbn [forallb] in H. apply andb_true_iff in H as [Ha H].
    rewrite Ha, (IH _ _ H). cbn. now rewrite orb_true_r.
Qed.

Lemma digit_not_int_space a : is_digit a = true -> is_int_space a = false.
Proof.
  unfold is_digit, in_range, is_int_space. cbn. intros H.
  apply andb_true_iff in H as [H1 H2].
  apply N.leb_le in H1, H2.
  destruct (N.leb_spec (code a) 13); [lia|]. rewrite andb_false_r.
  apply N.eqb_neq. lia.
Qed.

Lemma skip_int_space_digits ds :
  forallb is_digit ds = true -> skip_int_space ds = ds.
Proof.
  destruct ds as [|a ds]; [reflexivity|]. cbn [forallb skip_int_space].
  intros H. apply andb_true_iff in H as [H _].
  now rewrite (digit_not_int_space _ H).
Qed.

Lemma forallb_rev {A} (p : A -> bool) l :
  forallb p l = true -> forallb p (rev l) = true.
Proof.
  rewrite !forallb_forall. intros H a Ha. apply H. now apply in_rev.
Qed.

Lemma int_of_str_digits ds :
  forallb is_digit ds = true -> ds <> [] -> length ds <= max_str_digits ->
  int_of_str ds = Returns (number ds).
Proof.
  intros H Hne Hlen. unfold int_of_str, int_trim.
  rewrite (skip_int_space_digits _ H),
    (skip_int_space_digits _ (forallb_rev _ _ H)), rev_involutive.
  destruct ds as [|a ds]; [contradiction|].
  pose proof H as H'. cbn [forallb] in H'.
  apply andb_true_iff in H' as [Ha _].
  destruct (Ascii.eqb_spec a "-") as [->|_]; [discriminate Ha|].
  destruct (Ascii.eqb_spec a "+") as [->|_]; [discriminate Ha|].
  assert (C : count_digits (a :: ds) = length (a :: ds)).
  { unfold count_digits. f_equal. clear - H.
    induction (a :: ds) as [|b l IH]; [reflexivity|]. cbn [forallb filter] in *.
    apply andb_true_iff in H as [-> H]. now rewrite IH. }
  rewrite C. destruct (Nat.ltb_spec max_str_digits (length (a :: ds))); [lia|].
  rewrite (int_digits_run _ _ _ H). reflexivity.
Qed.

Lemma remove_char_app c u v :
  remove_char c (u ++ v) = remove_char c u ++ remove_char c v.
Proof. apply filter_app. Qed.

Lemma remove_char_absent c s : ~ In c s -> remove_char c s = s.
Proof.
  induction s as [|a s IH]; intros H; [reflexivity|].
  unfold remove_char in *. cbn [filter].
  destruct (Ascii.eqb_spec a c) as [->|_].
  - exfalso. apply H. now left.
  - cbn [negb]. rewrite IH; [reflexivity|]. intros H'. apply H. now right.
Qed.

Lemma class_lacks (p : ascii -> bool) c s :
  p c = false -> forallb p s = true -> ~ In c s.
Proof.
  intros Hc H Hin. rewrite forallb_forall in H. rewrite (H _ Hin) in Hc.
  discriminate.
Qed.

Lemma commas_removed d :
  forallb is_digit_or_comma d = true ->
  forallb is_digit (remove_char "," d) = true /\
  remove_char "," d = filter is_digit d.
Proof.
  induction d as [|a d IH]; [auto|]. cbn [forallb]. intros H.
  apply andb_true_iff in H as [Ha H]. destruct (IH H) as [F E].
  unfold is_digit_or_comma in Ha. cbn [remove_char filter].
  destruct (Ascii.eqb_spec a ",") as [->|Hn]; cbn [negb].
  - auto.
  - rewrite orb_false_r in Ha. rewrite Ha. cbn [forallb]. rewrite Ha.
    split; [exact F | f_equal; exact E].
Qed.

Lemma some_digit d :
  existsb is_digit d = true -> filter is_digit d <> [].
Proof.
  induction d as [|a d IH]; [discriminate|]. cbn.
  destruct (is_digit a); [discriminate | auto].
Qed.

Lemma strip_ends s :
  head_is (fun a => negb (is_space a)) s = true ->
  head_is (fun a => negb (is_space a)) (rev s) = true ->
  strip s = s.
Proof.
  intros Hh Hl. unfold strip. destruct s as [|a s]; [discriminate|].
  cbn in Hh. rewrite lstrip_head by now destruct (is_space a).
  now apply rstrip_last.
Qed.

Lemma digits_between ds1 mid ds2 :
  forallb is_digit ds1 = true -> ds1 <> [] ->
  forallb is_digit ds2 = true -> ds2 <> [] ->
  strip (ds1 ++ mid ++ ds2) = ds1 ++ mid ++ ds2.
Proof.
  intros F1 N1 F2 N2. apply strip_ends.
  - destruct ds1 as [|a ds1]; [contradiction|]. cbn in F1 |- *.
    apply andb_true_iff in F1 as [Ha _]. now rewrite (digit_not_space _ Ha).
  - rewrite !rev_app_distr. apply forallb_rev in F2.
    destruct (rev ds2) as [|a r] eqn:E.
    + apply (f_equal (@rev ascii)) in E. rewrite rev_involutive in E.
      contradiction.
    + cbn in F2 |- *. apply andb_true_iff in F2 as [Ha _].
      now rewrite (digit_not_space _ Ha).
Qed.

Lemma format_amount_range_returns a :
  exists s,
    _format_amount_range (VStr a) = Returns s /\
    (s = a \/ exists min_val max_val, s = abbreviated min_val max_val).
Proof.
  unfold _format_amount_range. cbn [method and_then show].
  assert (C : forall pieces,
    exists s,
      except_value_error
        (let* pair := unpack2 pieces in
         let min_str := fst pair in
         let max_str := snd pair in
         let* min_val := int_of_str (strip min_str) in
         let* max_val := int_of_str (strip max_str) in
         Returns (abbreviated min_val max_val))
        (Returns a) = Returns s /\
      (s = a \/ exists min_val max_val, s = abbreviated min_val max_val)).
  { intros pieces.
    destruct pieces as [|p [|q [|r rest]]];
      cbn [unpack2 and_then fst snd except_value_error]; eauto.
    destruct (int_of_str_fails (strip p)) as [(m & ->)| ->];
      cbn [and_then except_value_error]; eauto.
    destruct (int_of_str_fails (strip q)) as [(n & ->)| ->];
      cbn [and_then except_value_error]; eauto 6. }
  destruct (contains " - " (clean_amount a)); [apply C|].
  destruct (contains "-" (clean_amount a)); [apply C|].
  cbn [except_value_error]. eauto.
Qed.

(** On a string, [_format_amount_range] raises nothing: it gives the
    string back, or two abbreviated bounds. *)
Theorem amount_is_kept_or_abbreviated a :
  exists s,
    _format_amount_range (VStr a) = Returns s /\
    (s = a \/ exists min_val max_val, s = abbreviated min_val max_val).
Proof. apply format_amount_range_returns. Qed.

Lemma digits_lack c d :
  is_digit c = false -> forallb is_digit d = true -> ~ In c d.
Proof. apply class_lacks. Qed.

Lemma clean_range d1 d2 sep :
  forallb is_digit_or_comma d1 = true -> forallb is_digit_or_comma d2 = true ->
  existsb is_digit d1 = true -> existsb is_digit d2 = true ->
  ~ In "$"%char sep -> ~ In ","%char sep ->
  clean_amount (lit "$" ++ d1 ++ sep ++ lit "$" ++ d2)
  = remove_char "," d1 ++ sep ++ remove_char "," d2.
Proof.
  intros F1 F2 E1 E2 S1 S2. unfold clean_amount.
  assert (D : forall d, forallb is_digit_or_comma d = true ->
                        remove_char "$" d = d).
  { intros d F. apply remove_char_absent.
    apply (class_lacks is_digit_or_comma); [reflexivity | exact F]. }
  rewrite !remove_char_app, (D _ F1), (D _ F2).
  rewrite (remove_char_absent "$" sep S1).
  change (remove_char "$" (lit "$")) with (@nil ascii).
  rewrite ?remove_char_app, (remove_char_absent "," sep S2).
  change (remove_char "," []) with (@nil ascii). cbn [app].
  destruct (commas_removed _ F1) as [G1 Q1].
  destruct (commas_removed _ F2) as [G2 Q2].
  apply digits_between; auto.
  - rewrite Q1. now apply some_digit.
  - rewrite Q2. now apply some_digit.
Qed.

(** A range with both bounds, as the engine writes it with [" - "]
    (structural path) or with ["-"] (heuristic path) between them, is
    abbreviated: each bound is read without its commas and printed in
    millions, in thousands, or as it is. *)
Theorem complete_range_is_abbreviated d1 d2 sep :
  sep = lit " - " \/ sep = lit "-" ->
  forallb is_digit_or_comma d1 = true -> forallb is_digit_or_comma d2 = true ->
  existsb is_digit d1 = true -> existsb is_digit d2 = true ->
  count_digits d1 <= max_str_digits -> count_digits d2 <= max_str_digits ->
  _format_amount_range (VStr (lit "$" ++ d1 ++ sep ++ lit "$" ++ d2))
  = Returns (abbreviated (amount_value d1) (amount_value d2)).
Proof.
  intros Hsep F1 F2 E1 E2 L1 L2.
  destruct (commas_removed _ F1) as [G1 Q1].
  destruct (commas_removed _ F2) as [G2 Q2].
  assert (N1 : remove_char "," d1 <> []) by (rewrite Q1; now apply some_digit).
  assert (N2 : remove_char "," d2 <> []) by (rewrite Q2; now apply some_digit).
  assert (I1 : int_of_str (strip (remove_char "," d1))
               = Returns (amount_value d1)).
  { rewrite strip_no_space
      by (eapply forallb_impl; [|exact G1];
          intros c Hc; now rewrite (digit_not_space _ Hc)).
    apply int_of_str_digits; auto. rewrite Q1. exact L1. }
  assert (I2 : int_of_str (strip (remove_char "," d2))
               = Returns (amount_value d2)).
  { rewrite strip_no_space
      by (eapply forallb_impl; [|exact G2];
          intros c Hc; now rewrite (digit_not_space _ Hc)).
    apply int_of_str_digits; auto. rewrite Q2. exact L2. }
  assert (Dash : forall d, forallb is_digit d = true -> ~ In "-"%char d).
  { intros d. now apply digits_lack. }
  unfold _format_amount_range. cbn [method and_then].
  destruct Hsep as [-> | ->].
  - rewrite clean_range; auto;
      try (intros [H|[H|[H|[]]]]; discriminate H).
    rewrite contains_mid. unfold split.
    rewrite split_space_dash by auto. cbn [rev app unpack2 and_then fst snd].
    rewrite I1. cbn [and_then]. rewrite I2. reflexivity.
  - rewrite clean_range; auto; try (intros [H|[]]; discriminate H).
    rewrite (contains_lacks " "%char (lit " - ")); cycle 1.
    { now left. }
    { intros H. apply in_app_or in H as [H|H].
      - revert H. now apply digits_lack.
      - apply in_app_or in H as [[H|[]]|H]; [discriminate H|].
        revert H. now apply digits_lack. }
    rewrite contains_mid. unfold split.
    rewrite split_dash by auto. cbn [rev app unpack2 and_then fst snd].
    rewrite I1. cbn [and_then]. rewrite I2. reflexivity.
Qed.

Lemma complete_range_is_abbreviated_witness :
  _format_amount_range (VStr "$1,001 - $15,000") = Returns (lit "$1K-$15K").
Proof.
  exact (complete_range_is_abbreviated (lit "1,001") (lit "15,000") (lit " - ")
           (or_introl eq_refl) eq_refl eq_refl eq_refl eq_refl
           ltac:(vm_compute; lia) ltac:(vm_compute; lia)).
Defined.

(** An amount that ends in a dash and has no [" - "] inside, like the
    lower bound the single-line shape captures with its dangling dash,
    is given back as it is. *)
Theorem dangling_dash_is_kept a :
  contains " - " (clean_amount a) = false ->
  endswith "-" (clean_amount a) = true ->
  _format_amount_range (VStr a) = Returns a.
Proof.
  intros Hc He. unfold _format_amount_range. cbn [method and_then show].
  rewrite Hc.
  assert (Hu : exists u, clean_amount a = u ++ lit "-").
  { unfold endswith in He. destruct (rev (clean_amount a)) as [|c r] eqn:E;
      [discriminate|].
    cbn [startswith rev app lit list_ascii_of_string] in He.
    rewrite andb_true_r in He. apply Ascii.eqb_eq in He. subst c.
    exists (rev r). apply (f_equal (@rev ascii)) in E.
    rewrite rev_involutive in E. exact E. }
  destruct Hu as (u & ->).
  pose proof (contains_mid (lit "-") [] u) as M. rewrite app_nil_r in M.
  rewrite M. unfold split.
  replace (split_acc "-" [] 0 (u ++ lit "-"))
    with (split_acc "-" [] 0 u ++ [[]])
    by (symmetry; apply (split_char_feed "-"%char [] u [])).
  destruct (split_acc_piece (lit "-") u [] 0) as (p & rest & ->).
  destruct rest as [|q rest]; [|now destruct rest].
  cbn [app split_acc rev unpack2 and_then fst snd].
  destruct (int_of_str_fails (strip p)) as [(n & ->)| ->]; reflexivity.
Qed.

Lemma dangling_dash_is_kept_witness :
  _format_amount_range (VStr "$50,001-") = Returns (lit "$50,001-").
Proof.
  exact (dangling_dash_is_kept (lit "$50,001-") eq_refl eq_refl).
Defined.

(** ** The message of a record *)

Lemma is_action_cases action :
  is_action action = true -> action = lit "BUY" \/ action = lit "SELL".
Proof.
  unfold is_action. intros H. apply orb_true_iff in H as [H|H];
    apply str_eqb_eq in H; auto.
Qed.

Lemma message_of emoji now url t action kind asset_name ticker amount date :
  field_is "action" action t -> is_action action = true ->
  field_is "trade_type" (value kind) t ->
  field_is "asset_name" asset_name t ->
  field "ticker" t = Some ticker ->
  field_is "amount_range" amount t ->
  field_is "transaction_date" date t ->
  (forall v, field "description" t = Some v -> exists d, v = VStr d) ->
  exists m,
    _format_trade_message emoji now t url = Returns m /\
    msg_color m = colour_of kind action /\
    msg_title m
    = emoji ++ lit " " ++
      show (get_or t "politician_full_name" (VStr "Unknown Politician")) ++
      lit " " ++ heading_of kind ++ lit "!" /\
    map f_name (msg_fields m) = field_names kind t.
Proof.
  unfold field_is. intros Ha Hact Hk Hn Ht Hm Hd Hdesc.
  destruct (format_amount_range_returns amount) as (shown & Hs & _).
  unfold field_names, _format_trade_message, ticker_info, item, get.
  rewrite Ha, Hk, Hn, Ht, Hm, Hd. cbn [and_then method]. rewrite Hs.
  cbn [and_then].
  destruct (truth ticker); cbn [and_then];
    destruct (is_action_cases _ Hact) as [-> | ->];
    destruct kind;
    destruct (field "description" t) as [v|] eqn:Ed;
    try (destruct (Hdesc v eq_refl) as (d & ->); destruct d as [|c d]);
    cbn [truth truthy is_str value str_eqb andb orb and_then fst snd
         Ascii.eqb Bool.eqb lit list_ascii_of_string is_option
         colour_of heading_of];
    (eexists; split; [reflexivity|]; repeat split; reflexivity).
Qed.

Lemma record_fields text out t :
  _parse_text_for_trades text = Ok out -> In t out ->
  exists action kind asset_name ticker amount date,
    field_is "action" action t /\ is_action action = true /\
    field_is "trade_type" (value kind) t /\
    field_is "asset_name" asset_name t /\
    field "ticker" t = Some ticker /\
    field_is "amount_range" amount t /\
    field_is "transaction_date" date t /\
    (forall v, field "description" t = Some v -> exists d, v = VStr d) /\
    field "politician_name" t = None /\
    field "politician_full_name" t = None.
Proof.
  intros H Hin.
  destruct (emitted_form _ _ _ H Hin) as (line & all_lines & i & _ & P & F).
  destruct (record_kind _ _ _ _ P) as (kind & K).
  open_form F; unfold field_is in K; cbn in K; inversion K; subst;
    exists action, kind; eexists _, _, _, _;
    (repeat split; try reflexivity; try assumption).
  - intros v [= <-]. eauto.
  - intros v [=].
Qed.

Lemma field_set_item_same k v : forall t, field k (set_item k v t) = Some v.
Proof.
  induction t as [|[k' v'] t IH]; cbn [set_item field].
  - now rewrite String.eqb_refl.
  - destruct (String.eqb k k') eqn:E; cbn [field]; rewrite ?E.
    + now rewrite String.eqb_refl.
    + exact IH.
Qed.

Lemma field_set_item_other k k' v : k <> k' -> forall t,
  field k (set_item k' v t) = field k t.
Proof.
  intros Hk. induction t as [|[k0 v0] t IH]; cbn [set_item field].
  - destruct (String.eqb_spec k k'); [contradiction | reflexivity].
  - destruct (String.eqb_spec k' k0) as [->|N]; cbn [field].
    + destruct (String.eqb_spec k k0); [contradiction | reflexivity].
    + now rewrite IH.
Qed.

Lemma field_tagged k name full_name t :
  k <> "politician_name" -> k <> "politician_full_name" ->
  field k (tagged name full_name t) = field k t.
Proof.
  intros H1 H2. unfold tagged. now rewrite !field_set_item_other.
Qed.

(** The message of a record of the engine as it leaves the parser:
    [_format_trade_message] raises nothing on it, the colour is the one
    of options for an option and else the one of the action, never the
    colour kept for other actions, the heading names no politician, and
    the entry for the option details is there for an option with a
    description only. *)
Theorem message_of_a_record emoji now url text out t :
  _parse_text_for_trades text = Ok out -> In t out ->
  exists m action kind,
    field_is "action" action t /\ field_is "trade_type" (value kind) t /\
    _format_trade_message emoji now t url = Returns m /\
    msg_color m = colour_of kind action /\
    msg_title m
    = emoji ++ lit " Unknown Politician " ++ heading_of kind ++ lit "!" /\
    map f_name (msg_fields m) = field_names kind t.
Proof.
  intros H Hin.
  destruct (record_fields _ _ _ H Hin)
    as (action & kind & asset & tk & amount & date &
        Ha & Hact & Hk & Hn & Ht & Hm & Hd & Hdesc & _ & Hp).
  destruct (message_of emoji now url t action kind asset tk amount date)
    as (m & M & C & T & N); auto.
  exists m, action, kind. repeat split; auto.
  rewrite T. unfold get_or. rewrite Hp. reflexivity.
Qed.

Lemma message_of_a_record_witness :
  exists m action kind,
    field_is "action" action widget_record /\
    field_is "trade_type" (value kind) widget_record /\
    _format_trade_message "*" "2024-03-06T00:00:00" widget_record "u"
    = Returns m /\
    msg_color m = colour_of kind action /\
    msg_title m
    = lit "*" ++ lit " Unknown Politician " ++ heading_of kind ++ lit "!" /\
    map f_name (msg_fields m) = field_names kind widget_record.
Proof.
  exact (message_of_a_record "*" "2024-03-06T00:00:00" "u"
           (document [widget_line; wdg_line]) [widget_record] widget_record
           ltac:(vm_compute; reflexivity) ltac:(left; reflexivity)).
Defined.

(** The message of a record that multi_politician_tracker.py has
    tagged with the politician: the same colour and entries, under the
    full name of the politician. *)
Theorem message_of_a_tagged_record emoji now url text out t name full_name :
  _parse_text_for_trades text = Ok out -> In t out ->
  exists m action kind,
    field_is "action" action t /\ field_is "trade_type" (value kind) t /\
    _format_trade_message emoji now (tagged name full_name t) url
    = Returns m /\
    msg_color m = colour_of kind action /\
    msg_title m
    = emoji ++ lit " " ++ full_name ++ lit " " ++ heading_of kind ++ lit "!" /\
    map f_name (msg_fields m) = field_names kind t.
Proof.
  intros H Hin.
  destruct (record_fields _ _ _ H Hin)
    as (action & kind & asset & tk & amount & date &
        Ha & Hact & Hk & Hn & Ht & Hm & Hd & Hdesc & _ & _).
  assert (K : forall k, k <> "politician_name" ->
                        k <> "politician_full_name" ->
                        field k (tagged name full_name t) = field k t).
  { intros k. apply field_tagged. }
  destruct (message_of emoji now url (tagged name full_name t)
              action kind asset tk amount date)
    as (m & M & C & T & N); unfold field_is;
    try (rewrite K by discriminate; assumption); auto.
  exists m, action, kind. repeat split; auto.
  - rewrite T. unfold get_or, tagged. rewrite field_set_item_same.
    reflexivity.
  - rewrite N. unfold field_names, get. now rewrite K by discriminate.
Qed.

Lemma message_of_a_tagged_record_witness :
  exists m action kind,
    field_is "action" action widget_record /\
    field_is "trade_type" (value kind) widget_record /\
    _format_trade_message "*" "2024-03-06T00:00:00"
      (tagged "pelosi" "Nancy Pelosi" widget_record) "u"
    = Returns m /\
    msg_color m = colour_of kind action /\
    msg_title m
    = lit "*" ++ lit " " ++ lit "Nancy Pelosi" ++ lit " " ++
      heading_of kind ++ lit "!" /\
    map f_name (msg_fields m) = field_names kind widget_record.
Proof.
  exact (message_of_a_tagged_record "*" "2024-03-06T00:00:00" "u"
           (document [widget_line; wdg_line]) [widget_record] widget_record
           "pelosi" "Nancy Pelosi"
           ltac:(vm_compute; reflexivity) ltac:(left; reflexivity)).
Defined.

(** ** What the structural extractor looks at *)

Lemma len_app {A} (pre ls : list A) : len (pre ++ ls) = (len pre + len ls)%Z.
Proof. unfold len. rewrite length_app. lia. Qed.

Lemma getitem_shift {A} (pre ls : list A) j :
  (0 <= j)%Z -> getitem (pre ++ ls) (len pre + j) = getitem ls j.
Proof.
  intros Hj. unfold getitem, len.
  destruct (Z.ltb_spec (Z.of_nat (length pre) + j) 0); [lia|].
  destruct (Z.ltb_spec (Z.of_nat (length pre) + j) 0); [lia|].
  destruct (Z.ltb_spec j 0); [lia|]. destruct (Z.ltb_spec j 0); [lia|].
  rewrite nth_error_app2 by lia.
  now replace (Z.to_nat (Z.of_nat (length pre) + j) - length pre)
    with (Z.to_nat j) by lia.
Qed.

Lemma has_next_shift (pre ls : list pystr) i :
  (0 <= i)%Z -> has_next (pre ++ ls) (len pre + i) = has_next ls i.
Proof.
  intros Hi. unfold has_next. rewrite len_app.
  destruct ls as [|l ls].
  - rewrite app_nil_r. cbn [truthy andb].
    apply andb_false_iff. right. apply Z.ltb_ge. unfold len. cbn. lia.
  - replace (truthy (pre ++ l :: ls)) with true by now destruct pre.
    cbn [truthy andb].
    destruct (Z.ltb_spec (len pre + i + 1) (len pre + len (l :: ls)));
      destruct (Z.ltb_spec (i + 1) (len (l :: ls))); auto; lia.
Qed.

Lemma range_shift n a b :
  range (n + a) (n + b) = map (Z.add n) (range a b).
Proof.
  unfold range. replace (n + b - (n + a))%Z with (b - a)%Z by lia.
  rewrite map_map. apply map_ext. intros k. lia.
Qed.

Lemma range_nonneg a b j : (0 <= a)%Z -> In j (range a b) -> (0 <= j)%Z.
Proof.
  intros Ha H. unfold range in H. apply in_map_iff in H as (k & <- & _). lia.
Qed.

Lemma mapM_getitem_shift (pre ls : list pystr) : forall idxs,
  (forall j, In j idxs -> (0 <= j)%Z) ->
  mapM (getitem (pre ++ ls)) (map (Z.add (len pre)) idxs)
  = mapM (getitem ls) idxs.
Proof.
  induction idxs as [|j idxs IH]; intros H; [reflexivity|].
  cbn [map mapM]. rewrite getitem_shift by (apply H; now left).
  rewrite IH by (intros k Hk; apply H; now right). reflexivity.
Qed.

Lemma description_loop_shift (pre ls : list pystr) : forall idxs parts found,
  (forall j, In j idxs -> (0 <= j)%Z) ->
  description_loop (pre ++ ls) (map (Z.add (len pre)) idxs) parts found
  = description_loop ls idxs parts found.
Proof.
  induction idxs as [|j idxs IH]; intros parts found H; [reflexivity|].
  cbn [map description_loop]. rewrite getitem_shift by (apply H; now left).
  destruct (getitem ls j) as [raw|e]; [|reflexivity]. cbn [bind].
  assert (H' : forall k, In k idxs -> (0 <= k)%Z)
    by (intros k Hk; apply H; now right).
  now rewrite !IH by assumption.
Qed.

Lemma window_shift (pre ls : list pystr) i k :
  range (len pre + i) (Z.min (len pre + i + k) (len (pre ++ ls)))
  = map (Z.add (len pre)) (range i (Z.min (i + k) (len ls))).
Proof.
  rewrite len_app, <- range_shift. f_equal. lia.
Qed.

Lemma trade_type_shift (pre ls : list pystr) i :
  (0 <= i)%Z ->
  _determine_trade_type_from_ptr_context (pre ++ ls) (len pre + i)
  = _determine_trade_type_from_ptr_context ls i.
Proof.
  intros Hi. unfold _determine_trade_type_from_ptr_context.
  rewrite window_shift, mapM_getitem_shift
    by (intros j Hj; eapply range_nonneg; [|exact Hj]; lia).
  destruct ls as [|l ls].
  - rewrite app_nil_r. cbn [truthy negb].
    replace (range i (Z.min (i + 5) (len []))) with (@nil Z)
      by (symmetry; apply range_empty; unfold len; cbn; lia).
    now destruct pre.
  - now replace (truthy (pre ++ l :: ls)) with true by now destruct pre.
Qed.

Lemma description_shift (pre ls : list pystr) i :
  (0 <= i)%Z ->
  _extract_description_for_trade (pre ++ ls) (len pre + i)
  = _extract_description_for_trade ls i.
Proof.
  intros Hi. unfold _extract_description_for_trade.
  replace (len pre + i + 1)%Z with (len pre + (i + 1))%Z by lia.
  replace (len pre + i + 10)%Z with (len pre + (i + 1) + 9)%Z by lia.
  replace (i + 10)%Z with (i + 1 + 9)%Z by lia.
  rewrite window_shift, description_loop_shift
    by (intros j Hj; eapply range_nonneg; [|exact Hj]; lia).
  destruct ls as [|l ls].
  - rewrite app_nil_r. cbn [truthy negb].
    replace (range (i + 1) (Z.min (i + 1 + 9) (len []))) with (@nil Z)
      by (symmetry; apply range_empty; unfold len; cbn; lia).
    now destruct pre.
  - now replace (truthy (pre ++ l :: ls)) with true by now destruct pre.
Qed.

Lemma ptr_trade_shift (pre ls : list pystr) line i asset tk ac d1 d2 am :
  (0 <= i)%Z ->
  ptr_trade line (pre ++ ls) (len pre + i) asset tk ac d1 d2 am
  = ptr_trade line ls i asset tk ac d1 d2 am.
Proof.
  intros Hi. unfold ptr_trade.
  now rewrite trade_type_shift, description_shift.
Qed.

Lemma next_line_shift (pre ls : list pystr) i :
  (0 <= i)%Z -> getitem (pre ++ ls) (len pre + i + 1) = getitem ls (i + 1).
Proof.
  intros Hi. replace (len pre + i + 1)%Z with (len pre + (i + 1))%Z by lia.
  apply getitem_shift. lia.
Qed.

Ltac same_bind :=
  repeat match goal with
  | |- bind ?m _ = bind ?m _ => destruct m; cbn [bind]; [|reflexivity]
  end.

Lemma shape3_shift (pre ls : list pystr) m line i :
  (0 <= i)%Z ->
  shape3 m line (pre ++ ls) (len pre + i) = shape3 m line ls i.
Proof.
  intros Hi. unfold shape3. same_bind.
  rewrite next_line_shift by assumption. same_bind.
  now apply ptr_trade_shift.
Qed.

Lemma shape2_shift (pre ls : list pystr) m line i :
  (0 <= i)%Z ->
  shape2 m line (pre ++ ls) (len pre + i) = shape2 m line ls i.
Proof.
  intros Hi. unfold shape2. same_bind.
  rewrite next_line_shift by assumption. same_bind.
  destruct (re_search ticker_re a4); [|reflexivity]. same_bind.
  now rewrite ptr_trade_shift.
Qed.

Lemma shape1_shift (pre ls : list pystr) m line i :
  (0 <= i)%Z ->
  shape1 m line (pre ++ ls) (len pre + i) = shape1 m line ls i.
Proof.
  intros Hi. unfold shape1. same_bind.
  rewrite has_next_shift, next_line_shift by assumption. same_bind.
  now apply ptr_trade_shift.
Qed.

(** The structural extractor never looks back: the lines before the
    current one have no part in its result. *)
Theorem structural_extractor_never_looks_back pre all_lines line i :
  (0 <= i)%Z ->
  _parse_ptr_trade_line line (pre ++ all_lines) (len pre + i)
  = _parse_ptr_trade_line line all_lines i.
Proof.
  intros Hi. unfold _parse_ptr_trade_line, try_shape2, try_shape3.
  rewrite has_next_shift by assumption.
  destruct (re_search pattern line); [now rewrite shape1_shift|].
  destruct (re_search pattern2 line), (re_search pattern3 line),
    (has_next all_lines i);
    rewrite ?shape2_shift, ?shape3_shift by assumption; reflexivity.
Qed.

Lemma structural_extractor_never_looks_back_witness :
  (0 <= 0)%Z /\
  _parse_ptr_trade_line widget_line
    ([apple_line; total_line] ++ [widget_line; wdg_line])
    (len [apple_line; total_line] + 0)
  = _parse_ptr_trade_line widget_line [widget_line; wdg_line] 0.
Proof.
  assert (H : (0 <= 0)%Z) by discriminate.
  exact (conj H
    (structural_extractor_never_looks_back [apple_line; total_line]
       [widget_line; wdg_line] widget_line 0 H)).
Defined.

(** ** When the heuristic path gives a record *)

Lemma no_shape_no_structural_record line all_lines i :
  structural_line line = false ->
  _parse_ptr_trade_line line all_lines i = Ok None.
Proof.
  unfold structural_line. intros S.
  apply orb_false_iff in S as [S S3]. apply orb_false_iff in S as [S1 S2].
  rewrite (re_search_erase pattern ptr_pattern1) in S1 by reflexivity.
  rewrite (re_search_erase pattern2 ptr_pattern2) in S2 by reflexivity.
  rewrite (re_search_erase pattern3 ptr_pattern3) in S3 by reflexivity.
  unfold _parse_ptr_trade_line, try_shape2, try_shape3.
  destruct (re_search pattern line); [discriminate|].
  destruct (re_search pattern2 line); [discriminate|].
  destruct (re_search pattern3 line); [discriminate|]. reflexivity.
Qed.

(** A line of none of the three shapes gets a record exactly when it
    has an action word and [_extract_asset_and_type] finds an asset
    name of three characters or more, at any index and whatever the
    other lines. *)
Theorem heuristic_record_iff line all_lines i :
  structural_line line = false ->
  (exists t, _parse_trade_line line all_lines i = Ok (Some t)) <->
  (exists action asset_name ticker trade_type,
     _extract_action line = Some action /\
     _extract_asset_and_type line
     = Ok (Some (asset_name, ticker, trade_type)) /\
     2 < length asset_name).
Proof.
  intros S. unfold _parse_trade_line.
  rewrite (no_shape_no_structural_record _ _ _ S). cbn [bind].
  unfold heuristic_trade. rewrite transaction_date_reads.
  destruct (_extract_action line) as [action|] eqn:A.
  - pose proof (extract_action_is_action _ _ A) as Ia.
    assert (Ta : truthy action = true).
    { destruct (is_action_cases _ Ia) as [-> | ->]; reflexivity. }
    rewrite Ta. cbn [negb].
    destruct (_extract_asset_and_type line) as [[[[asset tk] ty]|]|e];
      cbn [bind try_except].
    + destruct (Nat.ltb_spec 2 (length asset)) as [L|L].
      * replace (truthy asset) with true
          by (destruct asset; [inversion L|auto]).
        cbn [andb try_except]. split; eauto 8.
      * rewrite andb_false_r. cbn [andb try_except]. split.
        -- intros (t & H). discriminate H.
        -- intros (a & n & k & y & _ & [= <- <- <-] & L'). lia.
    + split; [intros (t & H); discriminate H|].
      intros (a & n & k & y & _ & H & _). discriminate H.
    + split; [intros (t & H); discriminate H|].
      intros (a & n & k & y & _ & H & _). discriminate H.
  - cbn [try_except]. split; [intros (t & H); discriminate H|].
    intros (a & n & k & y & H & _). discriminate H.
Qed.

Lemma heuristic_record_iff_witness :
  structural_line apple_line = false /\
  ((exists t, _parse_trade_line apple_line [apple_line] 0 = Ok (Some t)) <->
   (exists action asset_name ticker trade_type,
      _extract_action apple_line = Some action /\
      _extract_asset_and_type apple_line
      = Ok (Some (asset_name, ticker, trade_type)) /\
      2 < length asset_name)).
Proof.
  assert (S : structural_line apple_line = false) by (vm_compute; reflexivity).
  exact (conj S (heuristic_record_iff apple_line [apple_line] 0 S)).
Defined.
